(** * ycode-open: the Tailwind class mapper and the canvas renderer

    A shallow embedding of [src/lib/tailwind-class-mapper.ts] and of the
    class filter and text resolution of [src/public/canvas-renderer.js].

    Strings are Rocq strings read as sequences of code units below 256;
    the regular expressions of the source are values of [Re.t], run by an
    executable matcher; JS objects used as dictionaries are [gmap]s or
    lists of entries, read with the members that a plain object inherits
    from [Object.prototype]; a function that can throw returns an
    [Outcome]. *)

From Stdlib Require Import String Ascii List Bool Arith Lia.
From stdpp Require Import base option gmap strings.
Import ListNotations.
Local Open Scope string_scope.
Local Open Scope list_scope.

(** ** JavaScript string primitives used by the sources *)

Module JsString.

(** [s.startsWith(p)] *)
Definition startsWith (p s : string) : bool := String.prefix p s.

(** [s.slice(n)] for [0 <= n] *)
Fixpoint slice (n : nat) (s : string) : string :=
  match n, s with
  | O, _ => s
  | S n', String _ s' => slice n' s'
  | S _, EmptyString => EmptyString
  end.

(** [s.includes(sub)] *)
Fixpoint includes (sub s : string) : bool :=
  startsWith sub s ||
  match s with
  | EmptyString => false
  | String _ s' => includes sub s'
  end.

(** [s.endsWith(p)] *)
Definition endsWith (p s : string) : bool :=
  (String.length p <=? String.length s)%nat &&
  String.eqb (slice (String.length s - String.length p) s) p.

(** Truthiness of a string: only the empty string is falsy. *)
Definition truthy (s : string) : bool :=
  match s with EmptyString => false | _ => true end.

Definition isUpper (c : ascii) : bool :=
  let n := nat_of_ascii c in (65 <=? n)%nat && (n <=? 90)%nat.

Definition lowerChar (c : ascii) : ascii :=
  if isUpper c then ascii_of_nat (nat_of_ascii c + 32) else c.

(** [s.toLowerCase()]: below 256 only [A-Z] have an ASCII lower case. *)
Fixpoint toLowerCase (s : string) : string :=
  match s with
  | EmptyString => EmptyString
  | String c s' => String (lowerChar c) (toLowerCase s')
  end.

(** [list.includes(x)] on a list of strings *)
Definition listIncludes (x : string) (l : list string) : bool :=
  existsb (String.eqb x) l.

(** [s.split(' ')], with the word being read carried in [cur]. *)
Fixpoint splitAux (cur : string) (s : string) : list string :=
  match s with
  | EmptyString => [cur]
  | String c s' =>
      if Ascii.eqb c " "%char then cur :: splitAux EmptyString s'
      else splitAux (cur +:+ String c EmptyString) s'
  end.

Definition split (s : string) : list string := splitAux EmptyString s.

(** [s.split(' ').filter(Boolean)] *)
Definition words (s : string) : list string := List.filter truthy (split s).

(** [list.join(' ')] *)
Fixpoint join (l : list string) : string :=
  match l with
  | [] => EmptyString
  | [x] => x
  | x :: rest => x +:+ " " +:+ join rest
  end.

(** [list.find(p)] *)
Definition find {A} (p : A -> bool) (l : list A) : option A := List.find p l.

(** *** Exceptions *)

(** What a call does: it returns a value, or it throws.  The one exception
    below is the [TypeError] of calling what is no function. *)
Inductive Outcome (A : Type) : Type :=
| Returns (a : A)
| Throws.

Arguments Returns {A} a.
Arguments Throws {A}.

#[export] Instance Outcome_ret : MRet Outcome := fun A a => Returns a.

#[export] Instance Outcome_bind : MBind Outcome := fun A B f x =>
  match x with
  | Returns a => f a
  | Throws => Throws
  end.

(** [list.filter(f)] with a callback that can throw: the callback is called
    on the elements from left to right, and the first throw ends the call. *)
Fixpoint filterM {A} (f : A -> Outcome bool) (l : list A)
  : Outcome (list A) :=
  match l with
  | [] => Returns []
  | x :: rest =>
      keep ← f x;
      kept ← filterM f rest;
      Returns (if keep : bool then x :: kept else kept)
  end.

(** [list.find(f)] with a callback that can throw: it stops at the first
    element for which the callback answers true, and at the first throw. *)
Fixpoint findM {A} (f : A -> Outcome bool) (l : list A)
  : Outcome (option A) :=
  match l with
  | [] => Returns None
  | x :: rest =>
      found ← f x;
      if found : bool then Returns (Some x) else findM f rest
  end.

(** A loop [for (const x of list) { acc = f(acc, x) }] whose body can
    throw. *)
Fixpoint foldM {A B} (f : A -> B -> Outcome A) (l : list B) (acc : A)
  : Outcome A :=
  match l with
  | [] => Returns acc
  | x :: rest => acc' ← f acc x; foldM f rest acc'
  end.

(** *** Members of [Object.prototype] *)

(** The names of the members of [Object.prototype].  A plain object
    answers the read of a key that it does not have itself with the member
    of its prototype of that name, when there is one: a function, or the
    prototype itself for [__proto__]; all of them are truthy, none of them is
    a regular expression or an array. *)
Definition objectPrototypeKeys : list string :=
  [ "constructor"; "hasOwnProperty"; "isPrototypeOf"; "propertyIsEnumerable";
    "toLocaleString"; "toString"; "valueOf"; "__proto__";
    "__defineGetter__"; "__defineSetter__"; "__lookupGetter__";
    "__lookupSetter__" ].

Definition isPrototypeKey (key : string) : bool :=
  listIncludes key objectPrototypeKeys.

End JsString.

(** ** Regular expressions

    The fragment of the JS regular expressions that the sources use:
    character classes, sequence, alternation, repetition, the negative
    lookahead [(?!r)] and the end anchor [$].  [run r s] lists the rests of
    [s] after every way of matching [r] at the start of [s]; a pattern
    written with a leading [^] is tested with [test]. *)

Module Re.

Inductive t : Type :=
| Eps
| Char (p : ascii -> bool)
| Seq (r1 r2 : t)
| Alt (r1 r2 : t)
| Star (r : t)
| NotAhead (r : t)
| End.

(** Repetition of [step], at most [n] rounds, every round consuming. *)
Fixpoint iter (step : string -> list string) (n : nat) (s : string)
  : list string :=
  s :: match n with
       | O => []
       | S n' =>
           flat_map (iter step n')
             (List.filter
                (fun s' => (String.length s' <? String.length s)%nat)
                (step s))
       end.

Fixpoint run (r : t) (s : string) : list string :=
  match r with
  | Eps => [s]
  | Char p =>
      match s with
      | String c s' => if p c then [s'] else []
      | EmptyString => []
      end
  | Seq r1 r2 => flat_map (run r2) (run r1 s)
  | Alt r1 r2 => run r1 s ++ run r2 s
  | Star r' => iter (run r') (String.length s) s
  | NotAhead r' => match run r' s with [] => [s] | _ :: _ => [] end
  | End => match s with EmptyString => [s] | String _ _ => [] end
  end.

(** [/^r/.test(s)] *)
Definition test (r : t) (s : string) : bool :=
  match run r s with [] => false | _ :: _ => true end.

Definition chr (c : ascii) : t := Char (Ascii.eqb c).

(** a character under the [i] flag *)
Definition chri (c : ascii) : t :=
  Char (fun x => Ascii.eqb (JsString.lowerChar x) (JsString.lowerChar c)).

Fixpoint lit (s : string) : t :=
  match s with
  | EmptyString => Eps
  | String c s' => Seq (chr c) (lit s')
  end.

Fixpoint liti (s : string) : t :=
  match s with
  | EmptyString => Eps
  | String c s' => Seq (chri c) (liti s')
  end.

Fixpoint seqs (l : list t) : t :=
  match l with
  | [] => Eps
  | [r] => r
  | r :: rest => Seq r (seqs rest)
  end.

(** an alternation that is never empty in the sources *)
Fixpoint alts (l : list t) : t :=
  match l with
  | [] => NotAhead Eps
  | [r] => r
  | r :: rest => Alt r (alts rest)
  end.

Definition words (l : list string) : t := alts (map lit l).
Definition wordsi (l : list string) : t := alts (map liti l).

Definition plus (r : t) : t := Seq r (Star r).
Definition opt (r : t) : t := Alt r Eps.

Definition isDigit (c : ascii) : bool :=
  let n := nat_of_ascii c in (48 <=? n)%nat && (n <=? 57)%nat.
Definition isLower (c : ascii) : bool :=
  let n := nat_of_ascii c in (97 <=? n)%nat && (n <=? 122)%nat.
Definition isHex (c : ascii) : bool :=
  let n := nat_of_ascii c in
  isDigit c || ((65 <=? n)%nat && (n <=? 70)%nat)
            || ((97 <=? n)%nat && (n <=? 102)%nat).
(** [\w] *)
Definition isWord (c : ascii) : bool :=
  isDigit c || JsString.isUpper c || isLower c || Ascii.eqb c "_"%char.
(** [\s] below 256: tab, LF, VT, FF, CR, space and the no-break space *)
Definition isSpace (c : ascii) : bool :=
  let n := nat_of_ascii c in
  ((9 <=? n)%nat && (n <=? 13)%nat) || (n =? 32)%nat || (n =? 160)%nat.
(** [.] matches everything but the line terminators *)
Definition isDot (c : ascii) : bool :=
  let n := nat_of_ascii c in negb ((n =? 10)%nat || (n =? 13)%nat).

Definition digit : t := Char isDigit.
Definition word : t := Char isWord.
Definition space : t := Char isSpace.
Definition dot : t := Char isDot.
Definition hex : t := Char isHex.

(** [r{n}] *)
Fixpoint times (n : nat) (r : t) : t :=
  match n with
  | O => Eps
  | S n' => Seq r (times n' r)
  end.

End Re.

(** ** [src/lib/tailwind-class-mapper.ts] *)

Module Mapper.
Import JsString.

(** *** The colour heuristic *)

Definition colorKeywords : list string :=
  [ "transparent"; "currentcolor"; "inherit";
    "black"; "white"; "red"; "green"; "blue";
    "yellow"; "purple"; "pink"; "gray"; "grey"; "orange"; "cyan"; "magenta";
    "indigo"; "violet"; "brown"; "lime"; "teal"; "navy"; "maroon"; "olive" ].

(** [/^#?[0-9A-Fa-f]{n}$/] *)
Definition reHex (n : nat) : Re.t :=
  Re.seqs [Re.opt (Re.chr "#"); Re.times n Re.hex; Re.End].

(** [/^rgba?\s*\(/i] and [/^hsla?\s*\(/i] *)
Definition reColorFn (name : string) : Re.t :=
  Re.seqs [Re.liti name; Re.opt (Re.chri "a"); Re.Star Re.space; Re.chr "("].

(** [-?\d*\.?\d+] *)
Definition reNumber : Re.t :=
  Re.seqs [Re.opt (Re.chr "-"); Re.Star Re.digit; Re.opt (Re.chr ".");
           Re.plus Re.digit].

(** [/^-?\d*\.?\d+(px|rem|em|%|vh|vw|vmin|vmax|ch|ex|cm|mm|in|pt|pc)$/i] *)
Definition reNumberUnit : Re.t :=
  Re.seqs [reNumber;
           Re.wordsi ["px"; "rem"; "em"; "%"; "vh"; "vw"; "vmin"; "vmax";
                      "ch"; "ex"; "cm"; "mm"; "in"; "pt"; "pc"];
           Re.End].

(** [/^-?\d*\.?\d+$/] *)
Definition rePlainNumber : Re.t := Re.seqs [reNumber; Re.End].

Definition isColorValue (value : string) : bool :=
  if Re.test (reHex 3) value then true
  else if Re.test (reHex 6) value then true
  else if Re.test (reHex 8) value then true
  else if Re.test (reColorFn "rgb") value then true
  else if Re.test (reColorFn "hsl") value then true
  else if listIncludes (toLowerCase value) colorKeywords then true
  else if Re.test reNumberUnit value then false
  else if Re.test rePlainNumber value then false
  else false.

Definition isImageValue (value : string) : bool :=
  if startsWith "url(" value || includes "http://" value
     || includes "https://" value || includes "data:" value then true
  else if includes "gradient(" value || includes "linear-gradient" value
          || includes "radial-gradient" value
          || includes "conic-gradient" value then true
  else if isColorValue value then false
  else false.

(** *** Measurement classes *)

Definition formatMeasurementClass
  (value prefix : string) (allowedNamedValues : list string) : string :=
  if listIncludes value allowedNamedValues then prefix +:+ "-" +:+ value
  else if endsWith "px" value then prefix +:+ "-[" +:+ value +:+ "]"
  else if Re.test rePlainNumber value then prefix +:+ "-[" +:+ value +:+ "px]"
  else if Re.test Re.digit value then prefix +:+ "-[" +:+ value +:+ "]"
  else prefix +:+ "-" +:+ value.

(** *** The pattern registry *)

(** [\[.+\]] *)
Definition arb : Re.t := Re.seqs [Re.chr "["; Re.plus Re.dot; Re.chr "]"].
(** [\d+] *)
Definition nums : Re.t := Re.plus Re.digit.

(** [/^prefix(body)$/] *)
Definition family (prefix : string) (body : list Re.t) : Re.t :=
  Re.seqs [Re.lit prefix; Re.alts body; Re.End].

(** [/^prefix(body)?$/] *)
Definition familyOpt (prefix : string) (body : list Re.t) : Re.t :=
  Re.seqs [Re.lit prefix; Re.opt (Re.alts body); Re.End].

(** [(\[.+\]|\d+|px|0\.5|1\.5|2\.5|3\.5)] *)
Definition scale : list Re.t :=
  [arb; nums; Re.lit "px"; Re.lit "0.5"; Re.lit "1.5"; Re.lit "2.5";
   Re.lit "3.5"].

(** [(\[.+\]|\d+|px|auto|0\.5|1\.5|2\.5|3\.5)] *)
Definition scaleAuto : list Re.t :=
  [arb; nums; Re.lit "px"; Re.lit "auto"; Re.lit "0.5"; Re.lit "1.5";
   Re.lit "2.5"; Re.lit "3.5"].

Definition named (l : list string) : list Re.t := map Re.lit l.

Definition textAlignWords : list string :=
  ["left"; "center"; "right"; "justify"; "start"; "end"].

Definition fontSizeWords : list string :=
  ["xs"; "sm"; "base"; "lg"; "xl"; "2xl"; "3xl"; "4xl"; "5xl"; "6xl"; "7xl";
   "8xl"; "9xl"].

(** [/^text-(?!(?:excluded)(?:\s|$)).+$/] *)
Definition textFamily (excluded : list string) : Re.t :=
  Re.seqs [Re.lit "text-";
           Re.NotAhead (Re.Seq (Re.words excluded) (Re.Alt Re.space Re.End));
           Re.plus Re.dot; Re.End].

Definition bgKeywords : list string :=
  ["auto"; "cover"; "contain"; "bottom"; "center"; "left"; "left-bottom";
   "left-top"; "right"; "right-bottom"; "right-top"; "top"; "repeat";
   "no-repeat"; "repeat-x"; "repeat-y"; "repeat-round"; "repeat-space";
   "none"; "gradient-to-t"; "gradient-to-tr"; "gradient-to-r";
   "gradient-to-br"; "gradient-to-b"; "gradient-to-bl"; "gradient-to-l";
   "gradient-to-tl"].

Definition borderStyleWords : list string :=
  ["solid"; "dashed"; "dotted"; "double"; "hidden"; "none"].

(** [((\w+)(-\d+)?|\[.+\])] *)
Definition colorBody : Re.t :=
  Re.Alt (Re.Seq (Re.plus Re.word) (Re.opt (Re.Seq (Re.chr "-") nums))) arb.

Definition radiusBody : list Re.t :=
  named ["-none"; "-sm"; "-md"; "-lg"; "-xl"; "-2xl"; "-3xl"; "-full"]
    ++ [Re.Seq (Re.chr "-") arb].

Definition widthBody : list Re.t :=
  [Re.Seq (Re.chr "-") nums; Re.Seq (Re.chr "-") arb].

Definition CLASS_PROPERTY_MAP : list (string * Re.t) :=
  [ ("display", family EmptyString (named ["block"; "inline-block"; "inline"; "flex";
                                   "inline-flex"; "grid"; "inline-grid";
                                   "hidden"]));
    ("flexDirection", family "flex-" (named ["row"; "row-reverse"; "col";
                                             "col-reverse"]));
    ("flexWrap", family "flex-" (named ["wrap"; "wrap-reverse"; "nowrap"]));
    ("justifyContent", family "justify-"
       (named ["start"; "end"; "center"; "between"; "around"; "evenly";
               "stretch"]));
    ("alignItems", family "items-"
       (named ["start"; "end"; "center"; "baseline"; "stretch"]));
    ("alignContent", family "content-"
       (named ["start"; "end"; "center"; "between"; "around"; "evenly";
               "stretch"]));
    ("gap", family "gap-" scale);
    ("columnGap", family "gap-x-" scale);
    ("rowGap", family "gap-y-" scale);
    ("gridTemplateColumns", family "grid-cols-"
       ([arb; nums] ++ named ["none"; "subgrid"]));
    ("gridTemplateRows", family "grid-rows-"
       ([arb; nums] ++ named ["none"; "subgrid"]));

    ("padding", family "p-" scale);
    ("paddingTop", family "pt-" scale);
    ("paddingRight", family "pr-" scale);
    ("paddingBottom", family "pb-" scale);
    ("paddingLeft", family "pl-" scale);
    ("margin", family "m-" scaleAuto);
    ("marginTop", family "mt-" scaleAuto);
    ("marginRight", family "mr-" scaleAuto);
    ("marginBottom", family "mb-" scaleAuto);
    ("marginLeft", family "ml-" scaleAuto);

    ("width", family "w-"
       ([arb; Re.seqs [nums; Re.chr "/"; nums]; nums]
          ++ named ["px"; "auto"; "full"; "screen"; "min"; "max"; "fit"]));
    ("height", family "h-"
       ([arb; Re.seqs [nums; Re.chr "/"; nums]; nums]
          ++ named ["px"; "auto"; "full"; "screen"; "min"; "max"; "fit"]));
    ("minWidth", family "min-w-"
       ([arb; nums] ++ named ["px"; "full"; "min"; "max"; "fit"]));
    ("minHeight", family "min-h-"
       ([arb; nums] ++ named ["px"; "full"; "screen"; "min"; "max"; "fit"]));
    ("maxWidth", family "max-w-"
       (arb :: named ["none"; "xs"; "sm"; "md"; "lg"; "xl"; "2xl"; "3xl";
                      "4xl"; "5xl"; "6xl"; "7xl"; "full"; "min"; "max";
                      "fit"; "prose"; "screen-sm"; "screen-md"; "screen-lg";
                      "screen-xl"; "screen-2xl"]));
    ("maxHeight", family "max-h-"
       ([arb; nums] ++ named ["px"; "full"; "screen"; "min"; "max"; "fit"]));

    ("fontFamily", family "font-" (named ["sans"; "serif"; "mono"] ++ [arb]));
    ("fontSize", textFamily textAlignWords);
    ("fontWeight", family "font-"
       (named ["thin"; "extralight"; "light"; "normal"; "medium"; "semibold";
               "bold"; "extrabold"; "black"] ++ [arb]));
    ("lineHeight", family "leading-"
       (named ["none"; "tight"; "snug"; "normal"; "relaxed"; "loose"]
          ++ [nums; arb]));
    ("letterSpacing", family "tracking-"
       (named ["tighter"; "tight"; "normal"; "wide"; "wider"; "widest"]
          ++ [arb]));
    ("textAlign", family "text-" (named textAlignWords));
    ("textTransform", family EmptyString
       (named ["uppercase"; "lowercase"; "capitalize"; "normal-case"]));
    ("textDecoration", family EmptyString
       (named ["underline"; "overline"; "line-through"; "no-underline"]));
    ("color", textFamily (fontSizeWords ++ textAlignWords));

    ("backgroundColor",
       Re.seqs [Re.lit "bg-";
                Re.NotAhead (Re.Seq (Re.words bgKeywords) Re.End);
                colorBody; Re.End]);
    ("backgroundSize", family "bg-" (named ["auto"; "cover"; "contain"] ++ [arb]));
    ("backgroundPosition", family "bg-"
       (named ["bottom"; "center"; "left"; "left-bottom"; "left-top"; "right";
               "right-bottom"; "right-top"; "top"] ++ [arb]));
    ("backgroundRepeat", family "bg-"
       (named ["repeat"; "no-repeat"; "repeat-x"; "repeat-y"; "repeat-round";
               "repeat-space"]));
    ("backgroundImage", family "bg-"
       (named ["none"; "gradient-to-t"; "gradient-to-tr"; "gradient-to-r";
               "gradient-to-br"; "gradient-to-b"; "gradient-to-bl";
               "gradient-to-l"; "gradient-to-tl"] ++ [arb]));

    ("borderWidth", familyOpt "border" widthBody);
    ("borderTopWidth", familyOpt "border-t" widthBody);
    ("borderRightWidth", familyOpt "border-r" widthBody);
    ("borderBottomWidth", familyOpt "border-b" widthBody);
    ("borderLeftWidth", familyOpt "border-l" widthBody);
    ("borderStyle", family "border-" (named borderStyleWords));
    ("borderColor",
       Re.seqs [Re.lit "border-";
                Re.NotAhead (Re.Seq (Re.words borderStyleWords) Re.End);
                Re.NotAhead (Re.words ["t-"; "r-"; "b-"; "l-"; "x-"; "y-"]);
                colorBody; Re.End]);
    ("borderRadius", familyOpt "rounded" radiusBody);
    ("borderTopLeftRadius", familyOpt "rounded-tl" radiusBody);
    ("borderTopRightRadius", familyOpt "rounded-tr" radiusBody);
    ("borderBottomRightRadius", familyOpt "rounded-br" radiusBody);
    ("borderBottomLeftRadius", familyOpt "rounded-bl" radiusBody);

    ("opacity", family "opacity-" [nums; arb]);
    ("boxShadow", familyOpt "shadow"
       (named ["-none"; "-sm"; "-md"; "-lg"; "-xl"; "-2xl"; "-inner"]
          ++ [Re.Seq (Re.chr "-") arb]));

    ("position", family EmptyString
       (named ["static"; "fixed"; "absolute"; "relative"; "sticky"]));
    ("top", family "top-" scaleAuto);
    ("right", family "right-" scaleAuto);
    ("bottom", family "bottom-" scaleAuto);
    ("left", family "left-" scaleAuto);
    ("zIndex", family "z-" [arb; nums; Re.lit "auto"]) ].

(** What [CLASS_PROPERTY_MAP[property]] can be when it is truthy: a
    regular expression of the registry, or the member of [Object.prototype]
    with the name [property]. *)
Inductive Pattern : Type :=
| RegExp (r : Re.t)
| PrototypeMember (key : string).

(** [table[property] || null]: the entry of the registry under the key;
    without one, the member of [Object.prototype] of that name; without
    that, [null]. *)
Fixpoint lookupPattern (property : string) (table : list (string * Re.t))
  : option Pattern :=
  match table with
  | [] =>
      if isPrototypeKey property then Some (PrototypeMember property)
      else None
  | (k, r) :: rest =>
      if String.eqb property k then Some (RegExp r)
      else lookupPattern property rest
  end.

Definition getConflictingClassPattern (property : string) : option Pattern :=
  lookupPattern property CLASS_PROPERTY_MAP.

(** [pattern.test(cls)]: a member of [Object.prototype] has no [test], and
    the call throws. *)
Definition testPattern (pattern : Pattern) (cls : string) : Outcome bool :=
  match pattern with
  | RegExp r => Returns (Re.test r cls)
  | PrototypeMember _ => Throws
  end.

(** The value between the first [[] that opens a non-empty bracket
    without []] inside, and its []]: [className.match(/\[([^\]]+)\]/)]. *)
Fixpoint bracketBody (s : string) : string * string :=
  match s with
  | EmptyString => (EmptyString, EmptyString)
  | String c s' =>
      if Ascii.eqb c "]"%char then (EmptyString, s)
      else let (v, rest) := bracketBody s' in (String c v, rest)
  end.

Definition bracketAt (s : string) : option string :=
  let (v, rest) := bracketBody s in
  if truthy v && startsWith "]" rest then Some v else None.

Fixpoint extractArbitraryValue (className : string) : option string :=
  match className with
  | EmptyString => None
  | String c s' =>
      if Ascii.eqb c "["%char then
        match bracketAt s' with
        | Some v => Some v
        | None => extractArbitraryValue s'
        end
      else extractArbitraryValue s'
  end.

(** [const value = extractArbitraryValue(cls); if (value) ...] *)
Definition truthyValue (className : string) : option string :=
  match extractArbitraryValue className with
  | Some v => if truthy v then Some v else None
  | None => None
  end.

(** *** Conflict removal *)

(** The [text-[...]] block of the filters: the class belongs to the
    other member of the fontSize / color overload. *)
Definition textBelongsElsewhere (property cls : string) : bool :=
  if startsWith "text-[" cls then
    match truthyValue cls with
    | Some value =>
        let isColor := isColorValue value in
        if String.eqb property "fontSize" && isColor then true
        else if String.eqb property "color" && negb isColor then true
        else false
    | None => false
    end
  else false.

(** The [bg-[...]] block: the other member of the backgroundColor /
    backgroundImage overload. *)
Definition bgBelongsElsewhere (property cls : string) : bool :=
  if startsWith "bg-[" cls then
    match truthyValue cls with
    | Some value =>
        let isImage := isImageValue value in
        if String.eqb property "backgroundColor" && isImage then true
        else if String.eqb property "backgroundImage" && negb isImage then true
        else false
    | None => false
    end
  else false.

(** The callback of [classes.filter] in [removeConflictingClasses]. *)
Definition keepsClass (property : string) (pattern : Pattern) (cls : string)
  : Outcome bool :=
  matched ← testPattern pattern cls;
  if negb matched then Returns true
  else if textBelongsElsewhere property cls then Returns true
  else if bgBelongsElsewhere property cls then Returns true
  else Returns false.

Definition removeConflictingClasses (classes : list string) (property : string)
  : Outcome (list string) :=
  match getConflictingClassPattern property with
  | None => Returns classes
  | Some pattern => filterM (keepsClass property pattern) classes
  end.

Definition replaceConflictingClasses
  (existingClasses : list string) (property : string) (newClass : option string)
  : Outcome (list string) :=
  filtered ← removeConflictingClasses existingClasses property;
  match newClass with
  | Some c => if truthy c then Returns (filtered ++ [c]) else Returns filtered
  | None => Returns filtered
  end.

Definition getAffectedProperties (className : string) : list string :=
  match (if startsWith "text-[" className then truthyValue className
         else None) with
  | Some value => if isColorValue value then ["color"] else ["fontSize"]
  | None =>
      match (if startsWith "bg-[" className then truthyValue className
             else None) with
      | Some value =>
          if isImageValue value then ["backgroundImage"]
          else ["backgroundColor"]
      | None =>
          map fst (List.filter (fun entry => Re.test (snd entry) className)
                     CLASS_PROPERTY_MAP)
      end
  end.

Definition removeConflictsForClass
  (existingClasses : list string) (newClass : string) : Outcome (list string) :=
  foldM removeConflictingClasses (getAffectedProperties newClass)
    existingClasses.

(** *** Design properties to classes *)

Definition spacingPrefixMap : list (string * string) :=
  [ ("padding", "p"); ("paddingTop", "pt"); ("paddingRight", "pr");
    ("paddingBottom", "pb"); ("paddingLeft", "pl");
    ("margin", "m"); ("marginTop", "mt"); ("marginRight", "mr");
    ("marginBottom", "mb"); ("marginLeft", "ml") ].

Definition sizingPrefixMap : list (string * string) :=
  [ ("width", "w"); ("height", "h"); ("minWidth", "min-w");
    ("minHeight", "min-h"); ("maxWidth", "max-w"); ("maxHeight", "max-h") ].

(** [value.match(/^#|^rgb/)] *)
Definition looksLikeColorLiteral (value : string) : bool :=
  Re.test (Re.Alt (Re.lit "#") (Re.lit "rgb")) value.

(** [value.match(/^\d/)] *)
Definition startsWithDigit (value : string) : bool := Re.test Re.digit value.

Definition dquote : ascii := ascii_of_nat 34.

Fixpoint existsChar (p : ascii -> bool) (s : string) : bool :=
  match s with
  | EmptyString => false
  | String c s' => p c || existsChar p s'
  end.

(** [value.match] of a comma or white space anywhere, or of a leading
    double or single quote *)
Definition isCustomFont (value : string) : bool :=
  existsChar (fun c => Ascii.eqb c ","%char || Re.isSpace c) value
  || match value with
     | String c _ => Ascii.eqb c dquote || Ascii.eqb c "'"%char
     | EmptyString => false
     end.

Section PropertyToClass.

(** [Math.round(parseFloat(value) * 100).toString()], a floating-point
    computation that is left abstract. *)
Variable percentOfDecimal : string -> string.

(** The text that a template literal makes of the member of
    [Object.prototype] with the given name,
    [`${Object.prototype[key]}`]: the source text of a native function,
    which the engine chooses. *)
Variable prototypeText : string -> string.

(** [prefixMap[property]] as the template literals of [propertyToClass]
    print it: the entry of the map under the key; without one, the member of
    [Object.prototype] of that name, which is truthy; without that,
    [undefined]. *)
Fixpoint lookupPrefix (property : string) (table : list (string * string))
  : option string :=
  match table with
  | [] =>
      if isPrototypeKey property then Some (prototypeText property) else None
  | (k, v) :: rest =>
      if String.eqb property k then Some v else lookupPrefix property rest
  end.

Definition layoutToClass (property value : string) : option string :=
  if String.eqb property "display" then Some value
  else if String.eqb property "flexDirection" then
    if String.eqb value "row" then Some "flex-row"
    else if String.eqb value "column" then Some "flex-col"
    else if String.eqb value "row-reverse" then Some "flex-row-reverse"
    else if String.eqb value "column-reverse" then Some "flex-col-reverse"
    else Some ("flex-" +:+ value)
  else if String.eqb property "flexWrap" then
    if String.eqb value "wrap" then Some "flex-wrap"
    else if String.eqb value "nowrap" then Some "flex-nowrap"
    else if String.eqb value "wrap-reverse" then Some "flex-wrap-reverse"
    else None
  else if String.eqb property "justifyContent" then Some ("justify-" +:+ value)
  else if String.eqb property "alignItems" then Some ("items-" +:+ value)
  else if String.eqb property "alignContent" then Some ("content-" +:+ value)
  else if String.eqb property "gap" then
    Some (formatMeasurementClass value "gap" [])
  else if String.eqb property "columnGap" then
    Some (formatMeasurementClass value "gap-x" [])
  else if String.eqb property "rowGap" then
    Some (formatMeasurementClass value "gap-y" [])
  else if String.eqb property "gridTemplateColumns" then
    Some ("grid-cols-[" +:+ value +:+ "]")
  else if String.eqb property "gridTemplateRows" then
    Some ("grid-rows-[" +:+ value +:+ "]")
  else None.

Definition typographyToClass (property value : string) : option string :=
  if String.eqb property "fontSize" then
    Some (formatMeasurementClass value "text" [])
  else if String.eqb property "fontWeight" then
    Some (if startsWithDigit value then "font-[" +:+ value +:+ "]"
          else "font-" +:+ value)
  else if String.eqb property "fontFamily" then
    Some (if isCustomFont value then "font-[" +:+ value +:+ "]"
          else "font-" +:+ value)
  else if String.eqb property "lineHeight" then
    Some (if startsWithDigit value then "leading-[" +:+ value +:+ "]"
          else "leading-" +:+ value)
  else if String.eqb property "letterSpacing" then
    Some (formatMeasurementClass value "tracking" [])
  else if String.eqb property "textAlign" then Some ("text-" +:+ value)
  else if String.eqb property "textTransform" then
    if String.eqb value "none" then Some "normal-case" else Some value
  else if String.eqb property "textDecoration" then
    if String.eqb value "none" then Some "no-underline" else Some value
  else if String.eqb property "color" then
    Some (if looksLikeColorLiteral value then "text-[" +:+ value +:+ "]"
          else "text-" +:+ value)
  else None.

Definition spacingToClass (property value : string) : option string :=
  match lookupPrefix property spacingPrefixMap with
  | Some prefix =>
      if startsWith "margin" property then
        Some (formatMeasurementClass value prefix ["auto"])
      else Some (formatMeasurementClass value prefix [])
  | None => None
  end.

Definition sizingToClass (property value : string) : option string :=
  match lookupPrefix property sizingPrefixMap with
  | Some prefix =>
      if String.eqb value "100%" then Some (prefix +:+ "-full")
      else Some (formatMeasurementClass value prefix
                   ["auto"; "full"; "screen"; "min"; "max"; "fit"])
  | None => None
  end.

Definition sideWidthToClass (value prefix : string) : string :=
  if String.eqb value "1px" then prefix
  else formatMeasurementClass value prefix [].

Definition bordersToClass (property value : string) : option string :=
  if String.eqb property "borderWidth" then
    Some (sideWidthToClass value "border")
  else if String.eqb property "borderTopWidth" then
    Some (sideWidthToClass value "border-t")
  else if String.eqb property "borderRightWidth" then
    Some (sideWidthToClass value "border-r")
  else if String.eqb property "borderBottomWidth" then
    Some (sideWidthToClass value "border-b")
  else if String.eqb property "borderLeftWidth" then
    Some (sideWidthToClass value "border-l")
  else if String.eqb property "borderStyle" then Some ("border-" +:+ value)
  else if String.eqb property "borderColor" then
    Some (if looksLikeColorLiteral value then "border-[" +:+ value +:+ "]"
          else "border-" +:+ value)
  else if String.eqb property "borderRadius" then
    Some (formatMeasurementClass value "rounded" [])
  else if String.eqb property "borderTopLeftRadius" then
    Some (formatMeasurementClass value "rounded-tl" [])
  else if String.eqb property "borderTopRightRadius" then
    Some (formatMeasurementClass value "rounded-tr" [])
  else if String.eqb property "borderBottomRightRadius" then
    Some (formatMeasurementClass value "rounded-br" [])
  else if String.eqb property "borderBottomLeftRadius" then
    Some (formatMeasurementClass value "rounded-bl" [])
  else None.

Definition backgroundsToClass (property value : string) : option string :=
  if String.eqb property "backgroundColor" then
    Some (if looksLikeColorLiteral value then "bg-[" +:+ value +:+ "]"
          else "bg-" +:+ value)
  else if String.eqb property "backgroundImage" then
    if startsWith "url(" value then Some ("bg-[" +:+ value +:+ "]")
    else Some ("bg-" +:+ value)
  else if String.eqb property "backgroundSize" then Some ("bg-" +:+ value)
  else if String.eqb property "backgroundPosition" then Some ("bg-" +:+ value)
  else if String.eqb property "backgroundRepeat" then
    if String.eqb value "no-repeat" then Some "bg-no-repeat"
    else Some ("bg-" +:+ value)
  else None.

Definition effectsToClass (property value : string) : option string :=
  if String.eqb property "opacity" then
    let opacityValue :=
      if includes "." value then percentOfDecimal value else value in
    Some ("opacity-[" +:+ opacityValue +:+ "%]")
  else if String.eqb property "boxShadow" then
    if String.eqb value "none" then Some "shadow-none"
    else if listIncludes value ["sm"; "md"; "lg"; "xl"; "2xl"; "inner"]
    then Some ("shadow-" +:+ value)
    else Some ("shadow-[" +:+ value +:+ "]")
  else None.

Definition positioningToClass (property value : string) : option string :=
  if String.eqb property "position" then Some value
  else if listIncludes property ["top"; "right"; "bottom"; "left"] then
    Some (formatMeasurementClass value property ["auto"])
  else if String.eqb property "zIndex" then
    if String.eqb value "auto" then Some "z-auto"
    else Some (if startsWithDigit value then "z-[" +:+ value +:+ "]"
               else "z-" +:+ value)
  else None.

Definition propertyToClass (category property value : string)
  : option string :=
  if negb (truthy value) then None
  else if String.eqb category "layout" then layoutToClass property value
  else if String.eqb category "typography" then
    typographyToClass property value
  else if String.eqb category "spacing" then spacingToClass property value
  else if String.eqb category "sizing" then sizingToClass property value
  else if String.eqb category "borders" then bordersToClass property value
  else if String.eqb category "backgrounds" then
    backgroundsToClass property value
  else if String.eqb category "effects" then effectsToClass property value
  else if String.eqb category "positioning" then
    positioningToClass property value
  else None.

End PropertyToClass.

(** *** Classes to design properties *)

(** The design object: category name to (property name to value). *)
Abbreviation Design := (gmap string (gmap string string)).

Definition categories : list string :=
  [ "layout"; "typography"; "spacing"; "sizing"; "borders"; "backgrounds";
    "effects"; "positioning" ].

Definition emptyDesign : Design :=
  list_to_map (map (fun c => (c, (∅ : gmap string string))) categories).

(** [design.category!.property = value]; every category the parser
    writes to is a key of the object it starts from. *)
Definition setProp (category property value : string) (design : Design)
  : Design :=
  alter (fun props => <[property := value]> props) category design.

(** [design[category][property]] *)
Definition getProp (design : Design) (category property : string)
  : option string :=
  props ← design !! category; props !! property.

(** A run of [if (cls === c) design.category.property = v] *)
Definition literals (category property : string)
  (table : list (string * string)) (cls : string) (design : Design) : Design :=
  fold_left
    (fun d e => if String.eqb cls (fst e)
                then setProp category property (snd e) d else d)
    table design.

(** [const value = extractArbitraryValue(cls);
     if (value) design.category.property = value] *)
Definition setArbitrary (category property cls : string) (design : Design)
  : Design :=
  match truthyValue cls with
  | Some value => setProp category property value design
  | None => design
  end.

(** [if (cls.startsWith(prefix)) { ...setArbitrary... }] *)
Definition bracketed (category property prefix cls : string)
  (design : Design) : Design :=
  if startsWith prefix cls then setArbitrary category property cls design
  else design.

(** An [if ... else if ...] chain of [bracketed] rules *)
Fixpoint bracketedChain (category : string) (rules : list (string * string))
  (cls : string) (design : Design) : Design :=
  match rules with
  | [] => design
  | (prefix, property) :: rest =>
      if startsWith prefix cls then setArbitrary category property cls design
      else bracketedChain category rest cls design
  end.

(** [value = cls.replace(prefix, ''); if (allowed.includes(value)) ...],
    under [cls.startsWith(prefix)] *)
Definition suffixIn (category property prefix : string)
  (allowed : list string) (cls : string) (design : Design) : Design :=
  if startsWith prefix cls then
    let value := slice (String.length prefix) cls in
    if listIncludes value allowed then setProp category property value design
    else design
  else design.

Definition layoutRules (cls : string) : list (Design -> Design) :=
  [ literals "layout" "display"
      [ ("block", "block"); ("inline-block", "inline-block");
        ("inline", "inline"); ("flex", "flex");
        ("inline-flex", "inline-flex"); ("grid", "grid");
        ("inline-grid", "inline-grid"); ("hidden", "hidden") ] cls;
    literals "layout" "flexDirection"
      [ ("flex-row", "row"); ("flex-row-reverse", "row-reverse");
        ("flex-col", "column"); ("flex-col-reverse", "column-reverse") ] cls;
    suffixIn "layout" "justifyContent" "justify-"
      ["start"; "end"; "center"; "between"; "around"; "evenly"; "stretch"] cls;
    suffixIn "layout" "alignItems" "items-"
      ["start"; "end"; "center"; "baseline"; "stretch"] cls;
    bracketed "layout" "gap" "gap-[" cls;
    bracketed "layout" "gridTemplateColumns" "grid-cols-[" cls;
    bracketed "layout" "gridTemplateRows" "grid-rows-[" cls ].


Definition afterColorRules (cls : string) : list (Design -> Design) :=
  [ bracketed "typography" "fontSize" "text-[" cls;
    (fun d => if startsWith "font-[" cls && negb (includes "sans" cls)
                 && negb (includes "serif" cls) && negb (includes "mono" cls)
              then setArbitrary "typography" "fontWeight" cls d else d);
    literals "typography" "fontWeight"
      [ ("font-thin", "100"); ("font-extralight", "200");
        ("font-light", "300"); ("font-normal", "400");
        ("font-medium", "500"); ("font-semibold", "600");
        ("font-bold", "700"); ("font-extrabold", "800");
        ("font-black", "900") ] cls;
    (fun d => if startsWith "font-[" cls
                 && (includes "sans" cls || includes "serif" cls
                     || includes "mono" cls || includes "," cls)
              then setArbitrary "typography" "fontFamily" cls d else d);
    literals "typography" "fontFamily"
      [ ("font-sans", "sans-serif"); ("font-serif", "serif");
        ("font-mono", "monospace") ] cls;
    literals "typography" "textAlign"
      [ ("text-left", "left"); ("text-center", "center");
        ("text-right", "right"); ("text-justify", "justify") ] cls;
    literals "typography" "textTransform"
      [ ("uppercase", "uppercase"); ("lowercase", "lowercase");
        ("capitalize", "capitalize"); ("normal-case", "none") ] cls;
    literals "typography" "textDecoration"
      [ ("underline", "underline"); ("line-through", "line-through");
        ("no-underline", "none") ] cls;
    bracketed "typography" "lineHeight" "leading-[" cls;
    bracketed "typography" "letterSpacing" "tracking-[" cls;

    bracketedChain "spacing"
      [ ("p-[", "padding"); ("pt-[", "paddingTop"); ("pr-[", "paddingRight");
        ("pb-[", "paddingBottom"); ("pl-[", "paddingLeft") ] cls;
    bracketedChain "spacing"
      [ ("m-[", "margin"); ("mt-[", "marginTop"); ("mr-[", "marginRight");
        ("mb-[", "marginBottom"); ("ml-[", "marginLeft") ] cls;

    bracketed "sizing" "width" "w-[" cls;
    bracketed "sizing" "height" "h-[" cls;
    bracketed "sizing" "minWidth" "min-w-[" cls;
    bracketed "sizing" "minHeight" "min-h-[" cls;
    bracketed "sizing" "maxWidth" "max-w-[" cls;
    bracketed "sizing" "maxHeight" "max-h-[" cls;

    bracketedChain "borders"
      [ ("rounded-[", "borderRadius");
        ("rounded-tl-[", "borderTopLeftRadius");
        ("rounded-tr-[", "borderTopRightRadius");
        ("rounded-br-[", "borderBottomRightRadius");
        ("rounded-bl-[", "borderBottomLeftRadius") ] cls;
    (fun d => if startsWith "border-[" cls && negb (includes "#" cls)
                 && negb (includes "rgb" cls)
              then setArbitrary "borders" "borderWidth" cls d else d);
    literals "borders" "borderStyle"
      [ ("border-solid", "solid"); ("border-dashed", "dashed");
        ("border-dotted", "dotted"); ("border-double", "double");
        ("border-none", "none") ] cls;
    (fun d => if startsWith "border-[#" cls || startsWith "border-[rgb" cls
              then setArbitrary "borders" "borderColor" cls d else d);

    (fun d => if startsWith "bg-[#" cls || startsWith "bg-[rgb" cls
              then setArbitrary "backgrounds" "backgroundColor" cls d else d);

    bracketed "effects" "opacity" "opacity-[" cls;
    bracketed "effects" "boxShadow" "shadow-[" cls;

    literals "positioning" "position"
      [ ("static", "static"); ("relative", "relative");
        ("absolute", "absolute"); ("fixed", "fixed");
        ("sticky", "sticky") ] cls;
    bracketed "positioning" "top" "top-[" cls;
    bracketed "positioning" "right" "right-[" cls;
    bracketed "positioning" "bottom" "bottom-[" cls;
    bracketed "positioning" "left" "left-[" cls;
    bracketed "positioning" "zIndex" "z-[" cls ].

Definition applyRules (rules : list (Design -> Design)) (design : Design)
  : Design :=
  fold_left (fun d rule => rule d) rules design.

(** The colour test that ends the callback early:
    [if (value && isColorValue(value)) { ...color = value; return; }] *)
Definition colorOfClass (cls : string) : option string :=
  if startsWith "text-[" cls then
    match truthyValue cls with
    | Some value => if isColorValue value then Some value else None
    | None => None
    end
  else None.

(** The callback's body from the layout rules on, for a class whose
    breakpoint prefix is already stripped. *)
Definition parseBaseClass (design : Design) (cls : string) : Design :=
  let d1 := applyRules (layoutRules cls) design in
  match colorOfClass cls with
  | Some value => setProp "typography" "color" value d1
  | None => applyRules (afterColorRules cls) d1
  end.

Definition stateWords : list string :=
  ["hover"; "focus"; "active"; "disabled"; "visited"].

(** [/^(hover|focus|active|disabled|visited):/] *)
Definition reStatePrefix : Re.t :=
  Re.Seq (Re.words stateWords) (Re.chr ":").

(** [/^(max-lg|max-md|lg|md):(hover|focus|active|disabled|visited):/] *)
Definition reBreakpointStatePrefix : Re.t :=
  Re.seqs [Re.words ["max-lg"; "max-md"; "lg"; "md"]; Re.chr ":";
           Re.words stateWords; Re.chr ":"].

(** [cls.replace(/^(max-lg|max-md|lg|md):/, '')] *)
Definition stripBreakpointPrefix (cls : string) : string :=
  if startsWith "max-lg:" cls then slice 7 cls
  else if startsWith "max-md:" cls then slice 7 cls
  else if startsWith "lg:" cls then slice 3 cls
  else if startsWith "md:" cls then slice 3 cls
  else cls.

(** The callback of [classList.forEach] *)
Definition parseClass (design : Design) (cls : string) : Design :=
  if Re.test reStatePrefix cls then design
  else if Re.test reBreakpointStatePrefix cls then design
  else parseBaseClass design (stripBreakpointPrefix cls).

(** [classes: string | string[]] *)
Inductive Classes : Type :=
| ClassString (s : string)
| ClassArray (l : list string).

Definition classListOf (classes : Classes) : list string :=
  match classes with
  | ClassString s => words s
  | ClassArray l => l
  end.

Definition classesToDesign (classes : Classes) : Design :=
  fold_left parseClass (classListOf classes) emptyDesign.

(** *** Merging designs *)

(** [{ ...(existing?.category || {}), ...(parsed.category || {}) }]: a
    property has its value of [parsed], or else its value of [existing].
    The values are those of a design, texts and the flag [isActive]; an
    object is read by its keys, whose order a [gmap] does not keep. *)
Definition mergeCategory {V : Type}
  (existing : option (gmap string (gmap string V)))
  (parsed : gmap string (gmap string V)) (category : string)
  : gmap string V :=
  default ∅ (parsed !! category)
  ∪ default ∅ (existing ≫= (fun design => design !! category)).

Definition mergeDesign {V : Type}
  (existing parsed : option (gmap string (gmap string V)))
  : gmap string (gmap string V) :=
  match parsed with
  | None => default ∅ existing
  | Some parsed =>
      list_to_map
        (map (fun category => (category, mergeCategory existing parsed category))
           categories)
  end.

(** *** A design to its classes *)

Section DesignToClasses.

Variable percentOfDecimal : string -> string.
Variable prototypeText : string -> string.

(** A design as [Object.entries] lists it: the categories in the order
    of the object, each with the entries of its own object, or with nothing
    when its value is missing or no object.  The one entry that is no text,
    the flag [isActive], is passed over by its name before its value is
    read; it stands in the list with any text. *)
Definition DesignEntries : Type :=
  list (string * option (list (string * string))).

(** The callback of the inner [forEach]: the class that it pushes for a
    property, if any. *)
Definition classOfProperty (category : string) (entry : string * string)
  : option string :=
  let (property, value) := entry in
  if String.eqb property "isActive" || negb (truthy value) then None
  else
    match propertyToClass percentOfDecimal prototypeText category property value
    with
    | Some cls => if truthy cls then Some cls else None
    | None => None
    end.

(** The callback of the outer [forEach] *)
Definition classesOfCategory
  (entry : string * option (list (string * string))) : list string :=
  match snd entry with
  | Some properties => omap (classOfProperty (fst entry)) properties
  | None => []
  end.

Definition designToClasses (design : option DesignEntries) : list string :=
  match design with
  | Some entries => flat_map classesOfCategory entries
  | None => []
  end.

End DesignToClasses.

(** *** Breakpoints and interaction states *)

Inductive Breakpoint : Type := mobile | tablet | desktop.

Inductive UIState : Type :=
| neutral | hover | focus | active | disabled | current.

Definition Breakpoint_eqb (a b : Breakpoint) : bool :=
  match a, b with
  | mobile, mobile | tablet, tablet | desktop, desktop => true
  | _, _ => false
  end.

Definition UIState_eqb (a b : UIState) : bool :=
  match a, b with
  | neutral, neutral | hover, hover | focus, focus | active, active
  | disabled, disabled | current, current => true
  | _, _ => false
  end.

Record BreakpointEntry : Type :=
  { prefix : string; minWidth : option nat }.

Definition BREAKPOINT_CONFIG (breakpoint : Breakpoint) : BreakpointEntry :=
  match breakpoint with
  | mobile => {| prefix := EmptyString; minWidth := None |}
  | tablet => {| prefix := "md:"; minWidth := Some 768 |}
  | desktop => {| prefix := "lg:"; minWidth := Some 1024 |}
  end.

Definition UI_STATE_CONFIG (state : UIState) : string :=
  match state with
  | neutral => EmptyString
  | hover => "hover:"
  | focus => "focus:"
  | active => "active:"
  | disabled => "disabled:"
  | current => "visited:"
  end.

Definition getBreakpointPrefix (breakpoint : Breakpoint) : string :=
  prefix (BREAKPOINT_CONFIG breakpoint).

Definition getUIStatePrefix (state : UIState) : string :=
  UI_STATE_CONFIG state.

Record FullClass : Type :=
  { fcBreakpoint : Breakpoint; fcUIState : UIState; fcBaseClass : string }.

Definition parseFullClass (className : string) : FullClass :=
  let '(breakpoint, remaining) :=
    if startsWith "max-md:" className then (mobile, slice 7 className)
    else if startsWith "max-lg:" className then (tablet, slice 7 className)
    else if startsWith "lg:" className then (desktop, slice 3 className)
    else if startsWith "md:" className then (tablet, slice 3 className)
    else (desktop, className) in
  let '(uiState, remaining) :=
    if startsWith "hover:" remaining then (hover, slice 6 remaining)
    else if startsWith "focus:" remaining then (focus, slice 6 remaining)
    else if startsWith "active:" remaining then (active, slice 7 remaining)
    else if startsWith "disabled:" remaining then
      (disabled, slice 9 remaining)
    else if startsWith "visited:" remaining then (current, slice 8 remaining)
    else (neutral, remaining) in
  {| fcBreakpoint := breakpoint; fcUIState := uiState;
     fcBaseClass := remaining |}.

Record BreakpointClass : Type :=
  { bcBreakpoint : Breakpoint; bcBaseClass : string }.

Definition parseBreakpointClass (className : string) : BreakpointClass :=
  if startsWith "max-md:" className then
    {| bcBreakpoint := mobile; bcBaseClass := slice 7 className |}
  else if startsWith "max-lg:" className then
    {| bcBreakpoint := tablet; bcBaseClass := slice 7 className |}
  else if startsWith "lg:" className then
    {| bcBreakpoint := desktop; bcBaseClass := slice 3 className |}
  else if startsWith "md:" className then
    {| bcBreakpoint := tablet; bcBaseClass := slice 3 className |}
  else {| bcBreakpoint := desktop; bcBaseClass := className |}.

Definition addBreakpointPrefix (breakpoint : Breakpoint) (className : string)
  : string :=
  let prefix := getBreakpointPrefix breakpoint in
  if truthy prefix then prefix +:+ className else className.

Definition getBreakpointClasses (classes : list string)
  (breakpoint : Breakpoint) : list string :=
  let prefix := getBreakpointPrefix breakpoint in
  map (fun cls => if truthy prefix then slice (String.length prefix) cls
                  else cls)
    (List.filter
       (fun cls =>
          if truthy prefix then startsWith prefix cls
          else negb (startsWith "max-lg:" cls)
               && negb (startsWith "max-md:" cls)
               && negb (startsWith "md:" cls)
               && negb (startsWith "lg:" cls))
       classes).

Definition shouldIncludeClassForProperty
  (className property : string) (pattern : Pattern) : Outcome bool :=
  matched ← testPattern pattern className;
  if negb matched then Returns false
  else if textBelongsElsewhere property className then Returns false
  else if bgBelongsElsewhere property className then Returns false
  else Returns true.

(** *** Inherited values *)

Record Inherited : Type :=
  { value : option string; source : option Breakpoint }.

Definition inheritanceChain (currentBreakpoint : Breakpoint)
  : list Breakpoint :=
  match currentBreakpoint with
  | mobile => [desktop; tablet; mobile]
  | tablet => [desktop; tablet]
  | desktop => [desktop]
  end.

(** [/^(max-lg|max-md|hover|focus|active|disabled|visited):/] *)
Definition reDesktopExcluded : Re.t :=
  Re.Seq (Re.words ("max-lg" :: "max-md" :: stateWords)) (Re.chr ":").

(** The callback of the [find] that looks for the state class. *)
Definition isStateClass (property : string) (pattern : Pattern)
  (bpPrefix statePrefix : string) (cls : string) : Outcome bool :=
  let fullPrefix := bpPrefix +:+ statePrefix in
  let withPrefix :=
    if truthy bpPrefix then startsWith fullPrefix cls
    else startsWith statePrefix cls in
  if negb withPrefix then Returns false
  else shouldIncludeClassForProperty
         (slice (String.length fullPrefix) cls) property pattern.

(** The callback of the [find] that looks for the neutral class. *)
Definition isNeutralClass (property : string) (pattern : Pattern)
  (bpPrefix : string) (cls : string) : Outcome bool :=
  if truthy bpPrefix then
    if negb (startsWith bpPrefix cls) then Returns false
    else
      let afterBp := slice (String.length bpPrefix) cls in
      if Re.test reStatePrefix afterBp then Returns false
      else shouldIncludeClassForProperty afterBp property pattern
  else
    if Re.test reDesktopExcluded cls then Returns false
    else shouldIncludeClassForProperty cls property pattern.

(** [if (x)] on a string that may be undefined or null *)
Definition truthyOpt (x : option string) : bool :=
  match x with Some s => truthy s | None => false end.

(** One round of the [for (const breakpoint of inheritanceChain)] loop,
    on the pair [(lastValue, lastSource)]. *)
Definition inheritStep (classes : list string) (property : string)
  (pattern : Pattern) (currentUIState : UIState)
  (last : Inherited) (breakpoint : Breakpoint) : Outcome Inherited :=
  let bpPrefix := getBreakpointPrefix breakpoint in
  let statePrefix := getUIStatePrefix currentUIState in
  let fullPrefix := bpPrefix +:+ statePrefix in
  afterState ←
    (if negb (UIState_eqb currentUIState neutral) then
       stateClass ←
         findM (isStateClass property pattern bpPrefix statePrefix) classes;
       match stateClass : option string with
       | Some cls =>
           if truthy cls then
             Returns {| value := Some (slice (String.length fullPrefix) cls);
                        source := Some breakpoint |}
           else Returns last
       | None => Returns last
       end
     else Returns last);
  neutralClass ← findM (isNeutralClass property pattern bpPrefix) classes;
  match neutralClass : option string with
  | Some cls =>
      if truthy cls then
        let baseClass :=
          if truthy bpPrefix then slice (String.length bpPrefix) cls
          else cls in
        if UIState_eqb currentUIState neutral then
          Returns {| value := Some baseClass; source := Some breakpoint |}
        else if negb (truthyOpt (value afterState)) then
          Returns {| value := Some baseClass; source := Some breakpoint |}
        else Returns afterState
      else Returns afterState
  | None => Returns afterState
  end.

Definition getInheritedValue (classes : list string) (property : string)
  (currentBreakpoint : Breakpoint) (currentUIState : UIState)
  : Outcome Inherited :=
  match getConflictingClassPattern property with
  | None => Returns {| value := None; source := None |}
  | Some pattern =>
      foldM (inheritStep classes property pattern currentUIState)
        (inheritanceChain currentBreakpoint)
        {| value := None; source := None |}
  end.

Definition removeConflictingClassesForBreakpoint (classes : list string)
  (property : string) (breakpoint : Breakpoint) : Outcome (list string) :=
  match getConflictingClassPattern property with
  | None => Returns classes
  | Some pattern =>
      filterM
        (fun cls =>
           let parsed := parseBreakpointClass cls in
           if Breakpoint_eqb (bcBreakpoint parsed) breakpoint then
             included ← shouldIncludeClassForProperty
                          (bcBaseClass parsed) property pattern;
             Returns (negb included)
           else Returns true)
        classes
  end.

(** The callback of [classes.filter] in [setBreakpointClass]. *)
Definition keepsForBreakpoint (property : string) (pattern : Pattern)
  (breakpoint : Breakpoint) (uiState : UIState) (cls : string)
  : Outcome bool :=
  let parsed := parseFullClass cls in
  if negb (Breakpoint_eqb (fcBreakpoint parsed) breakpoint)
     || negb (UIState_eqb (fcUIState parsed) uiState) then Returns true
  else
    included ← shouldIncludeClassForProperty
                 (fcBaseClass parsed) property pattern;
    Returns (negb included).

Definition setBreakpointClass (classes : list string) (property : string)
  (newClass : option string) (breakpoint : Breakpoint) (uiState : UIState)
  : Outcome (list string) :=
  match getConflictingClassPattern property with
  | None => Returns classes
  | Some pattern =>
      let fullPrefix :=
        getBreakpointPrefix breakpoint +:+ getUIStatePrefix uiState in
      newClasses ←
        filterM (keepsForBreakpoint property pattern breakpoint uiState)
          classes;
      if truthyOpt newClass then
        Returns (newClasses ++ [fullPrefix +:+ default EmptyString newClass])
      else Returns newClasses
  end.

End Mapper.

(** ** [src/public/canvas-renderer.js] *)

Module Renderer.
Import JsString.

(** *** Breakpoint filtering *)

(** The body of the [for (const cls of classArray)] loop: whether [cls]
    is pushed to [filtered]. *)
Definition keptAtBreakpoint (breakpoint cls : string) : bool :=
  let hasMd := startsWith "md:" cls || includes " md:" cls in
  let hasLg := startsWith "lg:" cls || includes " lg:" cls in
  if negb hasMd && negb hasLg then true
  else if String.eqb breakpoint "mobile" then false
  else if String.eqb breakpoint "tablet" then hasMd && negb hasLg
  else if String.eqb breakpoint "desktop" then hasMd || hasLg
  else false.

(** The array [filtered] when the loop ends. *)
Definition filteredClasses (classesString breakpoint : string) : list string :=
  List.filter (keptAtBreakpoint breakpoint) (words classesString).

Definition filterClassesByBreakpoint (classesString breakpoint : string)
  : string :=
  if negb (truthy classesString) then classesString
  else join (filteredClasses classesString breakpoint).

(** *** Interaction states *)

Definition stateModifiers : list string :=
  ["hover:"; "focus:"; "active:"; "disabled:"; "visited:"].

(** [cls.replace(/^(max-lg:|max-md:|lg:|md:)/, '')] *)
Definition afterBreakpointPrefix (cls : string) : string :=
  if startsWith "max-lg:" cls then slice 7 cls
  else if startsWith "max-md:" cls then slice 7 cls
  else if startsWith "lg:" cls then slice 3 cls
  else if startsWith "md:" cls then slice 3 cls
  else cls.

(** The callback of [classArray.forEach] in [filterNeutralClasses]: the
    value of [hasStateModifier] when the class has been looked at. *)
Definition hasStateModifier (cls : string) : bool :=
  if existsb (fun modifier => startsWith modifier cls) stateModifiers then true
  else
    let afterBreakpoint := afterBreakpointPrefix cls in
    if negb (String.eqb afterBreakpoint cls) then
      existsb (fun modifier => startsWith modifier afterBreakpoint)
        stateModifiers
    else false.

Definition filterNeutralClasses (classesString : string) : string :=
  if negb (truthy classesString) then classesString
  else join (List.filter (fun cls => negb (hasStateModifier cls))
               (words classesString)).

(** *** The property prefix of a class *)

Definition displayValues : list string :=
  ["flex"; "inline-flex"; "block"; "inline-block"; "inline"; "grid";
   "inline-grid"; "hidden"; "table"; "table-row"; "table-cell"].

Definition flexDirectionValues : list string :=
  ["flex-row"; "flex-row-reverse"; "flex-col"; "flex-col-reverse"].

Definition flexWrapValues : list string :=
  ["flex-wrap"; "flex-wrap-reverse"; "flex-nowrap"].

(** [/^family[a-z]+-\d+$/], for the families [text-], [bg-] and [border-] *)
Definition reNamedColor (family : string) : Re.t :=
  Re.seqs [Re.lit family; Re.plus (Re.Char Re.isLower); Re.chr "-";
           Re.plus Re.digit; Re.End].

(** [[a-z-]] *)
Definition isLowerOrDash (c : ascii) : bool :=
  Re.isLower c || Ascii.eqb c "-"%char.

(** The longest prefix of [run] that is not empty and has a dash after
    it. *)
Fixpoint beforeLastDash (run : string) : option string :=
  match run with
  | EmptyString => None
  | String c run' =>
      match beforeLastDash run' with
      | Some part => Some (String c part)
      | None =>
          if startsWith "-" run' then Some (String c EmptyString) else None
      end
  end.

(** The longest prefix of [s] of characters that satisfy [p]. *)
Fixpoint takeChars (p : ascii -> bool) (s : string) : string :=
  match s with
  | EmptyString => EmptyString
  | String c s' => if p c then String c (takeChars p s') else EmptyString
  end.

(** The group of [cls.match(/^([a-z-]+)-/)]: greedy, so the longest run
    of [[a-z-]] at the start of [cls] that still has a dash after it; that
    dash is itself one of the run. *)
Definition propertyPart (cls : string) : option string :=
  beforeLastDash (takeChars isLowerOrDash cls).

Definition getClassPrefix (cls : string) : string :=
  let '(prefix, cls) :=
    if startsWith "max-lg:" cls then ("max-lg:", slice 7 cls)
    else if startsWith "max-md:" cls then ("max-md:", slice 7 cls)
    else (EmptyString, cls) in
  if listIncludes cls displayValues then prefix +:+ "display"
  else if listIncludes cls flexDirectionValues then prefix +:+ "flex-direction"
  else if listIncludes cls flexWrapValues then prefix +:+ "flex-wrap"
  else if startsWith "justify-" cls then prefix +:+ "justify-"
  else if startsWith "items-" cls then prefix +:+ "items-"
  else if Re.test (reNamedColor "text-") cls then prefix +:+ "text-"
  else if Re.test (reNamedColor "bg-") cls then prefix +:+ "bg-"
  else if Re.test (reNamedColor "border-") cls then prefix +:+ "border-"
  else match propertyPart cls with
       | Some part => prefix +:+ part +:+ "-"
       | None => prefix +:+ cls
       end.

(** *** Activating the classes of a state *)

(** [state === 'current' ? 'visited:' : `${state}:`] *)
Definition statePrefixOf (state : string) : string :=
  if String.eqb state "current" then "visited:" else state +:+ ":".

(** [stateModifiers.filter(m => m !== statePrefix)] *)
Definition otherStatesOf (statePrefix : string) : list string :=
  List.filter (fun m => negb (String.eqb m statePrefix)) stateModifiers.

(** The two arrays that the first pass fills. *)
Record Activation : Type :=
  { activatedClasses : list string;
    activatedBaseClasses : gset string }.

(** What the first pass does for one class: the class that it pushes to
    [activatedClasses] and the prefix that it adds to
    [activatedBaseClasses], if the class belongs to the state. *)
Definition activatedBy (statePrefix cls : string) : option (string * string) :=
  if startsWith statePrefix cls then
    let baseClass := slice (String.length statePrefix) cls in
    Some (baseClass, getClassPrefix baseClass)
  else if startsWith ("max-lg:" +:+ statePrefix) cls then
    let baseClass := slice (String.length ("max-lg:" +:+ statePrefix)) cls in
    Some ("max-lg:" +:+ baseClass, "max-lg:" +:+ getClassPrefix baseClass)
  else if startsWith ("max-md:" +:+ statePrefix) cls then
    let baseClass := slice (String.length ("max-md:" +:+ statePrefix)) cls in
    Some ("max-md:" +:+ baseClass, "max-md:" +:+ getClassPrefix baseClass)
  else None.

(** The callback of the first [classArray.forEach] *)
Definition firstPass (statePrefix : string) (acc : Activation) (cls : string)
  : Activation :=
  match activatedBy statePrefix cls with
  | Some (activated, classPrefix) =>
      {| activatedClasses := activatedClasses acc ++ [activated];
         activatedBaseClasses := {[ classPrefix ]} ∪ activatedBaseClasses acc |}
  | None => acc
  end.

(** [cls] belongs to the state of [statePrefix], bare or behind
    [max-lg:] or [max-md:]. *)
Definition isOfState (statePrefix cls : string) : bool :=
  startsWith statePrefix cls
  || startsWith ("max-lg:" +:+ statePrefix) cls
  || startsWith ("max-md:" +:+ statePrefix) cls.

(** The [for (const otherState of otherStates)] loop *)
Definition isOtherState (otherStates : list string) (cls : string) : bool :=
  existsb (fun otherState =>
             startsWith otherState cls
             || (startsWith ("max-lg:" +:+ otherState) cls
                 || startsWith ("max-md:" +:+ otherState) cls))
    otherStates.

(** The callback of the second [classArray.forEach]; [tracked] is the set
    [activatedBaseClasses] that the first pass has left. *)
Definition secondPass (statePrefix : string) (otherStates : list string)
  (tracked : gset string) (acc : list string) (cls : string) : list string :=
  if isOfState statePrefix cls then acc
  else if isOtherState otherStates cls then acc
  else if bool_decide (getClassPrefix cls ∈ tracked) then acc
  else acc ++ [cls].

Definition activateStateClasses (classesString state : string) : string :=
  if negb (truthy classesString) then classesString
  else
    let classArray := words classesString in
    let statePrefix := statePrefixOf state in
    let otherStates := otherStatesOf statePrefix in
    let first :=
      fold_left (firstPass statePrefix) classArray
        {| activatedClasses := []; activatedBaseClasses := ∅ |} in
    join (fold_left
            (secondPass statePrefix otherStates (activatedBaseClasses first))
            classArray (activatedClasses first)).

(** *** The classes of a layer on the canvas *)

(** [layer.classes]: a string or an array of strings *)
Inductive LayerClasses : Type :=
| ClassesString (s : string)
| ClassesArray (l : list string).

(** [getClassesString(layer)]; the module-level [currentBreakpoint] and
    [currentUIState] are passed as arguments, and the layer by the one
    field that is read, [layer.classes]. *)
Definition getClassesString (currentBreakpoint currentUIState : string)
  (layerClasses : option LayerClasses) : string :=
  let classes :=
    match layerClasses with
    | Some (ClassesArray l) => join l
    | Some (ClassesString s) => s
    | None => EmptyString
    end in
  let classes := filterClassesByBreakpoint classes currentBreakpoint in
  if String.eqb currentUIState "neutral" then filterNeutralClasses classes
  else activateStateClasses classes currentUIState.

(** *** Layers and their variables *)

Record FieldData : Type := { field_id : string }.

(** [{ type, data }] *)
Record FieldVariable : Type :=
  { fvType : string; fvData : option FieldData }.

(** [variables.text]: [{ data, variables }] *)
Record InlineVariableContent : Type :=
  { ivcData : string;
    ivcVariables : option (gmap string FieldVariable) }.

Record LayerVariables : Type :=
  { lvText : option InlineVariableContent }.

(** [text?: string | FieldVariable]; what [getText] returns can also be
    a member of [Object.prototype], read from a record under its name. *)
Inductive TextValue : Type :=
| TextString (s : string)
| TextField (v : FieldVariable)
| TextPrototype (key : string).

Record Layer : Type :=
  { text : option TextValue;
    content : option string;
    variables : option LayerVariables }.

Record CollectionField : Type := { cfId : string; cfName : string }.

(** The values of one record: a field id maps to a string or to
    [null]; an absent key reads as [undefined]. *)
Abbreviation ItemData := (gmap string (option string)).

(** The module-level [collectionFields]: fields by collection id. *)
Abbreviation CollectionFields := (gmap string (list CollectionField)).

(** [layer.text || layer.content || ''] *)
Definition textOrContent (layer : Layer) : TextValue :=
  let fromContent :=
    match content layer with
    | Some c => if truthy c then TextString c else TextString EmptyString
    | None => TextString EmptyString
    end in
  match text layer with
  | Some (TextField v) => TextField v
  | Some (TextPrototype key) => TextPrototype key
  | Some (TextString s) => if truthy s then TextString s else fromContent
  | None => fromContent
  end.

(** [v.type === 'field' && v.data && v.data.field_id] *)
Definition fieldIdOf (v : FieldVariable) : option string :=
  if String.eqb (fvType v) "field" then
    match fvData v with
    | Some d => if truthy (field_id d) then Some (field_id d) else None
    | None => None
    end
  else None.

(** What [collectionItemData[fieldId]] is when it is neither [undefined]
    nor [null]: a value of the record, or the member of [Object.prototype]
    with the name [fieldId]. *)
Inductive ItemValue : Type :=
| ItemString (s : string)
| ItemPrototype (key : string).

(** [value = data[fieldId]; if (value !== undefined && value !== null)] *)
Definition definedValue (data : ItemData) (fieldId : string)
  : option ItemValue :=
  match data !! fieldId with
  | Some (Some v) => Some (ItemString v)
  | Some None => None
  | None =>
      if isPrototypeKey fieldId then Some (ItemPrototype fieldId) else None
  end.

(** What [collectionFields[collectionId]] is when it is truthy: an array of
    fields, or the member of [Object.prototype] with the name
    [collectionId]. *)
Inductive FieldList : Type :=
| FieldArray (fields : list CollectionField)
| FieldsPrototype (key : string).

(** [fieldsForCollection.some(f => f.id === fieldId)]: a member of
    [Object.prototype] has no [some], and the call throws. *)
Definition someField (fieldsForCollection : FieldList) (fieldId : string)
  : Outcome bool :=
  match fieldsForCollection with
  | FieldArray fields =>
      Returns (existsb (fun f => String.eqb (cfId f) fieldId) fields)
  | FieldsPrototype _ => Throws
  end.

(** *** Placeholder markers *)

Definition dquote : ascii := ascii_of_nat 34.

(** The marker up to and with the quote that opens the id *)
Definition markerOpen : string :=
  "<ycode-inline-variable id=" +:+ String dquote EmptyString.

(** The marker from the quote that closes the id on *)
Definition markerClose : string :=
  String dquote "></ycode-inline-variable>".

(** The marker that references the variable [id]. *)
Definition markerOf (id : string) : string := markerOpen +:+ id +:+ markerClose.

(** The longest prefix of [s] of characters that satisfy [p]. *)
Fixpoint spanChars (p : ascii -> bool) (s : string) : string * string :=
  match s with
  | EmptyString => (EmptyString, EmptyString)
  | String c s' =>
      if p c then let (a, b) := spanChars p s' in (String c a, b)
      else (EmptyString, s)
  end.

(** A match of the marker pattern (the [id] between the quotes is a
    non-empty run without a quote) at the start of [s]: the captured id
    and the length of the match. *)
Definition matchMarker (s : string) : option (string * nat) :=
  if startsWith markerOpen s then
    let (id, rest) :=
      spanChars (fun c => negb (Ascii.eqb c dquote))
        (slice (String.length markerOpen) s) in
    if truthy id && startsWith markerClose rest then
      Some (id, String.length markerOpen + String.length id
                + String.length markerClose)
    else None
  else None.

(** What a global [replace] sees in a string: the characters outside
    the matches, and the matches, from left to right. *)
Inductive Segment : Type :=
| Lit (c : ascii)
| Marker (id : string).

(** [skip] counts the characters of the current match still to pass. *)
Fixpoint scanFrom (skip : nat) (s : string) : list Segment :=
  match s with
  | EmptyString => []
  | String c s' =>
      match skip with
      | S k => scanFrom k s'
      | O =>
          match matchMarker s with
          | Some (id, len) => Marker id :: scanFrom (len - 1) s'
          | None => Lit c :: scanFrom 0 s'
          end
      end
  end.

Definition scanMarkers (s : string) : list Segment := scanFrom 0 s.

Definition renderSegment (replacer : string -> Outcome string)
  (seg : Segment) : Outcome string :=
  match seg with
  | Lit c => Returns (String c EmptyString)
  | Marker id => replacer id
  end.

(** The replacer is called on the matches from left to right; the first
    throw ends the call. *)
Fixpoint renderSegments (replacer : string -> Outcome string)
  (segs : list Segment) : Outcome string :=
  match segs with
  | [] => Returns EmptyString
  | seg :: rest =>
      first ← renderSegment replacer seg;
      others ← renderSegments replacer rest;
      Returns (first +:+ others)
  end.

(** [s.replace(regex, function(match, variableId) {...})] with the
    global marker pattern; what the function returns is put in as a text. *)
Definition replaceMarkers (replacer : string -> Outcome string) (s : string)
  : Outcome string :=
  renderSegments replacer (scanMarkers s).

Section Text.

(** The text that [replace] makes of the member of [Object.prototype]
    with the given name, when the replacer returns it: the source text of a
    native function, which the engine chooses. *)
Variable prototypeText : string -> string.

(** The replacer function of [getText].  (A member of [Object.prototype]
    read from [inlineContent.variables] has no [type]: it is no field
    variable, like a missing variable.) *)
Definition resolveVariable
  (vars : gmap string FieldVariable) (data : ItemData)
  (fieldsForCollection : FieldList) (variableId : string)
  : Outcome string :=
  match vars !! variableId with
  | Some variable =>
      match fieldIdOf variable with
      | Some fieldId =>
          fieldExists ← someField fieldsForCollection fieldId;
          if negb fieldExists then Returns EmptyString
          else match definedValue data fieldId with
               | Some (ItemString v) => Returns v
               | Some (ItemPrototype key) => Returns (prototypeText key)
               | None => Returns EmptyString
               end
      | None => Returns EmptyString
      end
  | None => Returns EmptyString
  end.

(** *** Legacy tags inside a plain text *)

Definition legacyOpen : string := "<ycode-inline-variable".
Definition legacyClose : string := "</ycode-inline-variable>".

(** The lazy [.*?] before the closing tag: the number of characters
    it takes. *)
Fixpoint lazyUntilClose (s : string) : option nat :=
  if startsWith legacyClose s then Some 0
  else match s with
       | EmptyString => None
       | String c s' =>
           if Re.isDot c then
             match lazyUntilClose s' with
             | Some n => Some (S n)
             | None => None
             end
           else None
       end.

(** A match of [<ycode-inline-variable[^>]*>.*?</ycode-inline-variable>]
    at the start of [s]: its length. *)
Definition matchLegacy (s : string) : option nat :=
  if startsWith legacyOpen s then
    let (attrs, rest) :=
      spanChars (fun c => negb (Ascii.eqb c ">"%char))
        (slice (String.length legacyOpen) s) in
    match rest with
    | String _ body =>
        match lazyUntilClose body with
        | Some n =>
            Some (String.length legacyOpen + String.length attrs + 1 + n
                  + String.length legacyClose)
        | None => None
        end
    | EmptyString => None
    end
  else None.

(** [text.replace(/<ycode-inline-variable[^>]*>.*?<\/...>/g, '')] *)
Fixpoint stripLegacyFrom (skip : nat) (s : string) : string :=
  match s with
  | EmptyString => EmptyString
  | String c s' =>
      match skip with
      | S k => stripLegacyFrom k s'
      | O =>
          match matchLegacy s with
          | Some len => stripLegacyFrom (len - 1) s'
          | None => String c (stripLegacyFrom 0 s')
          end
      end
  end.

(** *** Text resolution *)

(** [collectionId && collectionFields[collectionId]
     ? collectionFields[collectionId] : []]: the entry of the object under
    the id; without one, the member of [Object.prototype] of that name,
    which is truthy; without that, the empty array. *)
Definition fieldsFor (collectionFields : CollectionFields)
  (collectionId : option string) : FieldList :=
  match collectionId with
  | Some cid =>
      if truthy cid then
        match collectionFields !! cid with
        | Some fields => FieldArray fields
        | None =>
            if isPrototypeKey cid then FieldsPrototype cid else FieldArray []
        end
      else FieldArray []
  | None => FieldArray []
  end.

(** [getText(layer, collectionItemData, collectionId)]; the module-level
    [collectionFields] is passed as the first argument. *)
Definition getText (collectionFields : CollectionFields) (layer : Layer)
  (collectionItemData : option ItemData) (collectionId : option string)
  : Outcome TextValue :=
  let text := textOrContent layer in
  let inlineOrPlain :=
    match variables layer with
    | Some {| lvText := Some inlineContent |} =>
        let resolvedText := ivcData inlineContent in
        match collectionItemData, ivcVariables inlineContent with
        | Some data, Some vars =>
            resolved ←
              replaceMarkers
                (resolveVariable vars data
                   (fieldsFor collectionFields collectionId))
                resolvedText;
            Returns (TextString resolved)
        | _, _ =>
            resolved ←
              replaceMarkers (fun _ => Returns EmptyString) resolvedText;
            Returns (TextString resolved)
        end
    | _ =>
        match text with
        | TextString s =>
            if includes legacyOpen s
            then Returns (TextString (stripLegacyFrom 0 s))
            else Returns text
        | _ => Returns text
        end
    end in
  match text with
  | TextField v =>
      match fieldIdOf v with
      | Some fieldId =>
          match collectionItemData with
          | Some data =>
              match definedValue data fieldId with
              | Some (ItemString value) => Returns (TextString value)
              | Some (ItemPrototype key) => Returns (TextPrototype key)
              | None => Returns (TextString EmptyString)
              end
          | None => Returns (TextString EmptyString)
          end
      | None => inlineOrPlain
      end
  | _ => inlineOrPlain
  end.

End Text.

(** *** The tag of a layer *)

(** [layer.settings], by the field that [getLayerHtmlTag] reads *)
Record LayerSettings : Type := { settingsTag : option string }.

(** [getLayerHtmlTag(layer)], on [layer.settings] and [layer.name] *)
Definition getLayerHtmlTag (settings : option LayerSettings)
  (name : option string) : string :=
  let fromName :=
    match name with
    | Some n => if truthy n then n else "div"
    | None => "div"
    end in
  match settings with
  | Some {| settingsTag := Some t |} => if truthy t then t else fromName
  | _ => fromName
  end.

(** *** The layer tree *)

(** A layer with its [id], the fields that [getText] reads, and its
    [children], which may be missing. *)
#[warnings="-register-all"] Inductive LayerNode : Type :=
| MkLayerNode (id : string) (fields : Layer)
    (children : option (list LayerNode)).

Definition layerId (node : LayerNode) : string :=
  match node with MkLayerNode id _ _ => id end.

Definition layerChildren (node : LayerNode) : option (list LayerNode) :=
  match node with MkLayerNode _ _ children => children end.

(** One round of the [for (const layer of layers)] loop of [findLayer]:
    the layer that the round returns, if it returns. *)
Fixpoint findLayerAt (id : string) (layer : LayerNode) : option LayerNode :=
  match layer with
  | MkLayerNode lid _ children =>
      if String.eqb lid id then Some layer
      else
        match children with
        | Some cs =>
            (fix findLayer (layers : list LayerNode) : option LayerNode :=
               match layers with
               | [] => None
               | l :: rest =>
                   match findLayerAt id l with
                   | Some found => Some found
                   | None => findLayer rest
                   end
               end) cs
        | None => None
        end
  end.

Fixpoint findLayer (layers : list LayerNode) (id : string)
  : option LayerNode :=
  match layers with
  | [] => None
  | layer :: rest =>
      match findLayerAt id layer with
      | Some found => Some found
      | None => findLayer rest id
      end
  end.

End Renderer.

(** * Vocabulary of the properties *)

Import JsString Mapper Renderer.

(** Zero or more rounds of a relation. *)
Inductive rounds (R : string -> string -> Prop) : string -> string -> Prop :=
| rounds_none s : rounds R s s
| rounds_more s s1 s2 : R s s1 -> rounds R s1 s2 -> rounds R s s2.

(** [matches r s s']: the pattern [r] matches a prefix of [s] and leaves
    [s']. *)
Fixpoint matches (r : Re.t) (s s' : string) : Prop :=
  match r with
  | Re.Eps => s' = s
  | Re.Char p => exists c, s = String c s' /\ p c = true
  | Re.Seq r1 r2 => exists m, matches r1 s m /\ matches r2 m s'
  | Re.Alt r1 r2 => matches r1 s s' \/ matches r2 s s'
  | Re.Star r' => rounds (matches r') s s'
  | Re.NotAhead r' => s' = s /\ ~ exists m, matches r' s m
  | Re.End => s' = s /\ s = EmptyString
  end.

(** *** The callbacks for a regular expression

    What the callbacks of the mapper answer when the pattern of the
    property is a regular expression: then no call throws.  The lemmas of
    the section on calls that return relate them to the callbacks of the
    sources. *)

Definition keeps (property : string) (r : Re.t) (cls : string) : bool :=
  if negb (Re.test r cls) then true
  else if textBelongsElsewhere property cls then true
  else if bgBelongsElsewhere property cls then true
  else false.

Definition includedFor (className property : string) (r : Re.t) : bool :=
  if negb (Re.test r className) then false
  else if textBelongsElsewhere property className then false
  else if bgBelongsElsewhere property className then false
  else true.

Definition stateClassOf (property : string) (r : Re.t)
  (bpPrefix statePrefix : string) (cls : string) : bool :=
  let fullPrefix := bpPrefix +:+ statePrefix in
  let withPrefix :=
    if truthy bpPrefix then startsWith fullPrefix cls
    else startsWith statePrefix cls in
  if negb withPrefix then false
  else includedFor (slice (String.length fullPrefix) cls) property r.

Definition neutralClassOf (property : string) (r : Re.t)
  (bpPrefix : string) (cls : string) : bool :=
  if truthy bpPrefix then
    if negb (startsWith bpPrefix cls) then false
    else
      let afterBp := slice (String.length bpPrefix) cls in
      if Re.test reStatePrefix afterBp then false
      else includedFor afterBp property r
  else
    if Re.test reDesktopExcluded cls then false
    else includedFor cls property r.

Definition stepOf (classes : list string) (property : string)
  (r : Re.t) (currentUIState : UIState)
  (last : Inherited) (breakpoint : Breakpoint) : Inherited :=
  let bpPrefix := getBreakpointPrefix breakpoint in
  let statePrefix := getUIStatePrefix currentUIState in
  let fullPrefix := bpPrefix +:+ statePrefix in
  let afterState :=
    if negb (UIState_eqb currentUIState neutral) then
      let stateClass :=
        find (stateClassOf property r bpPrefix statePrefix) classes in
      match stateClass with
      | Some cls =>
          if truthy cls then
            {| value := Some (slice (String.length fullPrefix) cls);
               source := Some breakpoint |}
          else last
      | None => last
      end
    else last in
  let neutralClass :=
    find (neutralClassOf property r bpPrefix) classes in
  match neutralClass with
  | Some cls =>
      if truthy cls then
        let baseClass :=
          if truthy bpPrefix then slice (String.length bpPrefix) cls
          else cls in
        if UIState_eqb currentUIState neutral then
          {| value := Some baseClass; source := Some breakpoint |}
        else if negb (truthyOpt (value afterState)) then
          {| value := Some baseClass; source := Some breakpoint |}
        else afterState
      else afterState
  | None => afterState
  end.

Definition keptForBreakpoint (property : string) (r : Re.t)
  (breakpoint : Breakpoint) (uiState : UIState) (cls : string) : bool :=
  let parsed := parseFullClass cls in
  if negb (Breakpoint_eqb (fcBreakpoint parsed) breakpoint)
     || negb (UIState_eqb (fcUIState parsed) uiState) then true
  else negb (includedFor (fcBaseClass parsed) property r).

(** What [removeConflictingClasses] keeps when it returns: every class
    for a name without a pattern, and what the callback keeps for a name of
    the registry. *)
Definition survives (property cls : string) : bool :=
  match getConflictingClassPattern property with
  | Some (RegExp r) => keeps property r cls
  | _ => true
  end.

(** The breakpoint words that the parser and the renderer know in front
    of a colon. *)
Definition breakpointWords : list string := ["max-lg"; "max-md"; "lg"; "md"].

(** A class that starts with [hover:], [focus:], [active:], [disabled:] or
    [visited:]. *)
Definition hasStatePrefix (cls : string) : bool :=
  existsb (fun w => startsWith (w +:+ ":") cls) stateWords.

(** A class that starts with a breakpoint word, a colon, and one of the
    five state prefixes. *)
Definition hasBreakpointStatePrefix (cls : string) : bool :=
  existsb
    (fun b => existsb (fun w => startsWith (b +:+ ":" +:+ w +:+ ":") cls)
                stateWords)
    breakpointWords.

(** A class with one of the four breakpoint prefixes that the parser
    strips. *)
Definition hasBreakpointPrefix (cls : string) : bool :=
  existsb (fun b => startsWith (b +:+ ":") cls) breakpointWords.

(** A class that carries an interaction-state prefix, bare or after a
    breakpoint prefix. *)
Definition carriesStatePrefix (cls : string) : bool :=
  hasStatePrefix cls || hasBreakpointStatePrefix cls.

(** The (category, property) pairs that a rule of [classesToDesign]
    assigns. *)
Definition parsedPairs : list (string * string) :=
  [ ("layout", "display"); ("layout", "flexDirection");
    ("layout", "justifyContent"); ("layout", "alignItems"); ("layout", "gap");
    ("layout", "gridTemplateColumns"); ("layout", "gridTemplateRows");
    ("typography", "color"); ("typography", "fontSize");
    ("typography", "fontWeight"); ("typography", "fontFamily");
    ("typography", "textAlign"); ("typography", "textTransform");
    ("typography", "textDecoration"); ("typography", "lineHeight");
    ("typography", "letterSpacing");
    ("spacing", "padding"); ("spacing", "paddingTop");
    ("spacing", "paddingRight"); ("spacing", "paddingBottom");
    ("spacing", "paddingLeft"); ("spacing", "margin"); ("spacing", "marginTop");
    ("spacing", "marginRight"); ("spacing", "marginBottom");
    ("spacing", "marginLeft");
    ("sizing", "width"); ("sizing", "height"); ("sizing", "minWidth");
    ("sizing", "minHeight"); ("sizing", "maxWidth"); ("sizing", "maxHeight");
    ("borders", "borderRadius"); ("borders", "borderTopLeftRadius");
    ("borders", "borderTopRightRadius"); ("borders", "borderBottomRightRadius");
    ("borders", "borderBottomLeftRadius"); ("borders", "borderWidth");
    ("borders", "borderStyle"); ("borders", "borderColor");
    ("backgrounds", "backgroundColor");
    ("effects", "opacity"); ("effects", "boxShadow");
    ("positioning", "position"); ("positioning", "top");
    ("positioning", "right"); ("positioning", "bottom");
    ("positioning", "left"); ("positioning", "zIndex") ].

(** Membership in [parsedPairs], as a test. *)
Definition isParsedPair (category property : string) : bool :=
  existsb (fun e => String.eqb category (fst e) && String.eqb property (snd e))
    parsedPairs.


(** The pairs that [propertyToClass] serves and the parser never assigns. *)
Definition unparsedPairs : list (string * string) :=
  [ ("layout", "flexWrap"); ("layout", "alignContent");
    ("layout", "columnGap"); ("layout", "rowGap");
    ("borders", "borderTopWidth"); ("borders", "borderRightWidth");
    ("borders", "borderBottomWidth"); ("borders", "borderLeftWidth");
    ("backgrounds", "backgroundImage"); ("backgrounds", "backgroundSize");
    ("backgrounds", "backgroundPosition"); ("backgrounds", "backgroundRepeat") ].

(** A string with a space in it. *)
Definition hasSpace (s : string) : bool :=
  existsChar (fun c => Ascii.eqb c " "%char) s.

(** [layer.text] is a field variable with a field id: the case that
    [getText] settles before it looks at [variables.text]. *)
Definition isFieldReference (t : TextValue) : bool :=
  match t with
  | TextField v =>
      match fieldIdOf v with Some _ => true | None => false end
  | _ => false
  end.


(** The text that stands for the value of a field in a record: the value,
    nothing for [undefined] and [null], and the text of the member of
    [Object.prototype] when the record answers with one. *)
Definition itemText (prototypeText : string -> string)
  (value : option ItemValue) : string :=
  match value with
  | Some (ItemString v) => v
  | Some (ItemPrototype key) => prototypeText key
  | None => EmptyString
  end.

(** The replacer for a field list that is an array: it never throws. *)
Definition resolved (prototypeText : string -> string)
  (vars : gmap string FieldVariable) (data : ItemData)
  (fields : list CollectionField) (variableId : string) : string :=
  match vars !! variableId with
  | Some variable =>
      match fieldIdOf variable with
      | Some fieldId =>
          if existsb (fun f => String.eqb (cfId f) fieldId) fields
          then itemText prototypeText (definedValue data fieldId)
          else EmptyString
      | None => EmptyString
      end
  | None => EmptyString
  end.

(** What [getText] puts in the place of a marker of the inline template,
    for a field list that is an array. *)
Definition placeholderValue (prototypeText : string -> string)
  (vars : gmap string FieldVariable)
  (collectionItemData : option ItemData)
  (fields : list CollectionField) : string -> string :=
  match collectionItemData with
  | Some data => resolved prototypeText vars data fields
  | None => fun _ => EmptyString
  end.

(** A [replace] with a replacer that never throws. *)
Fixpoint rendered (replacer : string -> string) (segs : list Segment)
  : string :=
  match segs with
  | [] => EmptyString
  | Lit c :: rest => String c (rendered replacer rest)
  | Marker id :: rest => replacer id +:+ rendered replacer rest
  end.

(** An id that the marker pattern accepts: not empty, without a quote. *)
Definition validId (id : string) : bool :=
  truthy id && negb (existsChar (fun c => Ascii.eqb c Renderer.dquote) id).

(** Every character of [s] satisfies [q]. *)
Fixpoint forallChar (q : ascii -> bool) (s : string) : bool :=
  match s with
  | EmptyString => true
  | String c s' => q c && forallChar q s'
  end.

(** Every character class that the pattern can consume lies within [q];
    a lookahead consumes nothing. *)
Fixpoint usesOnly (q : ascii -> bool) (r : Re.t) : Prop :=
  match r with
  | Re.Eps | Re.End | Re.NotAhead _ => True
  | Re.Char p => forall c, p c = true -> q c = true
  | Re.Seq r1 r2 | Re.Alt r1 r2 => usesOnly q r1 /\ usesOnly q r2
  | Re.Star r' => usesOnly q r'
  end.

(** Every way through the pattern ends on the anchor [$]. *)
Fixpoint endsAtEnd (r : Re.t) : Prop :=
  match r with
  | Re.End => True
  | Re.Seq _ r2 => endsAtEnd r2
  | Re.Alt r1 r2 => endsAtEnd r1 /\ endsAtEnd r2
  | _ => False
  end.

(** [startsWith], by recursion on the prefix: it computes on a string of
    which only the first characters are known. *)
Fixpoint prefixOf (p s : string) : bool :=
  match p with
  | EmptyString => true
  | String a p' =>
      match s with
      | String b s' => Ascii.eqb a b && prefixOf p' s'
      | EmptyString => false
      end
  end.

(** The layers of a tree in document order: a layer, then the layers
    below it, child after child. *)
Fixpoint layersOf (layer : LayerNode) : list LayerNode :=
  layer ::
  match layerChildren layer with
  | Some children => flat_map layersOf children
  | None => []
  end.

(** What [getInheritedValue] may answer from the breakpoints [from]:
    nothing, or a value with its source among [from], where the value
    matches the pattern of the property and is a class of the list with the
    prefix of the source, or that prefix and the prefix of the state, taken
    off. *)
Definition inheritedFrom (classes : list string) (pattern : Re.t)
  (state : UIState) (from : list Breakpoint) (result : Inherited) : Prop :=
  match value result, source result with
  | None, None => True
  | Some v, Some breakpoint =>
      In breakpoint from
      /\ Re.test pattern v = true
      /\ (In (getBreakpointPrefix breakpoint +:+ v) classes
          \/ In (getBreakpointPrefix breakpoint +:+ getUIStatePrefix state
                 +:+ v) classes)
  | _, _ => False
  end.

(** [design[category]?.[property]], for designs with values of any
    kind. *)
Definition propertyOf {V : Type} (design : gmap string (gmap string V))
  (category property : string) : option V :=
  design !! category ≫= (fun props => props !! property).

(** The values that [formatMeasurementClass] puts between brackets when
    they are no named value: those that end with [px], the plain numbers,
    and those that start with a digit. *)
Definition bracketedMeasurement (value : string) : bool :=
  endsWith "px" value || Re.test rePlainNumber value || Re.test Re.digit value.

(** What [formatMeasurementClass] writes between the brackets: a plain
    number gets the unit [px]. *)
Definition measured (value : string) : string :=
  if endsWith "px" value then value
  else if Re.test rePlainNumber value then value +:+ "px"
  else value.

(** The properties that [propertyToClass] writes with
    [formatMeasurementClass] and that [classesToDesign] reads from the
    brackets of a class of their own prefix: category, property and
    prefix. *)
Definition measuredFamilies : list (string * string * string) :=
  [ ("layout", "gap", "gap");
    ("typography", "letterSpacing", "tracking");
    ("spacing", "padding", "p"); ("spacing", "paddingTop", "pt");
    ("spacing", "paddingRight", "pr"); ("spacing", "paddingBottom", "pb");
    ("spacing", "paddingLeft", "pl");
    ("spacing", "margin", "m"); ("spacing", "marginTop", "mt");
    ("spacing", "marginRight", "mr"); ("spacing", "marginBottom", "mb");
    ("spacing", "marginLeft", "ml");
    ("sizing", "width", "w"); ("sizing", "height", "h");
    ("sizing", "minWidth", "min-w"); ("sizing", "minHeight", "min-h");
    ("sizing", "maxWidth", "max-w"); ("sizing", "maxHeight", "max-h");
    ("borders", "borderRadius", "rounded");
    ("borders", "borderTopLeftRadius", "rounded-tl");
    ("borders", "borderTopRightRadius", "rounded-tr");
    ("borders", "borderBottomRightRadius", "rounded-br");
    ("borders", "borderBottomLeftRadius", "rounded-bl");
    ("positioning", "top", "top"); ("positioning", "right", "right");
    ("positioning", "bottom", "bottom"); ("positioning", "left", "left") ].

(** The properties that [classesToDesign] reads from the brackets of a
    class of their own prefix, whatever stands between the brackets: those of
    [measuredFamilies] and six more. *)
Definition bracketFamilies : list (string * string * string) :=
  measuredFamilies
  ++ [ ("layout", "gridTemplateColumns", "grid-cols");
       ("layout", "gridTemplateRows", "grid-rows");
       ("typography", "lineHeight", "leading");
       ("effects", "opacity", "opacity");
       ("effects", "boxShadow", "shadow");
       ("positioning", "zIndex", "z") ].

(** *** Values that come back through [propertyToClass] and
    [classesToDesign] *)










(** Every match of the pattern consumes at least one character. *)
Fixpoint consuming (r : Re.t) : Prop :=
  match r with
  | Re.Char _ => True
  | Re.Seq r1 r2 => consuming r1 \/ consuming r2
  | Re.Alt r1 r2 => consuming r1 /\ consuming r2
  | _ => False
  end.

(** The characters of a number: a digit, the minus sign and the dot. *)
Definition isNumberChar (c : ascii) : bool :=
  Re.isDigit c || Ascii.eqb c "-"%char || Ascii.eqb c "."%char.

(** The characters of a colour in the hexadecimal notation. *)
Definition isHexColorChar (c : ascii) : bool :=
  Re.isHex c || Ascii.eqb c "#"%char.

(** A legacy tag as the pattern of [getText] for plain text reads it:
    the opening tag with its attributes, a body, the closing tag. *)
Definition legacyTag (attrs body : string) : string :=
  legacyOpen +:+ attrs +:+ ">" +:+ body +:+ legacyClose.

(** * Properties *)

(** ** The examples of the sources' own comments *)

Example formatMeasurementClass_documented :
  formatMeasurementClass "100" "w" [] = "w-[100px]"
  /\ formatMeasurementClass "100px" "m" [] = "m-[100px]"
  /\ formatMeasurementClass "10rem" "text" [] = "text-[10rem]"
  /\ formatMeasurementClass "auto" "w" ["auto"] = "w-auto".
Proof. repeat split; vm_compute; reflexivity. Qed.

Example parseFullClass_documented :
  parseFullClass "max-md:hover:text-red-500"
  = {| fcBreakpoint := mobile; fcUIState := hover;
       fcBaseClass := "text-red-500" |}.
Proof. reflexivity. Qed.

Example parseBreakpointClass_documented :
  parseBreakpointClass "max-lg:w-[100px]"
  = {| bcBreakpoint := tablet; bcBaseClass := "w-[100px]" |}
  /\ parseBreakpointClass "max-md:w-[100px]"
     = {| bcBreakpoint := mobile; bcBaseClass := "w-[100px]" |}
  /\ parseBreakpointClass "w-[100px]"
     = {| bcBreakpoint := desktop; bcBaseClass := "w-[100px]" |}.
Proof. repeat split; reflexivity. Qed.

Example isColorValue_samples :
  map isColorValue
    ["#fff"; "FF0000"; "#ff000080"; "rgb(0, 0, 0)"; "RGBA (0,0,0,1)";
     "hsl(0,0%,0%)"; "Transparent"; "10px"; "1.5rem"; "12"; "large"; "#ff"]
  = [true; true; true; true; true; true; true; false; false; false; false;
     false].
Proof. vm_compute. reflexivity. Qed.

Example isImageValue_samples :
  map isImageValue
    ["url(/a.png)"; "https://example.com/a.png"; "data:image/png;base64,AA";
     "linear-gradient(red, blue)"; "#ff0000"; "red"; "cover"]
  = [true; true; true; true; false; false; false].
Proof. vm_compute. reflexivity. Qed.

Example extractArbitraryValue_samples :
  map extractArbitraryValue ["w-[100px]"; "text-[#0000FF]"; "flex"; "w-[]"]
  = [Some "100px"; Some "#0000FF"; None; None].
Proof. vm_compute. reflexivity. Qed.

Example getAffectedProperties_samples :
  map getAffectedProperties
    ["flex"; "text-center"; "text-lg"; "text-red-500"; "text-[#fff]";
     "text-[12px]"; "bg-[url(/a.png)]"; "bg-[#fff]"; "bg-cover"; "border";
     "border-t-2"; "w-1/2"; "lg:w-[100px]"]
  = [ ["display"]; ["textAlign"]; ["fontSize"]; ["fontSize"; "color"];
      ["color"]; ["fontSize"]; ["backgroundImage"]; ["backgroundColor"];
      ["backgroundSize"]; ["borderWidth"]; ["borderTopWidth"]; ["width"];
      [] ].
Proof. vm_compute. reflexivity. Qed.

Example filterClassesByBreakpoint_samples :
  filterClassesByBreakpoint "p-4 md:p-6 lg:p-8" "mobile" = "p-4"
  /\ filterClassesByBreakpoint "p-4 md:p-6 lg:p-8" "tablet" = "p-4 md:p-6"
  /\ filterClassesByBreakpoint "p-4 md:p-6 lg:p-8" "desktop"
     = "p-4 md:p-6 lg:p-8".
Proof. repeat split; vm_compute; reflexivity. Qed.

(** ** Strings *)

Lemma append_cons (c : ascii) (p s : string) :
  String c p +:+ s = String c (p +:+ s).
Proof. reflexivity. Qed.

Lemma append_nil (s : string) : EmptyString +:+ s = s.
Proof. reflexivity. Qed.

Lemma startsWith_app (p s : string) : startsWith p (p +:+ s) = true.
Proof.
  unfold startsWith. induction p as [|c p IH].
  - destruct s; reflexivity.
  - rewrite append_cons. simpl. rewrite IH.
    destruct (ascii_dec c c); [reflexivity | congruence].
Qed.

Lemma startsWith_split (p s : string) :
  startsWith p s = true -> s = p +:+ slice (String.length p) s.
Proof.
  unfold startsWith. revert s. induction p as [|c p IH]; intros s H; simpl.
  - reflexivity.
  - destruct s as [|c' s]; simpl in H; [discriminate|].
    destruct (ascii_dec c c') as [->|]; [|discriminate].
    rewrite append_cons. f_equal. apply IH, H.
Qed.

Lemma slice_app (p s : string) : slice (String.length p) (p +:+ s) = s.
Proof.
  induction p as [|c p IH]; [reflexivity|].
  rewrite append_cons. simpl. exact IH.
Qed.

Lemma append_nil_r (s : string) : s +:+ EmptyString = s.
Proof.
  induction s as [|c s IH]; [reflexivity|]. rewrite append_cons. now rewrite IH.
Qed.

Lemma append_assoc (a b c : string) : (a +:+ b) +:+ c = a +:+ (b +:+ c).
Proof.
  induction a as [|x a IH]; [reflexivity|].
  rewrite !append_cons. now rewrite IH.
Qed.

Lemma length_append (a b : string) :
  String.length (a +:+ b) = String.length a + String.length b.
Proof.
  induction a as [|x a IH]; [reflexivity|].
  rewrite append_cons. simpl. now rewrite IH.
Qed.

Lemma prefix_nil (s : string) : String.prefix EmptyString s = true.
Proof. now destruct s. Qed.


Lemma startsWith_append (a b s : string) :
  startsWith (a +:+ b) s
  = startsWith a s && startsWith b (slice (String.length a) s).
Proof.
  revert s. induction a as [|c a IH]; intros s.
  - rewrite append_nil. unfold startsWith at 2. simpl. now destruct s.
  - rewrite append_cons. unfold startsWith in *.
    destruct s as [|c' s]; simpl; [reflexivity|].
    destruct (ascii_dec c c'); [apply IH | reflexivity].
Qed.

Lemma startsWith_longer (a b s : string) :
  startsWith a s = false -> startsWith (a +:+ b) s = false.
Proof. intros H. now rewrite startsWith_append, H. Qed.

Lemma slice_slice (n m : nat) (s : string) :
  slice n (slice m s) = slice (m + n) s.
Proof.
  revert s. induction m as [|m IH]; intros s; simpl; [reflexivity|].
  destruct s as [|c s]; [now destruct n | apply IH].
Qed.

Lemma filter_idempotent {A} (f : A -> bool) (l : list A) :
  List.filter f (List.filter f l) = List.filter f l.
Proof.
  induction l as [|a l IH]; simpl; [reflexivity|].
  destruct (f a) eqn:E; simpl; [rewrite E, IH; reflexivity | exact IH].
Qed.

Lemma andb_existsb {A} (x : bool) (f : A -> bool) (l : list A) :
  x && existsb f l = existsb (fun a => x && f a) l.
Proof.
  induction l as [|a l IH]; simpl.
  - apply andb_false_r.
  - rewrite <- IH. now destruct x.
Qed.

Lemma existsb_ext_all {A} (f g : A -> bool) (l : list A) :
  (forall a, f a = g a) -> existsb f l = existsb g l.
Proof. intros H. induction l as [|a l IH]; simpl; [|rewrite H, IH]; reflexivity. Qed.

(** ** The matcher against the meaning of the patterns *)

Lemma matches_suffix (r : Re.t) :
  forall s s', matches r s s' -> exists p, s = p +:+ s'.
Proof.
  induction r as [|p|r1 IH1 r2 IH2|r1 IH1 r2 IH2|r IH|r IH|]; intros s s' H;
    simpl in H.
  - subst. now exists EmptyString.
  - destruct H as (c & -> & _). now exists (String c EmptyString).
  - destruct H as (m & H1 & H2).
    apply IH1 in H1 as [p1 ->]. apply IH2 in H2 as [p2 ->].
    exists (p1 +:+ p2). now rewrite append_assoc.
  - destruct H as [H | H]; [now apply IH1 | now apply IH2].
  - induction H as [s | s s1 s2 H1 _ IHr].
    + now exists EmptyString.
    + apply IH in H1 as [p1 ->]. destruct IHr as [p2 ->].
      exists (p1 +:+ p2). now rewrite append_assoc.
  - destruct H as [-> _]. now exists EmptyString.
  - destruct H as [-> _]. now exists EmptyString.
Qed.

Lemma suffix_same_length (p s : string) :
  String.length (p +:+ s) <= String.length s -> p = EmptyString.
Proof.
  rewrite length_append. destruct p; [reflexivity | simpl; lia].
Qed.

(** [Re.iter] with enough rounds is the closure of its step. *)
Lemma iter_rounds (step : string -> list string)
  (R : string -> string -> Prop) :
  (forall s s', In s' (step s) <-> R s s') ->
  (forall s s', R s s' -> exists p, s = p +:+ s') ->
  forall n s s',
    String.length s <= n ->
    (In s' (Re.iter step n s) <-> rounds R s s').
Proof.
  intros Hstep Hsuffix n. induction n as [|n IH]; intros s s' Hn.
  - destruct s; [|simpl in Hn; lia]. simpl. split.
    + intros [<- | []]. constructor.
    + intros H. left. remember EmptyString as e eqn:He.
      induction H as [s | s s1 s2 H1 _ IHr]; [reflexivity|].
      subst s. destruct (Hsuffix _ _ H1) as [p Hp].
      destruct p, s1; try discriminate. now apply IHr.
  - cbn [Re.iter]. split.
    + intros [<- | H]; [constructor|].
      apply in_flat_map in H as (s1 & Hin & H).
      apply filter_In in Hin as [Hin Hlt]. apply Nat.ltb_lt in Hlt.
      apply rounds_more with s1; [now apply Hstep|].
      apply IH; [lia | exact H].
    + intros H. induction H as [s | s s1 s2 H1 H2 IHr]; [now left|].
      destruct (Hsuffix _ _ H1) as [p Hp].
      destruct (Nat.lt_ge_cases (String.length s1) (String.length s))
        as [Hlt | Hge].
      * right. apply in_flat_map. exists s1. split.
        -- apply filter_In. split; [now apply Hstep | now apply Nat.ltb_lt].
        -- apply IH; [lia | exact H2].
      * assert (p = EmptyString) as ->
          by (apply (suffix_same_length p s1); now rewrite <- Hp).
        rewrite append_nil in Hp. subst s1. now apply IHr.
Qed.

(** The matcher lists exactly the rests that the pattern allows. *)
Theorem run_matches (r : Re.t) :
  forall s s', In s' (Re.run r s) <-> matches r s s'.
Proof.
  induction r as [|p|r1 IH1 r2 IH2|r1 IH1 r2 IH2|r IH|r IH|]; intros s s'.
  - simpl. split; [intros [<- | []]; reflexivity | intros ->; now left].
  - simpl. destruct s as [|c s].
    + split; [intros [] | intros (c & H & _); discriminate].
    + destruct (p c) eqn:E; split.
      * intros [<- | []]. now exists c.
      * intros (c' & H & _). injection H as _ <-. now left.
      * intros [].
      * intros (c' & H & Hp). injection H as <- _. congruence.
  - simpl. rewrite in_flat_map. split.
    + intros (m & H1 & H2). exists m. split; [now apply IH1 | now apply IH2].
    + intros (m & H1 & H2). exists m. split; [now apply IH1 | now apply IH2].
  - simpl. rewrite in_app_iff, IH1, IH2. reflexivity.
  - cbn [Re.run matches].
    apply iter_rounds; [exact IH | apply matches_suffix | lia].
  - simpl. destruct (Re.run r s) as [|m l] eqn:E.
    + split.
      * intros [<- | []]. split; [reflexivity|].
        intros (m & Hm). apply IH in Hm. now rewrite E in Hm.
      * intros [-> _]. now left.
    + split; [intros []|].
      intros [_ Hnot]. apply Hnot. exists m. apply IH. rewrite E. now left.
  - simpl. destruct s.
    + split; [intros [<- | []]; now split | intros [-> _]; now left].
    + split; [intros [] | intros [_ H]; discriminate].
Qed.

(** A test succeeds exactly when the pattern matches a prefix. *)
Corollary test_matches (r : Re.t) (s : string) :
  Re.test r s = true <-> exists s', matches r s s'.
Proof.
  unfold Re.test. destruct (Re.run r s) as [|m l] eqn:E.
  - split; [discriminate|]. intros (s' & H).
    apply run_matches in H. now rewrite E in H.
  - split; [|reflexivity]. intros _. exists m.
    apply run_matches. rewrite E. now left.
Qed.

(** ** Literal prefixes of a pattern *)

Lemma test_seq (r1 r2 : Re.t) (s : string) :
  Re.test (Re.Seq r1 r2) s = existsb (Re.test r2) (Re.run r1 s).
Proof.
  unfold Re.test. simpl. induction (Re.run r1 s) as [|x l IH]; simpl.
  - reflexivity.
  - destruct (Re.run r2 x); simpl; [exact IH | reflexivity].
Qed.

Lemma test_alt_seq (a b r : Re.t) (s : string) :
  Re.test (Re.Seq (Re.Alt a b) r) s
  = Re.test (Re.Seq a r) s || Re.test (Re.Seq b r) s.
Proof. rewrite !test_seq. simpl. apply existsb_app. Qed.

Lemma run_chr (c : ascii) (s : string) :
  Re.run (Re.chr c) s
  = if startsWith (String c EmptyString) s then [slice 1 s] else [].
Proof.
  unfold startsWith. destruct s as [|c' s]; simpl; [reflexivity|].
  destruct (ascii_dec c c') as [->|Hne].
  - rewrite Ascii.eqb_refl. now destruct s.
  - destruct (Ascii.eqb_spec c c'); [contradiction | reflexivity].
Qed.

Lemma test_lit_seq (p : string) (r : Re.t) (s : string) :
  Re.test (Re.Seq (Re.lit p) r) s
  = startsWith p s && Re.test r (slice (String.length p) s).
Proof.
  revert s. induction p as [|c p IH]; intros s.
  - rewrite test_seq. simpl. unfold startsWith.
    destruct s; simpl; now rewrite orb_false_r.
  - rewrite test_seq. unfold startsWith. destruct s as [|c' s]; [reflexivity|].
    simpl. destruct (Ascii.eqb_spec c c') as [->|Hne].
    + destruct (ascii_dec c' c'); [|congruence].
      simpl. rewrite app_nil_r, <- test_seq. apply IH.
    + destruct (ascii_dec c c'); [contradiction | reflexivity].
Qed.

Lemma test_words_seq (ws : list string) (r : Re.t) (s : string) :
  Re.test (Re.Seq (Re.words ws) r) s
  = existsb (fun w => startsWith w s && Re.test r (slice (String.length w) s))
      ws.
Proof.
  unfold Re.words. induction ws as [|w ws IH].
  - reflexivity.
  - destruct ws as [|w' ws].
    + simpl. rewrite orb_false_r. apply test_lit_seq.
    + change (Re.alts (map Re.lit (w :: w' :: ws)))
        with (Re.Alt (Re.lit w) (Re.alts (map Re.lit (w' :: ws)))).
      rewrite test_alt_seq, IH, test_lit_seq. reflexivity.
Qed.

Lemma test_chr (c : ascii) (s : string) :
  Re.test (Re.chr c) s = startsWith (String c EmptyString) s.
Proof.
  unfold Re.test. rewrite run_chr.
  now destruct (startsWith (String c EmptyString) s).
Qed.

Lemma test_chr_seq (c : ascii) (r : Re.t) (s : string) :
  Re.test (Re.Seq (Re.chr c) r) s
  = startsWith (String c EmptyString) s && Re.test r (slice 1 s).
Proof.
  rewrite test_seq, run_chr.
  destruct (startsWith (String c EmptyString) s); simpl;
    [apply orb_false_r | reflexivity].
Qed.

Lemma test_reStatePrefix (s : string) :
  Re.test reStatePrefix s = hasStatePrefix s.
Proof.
  unfold reStatePrefix, hasStatePrefix. rewrite test_words_seq.
  apply existsb_ext_all. intros w.
  now rewrite test_chr, startsWith_append.
Qed.

Lemma test_reBreakpointStatePrefix (s : string) :
  Re.test reBreakpointStatePrefix s = hasBreakpointStatePrefix s.
Proof.
  unfold reBreakpointStatePrefix, hasBreakpointStatePrefix.
  change (Re.seqs [Re.words ["max-lg"; "max-md"; "lg"; "md"]; Re.chr ":";
                   Re.words stateWords; Re.chr ":"])
    with (Re.Seq (Re.words breakpointWords) (Re.Seq (Re.chr ":") reStatePrefix)).
  rewrite test_words_seq. apply existsb_ext_all. intros b.
  rewrite test_chr_seq, test_reStatePrefix. unfold hasStatePrefix.
  rewrite !andb_existsb. apply existsb_ext_all. intros w.
  rewrite (startsWith_append b), (startsWith_append ":").
  reflexivity.
Qed.

(** ** Calls that return *)

Lemma filterM_returns {A} (f : A -> Outcome bool) (g : A -> bool)
  (l : list A) :
  (forall x, In x l -> f x = Returns (g x)) ->
  filterM f l = Returns (List.filter g l).
Proof.
  induction l as [|x l IH]; intros H; [reflexivity|].
  cbn [filterM List.filter]. rewrite (H x) by now left.
  rewrite IH by (intros y Hy; apply H; now right).
  reflexivity.
Qed.

Lemma findM_returns {A} (f : A -> Outcome bool) (g : A -> bool)
  (l : list A) :
  (forall x, In x l -> f x = Returns (g x)) ->
  findM f l = Returns (find g l).
Proof.
  induction l as [|x l IH]; intros H; [reflexivity|].
  cbn [findM find List.find]. rewrite (H x) by now left.
  cbn. destruct (g x); [reflexivity|].
  apply IH. intros y Hy. apply H. now right.
Qed.

Lemma foldM_returns {A B} (f : A -> B -> Outcome A) (g : A -> B -> A)
  (l : list B) :
  (forall a x, In x l -> f a x = Returns (g a x)) ->
  forall a, foldM f l a = Returns (fold_left g l a).
Proof.
  induction l as [|x l IH]; intros H a; [reflexivity|].
  cbn [foldM fold_left]. rewrite (H a x) by now left.
  cbn. apply IH. intros b y Hy. apply H. now right.
Qed.

Lemma keepsClass_regexp (property : string) (r : Re.t) (cls : string) :
  keepsClass property (RegExp r) cls = Returns (keeps property r cls).
Proof.
  unfold keepsClass, keeps. cbn.
  now destruct (negb (Re.test r cls)), (textBelongsElsewhere property cls),
    (bgBelongsElsewhere property cls).
Qed.

Lemma shouldInclude_regexp (className property : string) (r : Re.t) :
  shouldIncludeClassForProperty className property (RegExp r)
  = Returns (includedFor className property r).
Proof.
  unfold shouldIncludeClassForProperty, includedFor. cbn.
  now destruct (negb (Re.test r className)),
    (textBelongsElsewhere property className),
    (bgBelongsElsewhere property className).
Qed.

Lemma isStateClass_regexp (property : string) (r : Re.t)
  (bpPrefix statePrefix cls : string) :
  isStateClass property (RegExp r) bpPrefix statePrefix cls
  = Returns (stateClassOf property r bpPrefix statePrefix cls).
Proof.
  unfold isStateClass, stateClassOf. cbv zeta.
  destruct (negb _); [reflexivity | apply shouldInclude_regexp].
Qed.

Lemma isNeutralClass_regexp (property : string) (r : Re.t)
  (bpPrefix cls : string) :
  isNeutralClass property (RegExp r) bpPrefix cls
  = Returns (neutralClassOf property r bpPrefix cls).
Proof.
  unfold isNeutralClass, neutralClassOf. cbv zeta.
  destruct (truthy bpPrefix).
  - destruct (negb _); [reflexivity|].
    destruct (Re.test reStatePrefix _); [reflexivity|].
    apply shouldInclude_regexp.
  - destruct (Re.test reDesktopExcluded cls); [reflexivity|].
    apply shouldInclude_regexp.
Qed.

Lemma inheritStep_regexp (classes : list string) (property : string)
  (r : Re.t) (state : UIState) (last : Inherited) (breakpoint : Breakpoint) :
  inheritStep classes property (RegExp r) state last breakpoint
  = Returns (stepOf classes property r state last breakpoint).
Proof.
  unfold inheritStep, stepOf. cbv zeta.
  rewrite (findM_returns _ (neutralClassOf property r
                              (getBreakpointPrefix breakpoint)))
    by (intros; apply isNeutralClass_regexp).
  destruct (negb (UIState_eqb state neutral)).
  - rewrite (findM_returns _ (stateClassOf property r
                                (getBreakpointPrefix breakpoint)
                                (getUIStatePrefix state)))
      by (intros; apply isStateClass_regexp).
    cbn. destruct (find (stateClassOf _ _ _ _) classes) as [cls|]; cbn.
    + destruct (truthy cls); cbn;
        destruct (find (neutralClassOf _ _ _) classes) as [n|]; cbn;
        try reflexivity;
        destruct (truthy n); try reflexivity;
        destruct (UIState_eqb state neutral); try reflexivity;
        now destruct (negb _).
    + destruct (find (neutralClassOf _ _ _) classes) as [n|]; cbn;
        try reflexivity.
      destruct (truthy n); try reflexivity.
      destruct (UIState_eqb state neutral); try reflexivity.
      now destruct (negb _).
  - cbn. destruct (find (neutralClassOf _ _ _) classes) as [n|]; cbn;
      try reflexivity.
    destruct (truthy n); try reflexivity.
    destruct (UIState_eqb state neutral); try reflexivity.
    now destruct (negb _).
Qed.

Lemma keepsForBreakpoint_regexp (property : string) (r : Re.t)
  (breakpoint : Breakpoint) (uiState : UIState) (cls : string) :
  keepsForBreakpoint property (RegExp r) breakpoint uiState cls
  = Returns (keptForBreakpoint property r breakpoint uiState cls).
Proof.
  unfold keepsForBreakpoint, keptForBreakpoint. cbv zeta.
  destruct (negb _ || negb _); [reflexivity|].
  now rewrite shouldInclude_regexp.
Qed.

(** The registry has a regular expression under each of its own keys,
    and none of its keys is the name of a member of [Object.prototype]. *)
Lemma lookupPattern_own (table : list (string * Re.t)) (property : string) :
  In property (map fst table) ->
  exists r, lookupPattern property table = Some (RegExp r)
            /\ In (property, r) table.
Proof.
  induction table as [|[k r] table IH]; simpl; [easy|].
  intros Hin. destruct (String.eqb_spec property k) as [->|Hne].
  - exists r. split; [reflexivity | now left].
  - destruct Hin as [Heq | Hin]; [congruence|].
    destruct (IH Hin) as (r' & Hr & Hin'). exists r'. split; [exact Hr|].
    now right.
Qed.

Lemma lookupPattern_member (table : list (string * Re.t))
  (property key : string) :
  lookupPattern property table = Some (PrototypeMember key) ->
  isPrototypeKey property = true /\ key = property.
Proof.
  induction table as [|[k r] table IH]; simpl.
  - destruct (isPrototypeKey property); [|discriminate].
    intros H. now injection H as <-.
  - destruct (String.eqb property k); [discriminate | exact IH].
Qed.

Lemma lookupPattern_regexp (table : list (string * Re.t))
  (property : string) (r : Re.t) :
  lookupPattern property table = Some (RegExp r) -> In (property, r) table.
Proof.
  induction table as [|[k r'] table IH]; simpl.
  - destruct (isPrototypeKey property); discriminate.
  - destruct (String.eqb_spec property k) as [->|Hne].
    + intros H. injection H as <-. now left.
    + intros H. right. now apply IH.
Qed.

Lemma registry_keys_own :
  forallb (fun entry => negb (isPrototypeKey (fst entry))) CLASS_PROPERTY_MAP
  = true.
Proof. vm_compute. reflexivity. Qed.

(** A property name that is no name of a member of [Object.prototype] has
    a regular expression or nothing; a name of such a member has that
    member. *)
Lemma pattern_of_plain_key (property : string) :
  isPrototypeKey property = false ->
  getConflictingClassPattern property = None
  \/ exists r, getConflictingClassPattern property = Some (RegExp r).
Proof.
  intros Hkey. unfold getConflictingClassPattern.
  destruct (lookupPattern property CLASS_PROPERTY_MAP) as [[r|key]|] eqn:E.
  - right. now exists r.
  - apply lookupPattern_member in E as [E _]. congruence.
  - now left.
Qed.

Lemma pattern_of_prototype_key (property : string) :
  isPrototypeKey property = true ->
  getConflictingClassPattern property = Some (PrototypeMember property).
Proof.
  intros Hkey. unfold getConflictingClassPattern.
  destruct (lookupPattern property CLASS_PROPERTY_MAP) as [[r|key]|] eqn:E.
  - apply lookupPattern_regexp in E.
    pose proof registry_keys_own as Hown. rewrite forallb_forall in Hown.
    specialize (Hown _ E). cbn [fst] in Hown. now rewrite Hkey in Hown.
  - apply lookupPattern_member in E as [_ ->]. reflexivity.
  - exfalso. revert E. generalize CLASS_PROPERTY_MAP as table.
    induction table as [|[k r] table IH]; simpl.
    + now rewrite Hkey.
    + destruct (String.eqb property k); [discriminate | exact IH].
Qed.

(** ** Conflict removal is a filter *)

Lemma survives_regexp (property : string) (r : Re.t) (cls : string) :
  getConflictingClassPattern property = Some (RegExp r) ->
  survives property cls = keeps property r cls.
Proof. intros H. unfold survives. now rewrite H. Qed.

Lemma filter_true {A} (l : list A) : List.filter (fun _ => true) l = l.
Proof. induction l as [|x l IH]; simpl; [reflexivity | now rewrite IH]. Qed.

Lemma removeConflictingClasses_regexp (classes : list string)
  (property : string) (r : Re.t) :
  getConflictingClassPattern property = Some (RegExp r) ->
  removeConflictingClasses classes property
  = Returns (List.filter (keeps property r) classes).
Proof.
  intros H. unfold removeConflictingClasses. rewrite H.
  apply filterM_returns. intros. apply keepsClass_regexp.
Qed.

Lemma removeConflictingClasses_filter (classes : list string) (property : string) :
  isPrototypeKey property = false ->
  removeConflictingClasses classes property
  = Returns (List.filter (survives property) classes).
Proof.
  intros Hkey. destruct (pattern_of_plain_key property Hkey) as [Hn | [r Hr]].
  - unfold removeConflictingClasses, survives. rewrite Hn.
    now rewrite filter_true.
  - rewrite (removeConflictingClasses_regexp _ _ _ Hr).
    unfold survives. now rewrite Hr.
Qed.

Lemma fold_removeConflicting_filter (properties : list string) :
  Forall (fun p => isPrototypeKey p = false) properties ->
  forall classes,
    foldM removeConflictingClasses properties classes
    = Returns
        (List.filter (fun cls => forallb (fun p => survives p cls) properties)
           classes).
Proof.
  induction properties as [|p ps IH]; intros Hkeys classes.
  - cbn [foldM forallb]. now rewrite filter_true.
  - apply Forall_cons_iff in Hkeys as [Hp Hps].
    cbn [foldM]. rewrite (removeConflictingClasses_filter _ _ Hp). cbn.
    rewrite (IH Hps). f_equal.
    induction classes as [|c l IHl]; simpl; [reflexivity|].
    destruct (survives p c); simpl.
    + destruct (forallb _ ps); simpl; now rewrite IHl.
    + exact IHl.
Qed.

(** The properties that a class affects are keys of the registry. *)
Lemma affected_in_registry (className property : string) :
  In property (getAffectedProperties className) ->
  In property (map fst CLASS_PROPERTY_MAP).
Proof.
  unfold getAffectedProperties.
  destruct (if startsWith "text-[" className then truthyValue className
            else None) as [v|].
  { destruct (isColorValue v); intros [<-|[]]; vm_compute; tauto. }
  destruct (if startsWith "bg-[" className then truthyValue className
            else None) as [v|].
  { destruct (isImageValue v); intros [<-|[]]; vm_compute; tauto. }
  intros Hin. apply in_map_iff in Hin as (e & <- & He).
  apply filter_In in He as [He _]. now apply in_map.
Qed.

Lemma affected_keys_plain (className : string) :
  Forall (fun p => isPrototypeKey p = false) (getAffectedProperties className).
Proof.
  apply List.Forall_forall. intros property Hin.
  apply affected_in_registry, in_map_iff in Hin as (e & <- & He).
  pose proof registry_keys_own as Hown. rewrite forallb_forall in Hown.
  apply negb_true_iff. now apply Hown.
Qed.

Lemma removeConflictsForClass_filter (tokens : list string) (t : string) :
  removeConflictsForClass tokens t
  = Returns
      (List.filter
         (fun cls => forallb (fun p => survives p cls)
                       (getAffectedProperties t))
         tokens).
Proof.
  unfold removeConflictsForClass.
  apply fold_removeConflicting_filter, affected_keys_plain.
Qed.

(** C5. [removeConflictsForClass] is idempotent: for every token list and
    every token [t], removing the conflicts of [t] from the result of
    removing them gives what removing them once gives; and the call returns,
    since the properties that a token affects are keys of the registry. *)
Theorem removeConflictsForClass_idempotent (tokens : list string) (t : string) :
  (result ← removeConflictsForClass tokens t; removeConflictsForClass result t)
  = removeConflictsForClass tokens t
  /\ exists result, removeConflictsForClass tokens t = Returns result.
Proof.
  rewrite !removeConflictsForClass_filter. split; [|now eexists].
  cbn. rewrite removeConflictsForClass_filter. f_equal.
  apply filter_idempotent.
Qed.

(** ** The colour and image classifiers *)

(** C10, at the input where the code departs from it: a value that starts
    like an [rgba(...)] colour and carries a URL is accepted by both
    classifiers, because [isImageValue] asks [isColorValue] only after its
    URL and gradient tests have answered. *)
Theorem image_and_color_overlap :
  isColorValue "rgba(0,0,0,0.5),url(https://example.com/a.png)" = true
  /\ isImageValue "rgba(0,0,0,0.5),url(https://example.com/a.png)" = true.
Proof. split; vm_compute; reflexivity. Qed.

(** ** Overloaded bracket families *)

Lemma bracketAt_truthy (s v : string) : bracketAt s = Some v -> truthy v = true.
Proof.
  unfold bracketAt. destruct (bracketBody s) as [b rest].
  destruct (truthy b) eqn:E; simpl; [|discriminate].
  destruct (startsWith "]" rest); [|discriminate].
  intros H. injection H as <-. exact E.
Qed.

Lemma extractArbitraryValue_truthy (cls v : string) :
  extractArbitraryValue cls = Some v -> truthy v = true.
Proof.
  induction cls as [|c cls IH]; simpl; [discriminate|].
  destruct (Ascii.eqb c "["); [|exact IH].
  destruct (bracketAt cls) as [w|] eqn:E; [|exact IH].
  intros H. injection H as <-. eapply bracketAt_truthy, E.
Qed.

Lemma truthyValue_extract (cls v : string) :
  extractArbitraryValue cls = Some v -> truthyValue cls = Some v.
Proof.
  intros H. unfold truthyValue. rewrite H.
  now rewrite (extractArbitraryValue_truthy _ _ H).
Qed.

Lemma survives_elsewhere (property cls : string) :
  textBelongsElsewhere property cls = true
  \/ bgBelongsElsewhere property cls = true ->
  survives property cls = true.
Proof.
  intros H. unfold survives.
  destruct (getConflictingClassPattern property) as [[r|key]|];
    [|reflexivity..].
  unfold keeps. destruct (Re.test r cls); simpl; [|reflexivity].
  destruct H as [-> | ->]; [reflexivity|].
  now destruct (textBelongsElsewhere property cls).
Qed.

Lemma survivor_stays (tokens : list string) (property cls : string) :
  isPrototypeKey property = false ->
  In cls tokens -> survives property cls = true ->
  exists kept,
    removeConflictingClasses tokens property = Returns kept /\ In cls kept.
Proof.
  intros Hkey Hin Hs. rewrite (removeConflictingClasses_filter _ _ Hkey).
  eexists. split; [reflexivity|].
  apply filter_In. split; assumption.
Qed.

(** C3. Overload safety of conflict removal: on the two-token list of the
    specification, removing [fontSize] returns the colour token alone and
    removing [color] returns the size token alone; and for every token list,
    the removal returns, and a [text-[...]] token whose bracketed value is a
    colour is in what the removal of [fontSize] returns, one whose value is
    not a colour in what the removal of [color] returns, and in the same way
    a [bg-[...]] token whose value is an image is in what the removal of
    [backgroundColor] returns and one whose value is not an image in what
    the removal of [backgroundImage] returns. *)
Theorem overload_safe_removal :
  removeConflictingClasses ["text-[1.5rem]"; "text-[#ff0000]"] "fontSize"
  = Returns ["text-[#ff0000]"]
  /\ removeConflictingClasses ["text-[1.5rem]"; "text-[#ff0000]"] "color"
     = Returns ["text-[1.5rem]"]
  /\ (forall (tokens : list string) (cls v : string),
        In cls tokens -> startsWith "text-[" cls = true ->
        extractArbitraryValue cls = Some v ->
        (isColorValue v = true ->
         exists kept,
           removeConflictingClasses tokens "fontSize" = Returns kept
           /\ In cls kept)
        /\ (isColorValue v = false ->
            exists kept,
              removeConflictingClasses tokens "color" = Returns kept
              /\ In cls kept))
  /\ (forall (tokens : list string) (cls v : string),
        In cls tokens -> startsWith "bg-[" cls = true ->
        extractArbitraryValue cls = Some v ->
        (isImageValue v = true ->
         exists kept,
           removeConflictingClasses tokens "backgroundColor" = Returns kept
           /\ In cls kept)
        /\ (isImageValue v = false ->
            exists kept,
              removeConflictingClasses tokens "backgroundImage" = Returns kept
              /\ In cls kept)).
Proof.
  split; [vm_compute; reflexivity|].
  split; [vm_compute; reflexivity|].
  split; intros tokens cls v Hin Hstart Hv;
    apply truthyValue_extract in Hv;
    split; intros Hk; apply survivor_stays; try assumption;
    try reflexivity; apply survives_elsewhere.
  - left. unfold textBelongsElsewhere. now rewrite Hstart, Hv, Hk.
  - left. unfold textBelongsElsewhere. now rewrite Hstart, Hv, Hk.
  - right. unfold bgBelongsElsewhere. now rewrite Hstart, Hv, Hk.
  - right. unfold bgBelongsElsewhere. now rewrite Hstart, Hv, Hk.
Qed.

Lemma overload_safe_removal_witness :
  (exists kept,
     removeConflictingClasses
       ["flex"; "text-[#ff0000]"; "text-[2rem]"; "text-lg"] "fontSize"
     = Returns kept
     /\ In "text-[#ff0000]" kept)
  /\ (exists kept,
        removeConflictingClasses
          ["bg-[#00ff00]"; "bg-[url(/hero.png)]"] "backgroundColor"
        = Returns kept
        /\ In "bg-[url(/hero.png)]" kept).
Proof.
  destruct overload_safe_removal as (_ & _ & Htext & Hbg). split.
  - refine (proj1 (Htext ["flex"; "text-[#ff0000]"; "text-[2rem]"; "text-lg"]
                     "text-[#ff0000]" "#ff0000" _ _ _) _).
    + right; left; reflexivity.
    + reflexivity.
    + reflexivity.
    + vm_compute; reflexivity.
  - refine (proj1 (Hbg ["bg-[#00ff00]"; "bg-[url(/hero.png)]"]
                     "bg-[url(/hero.png)]" "url(/hero.png)" _ _ _) _).
    + right; left; reflexivity.
    + reflexivity.
    + reflexivity.
    + vm_compute; reflexivity.
Defined.

(** ** Breakpoint prefixes and inheritance *)

(** C2, at the inputs where the code departs from it: the prefix table is
    mobile-first, so the desktop prefix is [lg:], the tablet prefix is [md:]
    and the mobile prefix is empty.  The parsers of the same file read an
    unprefixed class as a desktop class and [max-lg:], [max-md:] as the
    tablet and mobile prefixes; so a class written for mobile is read back
    as a desktop class, and writing the width for mobile a second time
    leaves the first class in place. *)
Theorem breakpoint_prefixes_mobile_first :
  getBreakpointPrefix desktop = "lg:"
  /\ addBreakpointPrefix desktop "w-[100px]" = "lg:w-[100px]"
  /\ addBreakpointPrefix tablet "w-[100px]" = "md:w-[100px]"
  /\ addBreakpointPrefix mobile "w-[100px]" = "w-[100px]"
  /\ bcBreakpoint (parseBreakpointClass (addBreakpointPrefix mobile "w-[100px]"))
     = desktop
  /\ bcBreakpoint (parseBreakpointClass "max-lg:w-[100px]") = tablet
  /\ bcBreakpoint (parseBreakpointClass "max-md:w-[100px]") = mobile
  /\ (written ← setBreakpointClass [] "width" (Some "w-[1px]") mobile neutral;
      setBreakpointClass written "width" (Some "w-[2px]") mobile neutral)
     = Returns ["w-[1px]"; "w-[2px]"].
Proof. repeat split; vm_compute; reflexivity. Qed.

Lemma shouldInclude_test (base property : string) (pattern : Re.t) :
  includedFor base property pattern = true ->
  Re.test pattern base = true.
Proof.
  unfold includedFor. now destruct (Re.test pattern base).
Qed.

Lemma stateClassOf_test (property : string) (pattern : Re.t)
  (bpPrefix statePrefix cls : string) :
  stateClassOf property pattern bpPrefix statePrefix cls = true ->
  Re.test pattern (slice (String.length (bpPrefix +:+ statePrefix)) cls) = true.
Proof.
  unfold stateClassOf. destruct (negb _); [discriminate|].
  apply shouldInclude_test.
Qed.

Lemma neutralClassOf_test (property : string) (pattern : Re.t)
  (bpPrefix cls : string) :
  neutralClassOf property pattern bpPrefix cls = true ->
  Re.test pattern
    (if truthy bpPrefix then slice (String.length bpPrefix) cls else cls) = true.
Proof.
  unfold neutralClassOf. destruct (truthy bpPrefix).
  - destruct (negb _); [discriminate|].
    destruct (Re.test reStatePrefix _); [discriminate|].
    apply shouldInclude_test.
  - destruct (Re.test reDesktopExcluded cls); [discriminate|].
    apply shouldInclude_test.
Qed.

(** The value that [getInheritedValue] reports is a whole base class of
    the property's family: it matches the pattern of the property. *)
Lemma stepOf_value_matches (classes : list string) (property : string)
  (pattern : Re.t) (state : UIState) (last : Inherited)
  (breakpoint : Breakpoint) :
  (forall v, value last = Some v -> Re.test pattern v = true) ->
  forall v,
    value (stepOf classes property pattern state last breakpoint) = Some v ->
    Re.test pattern v = true.
Proof.
  intros Hlast v. unfold stepOf. cbv zeta.
  set (afterState := if negb (UIState_eqb state neutral) then _ else last).
  assert (forall w, value afterState = Some w -> Re.test pattern w = true)
    as Hafter.
  { subst afterState.
    destruct (negb (UIState_eqb state neutral)); [|exact Hlast].
    destruct (find (stateClassOf _ _ _ _) classes) as [cls|] eqn:Es;
      [|exact Hlast].
    destruct (truthy cls); [|exact Hlast].
    apply find_some in Es as [_ Hs]. apply stateClassOf_test in Hs.
    simpl. intros w H. now injection H as <-. }
  clearbody afterState.
  destruct (find (neutralClassOf _ _ _) classes) as [cls|] eqn:En;
    [|apply Hafter].
  apply find_some in En as [_ Hn]. apply neutralClassOf_test in Hn.
  destruct (truthy cls); [|apply Hafter].
  destruct (UIState_eqb state neutral); simpl.
  - intros H. now injection H as <-.
  - destruct (negb (truthyOpt (value afterState))); simpl; [|apply Hafter].
    intros H. now injection H as <-.
Qed.

Lemma getInheritedValue_regexp (classes : list string) (property : string)
  (r : Re.t) (breakpoint : Breakpoint) (state : UIState) :
  getConflictingClassPattern property = Some (RegExp r) ->
  getInheritedValue classes property breakpoint state
  = Returns
      (fold_left (stepOf classes property r state)
         (inheritanceChain breakpoint) {| value := None; source := None |}).
Proof.
  intros Hp. unfold getInheritedValue. rewrite Hp.
  apply foldM_returns. intros. apply inheritStep_regexp.
Qed.

Lemma inherited_value_is_base_class (classes : list string)
  (property : string) (pattern : Re.t) (breakpoint : Breakpoint)
  (state : UIState) (result : Inherited) (v : string) :
  getConflictingClassPattern property = Some (RegExp pattern) ->
  getInheritedValue classes property breakpoint state = Returns result ->
  value result = Some v ->
  Re.test pattern v = true.
Proof.
  intros Hp Hr. rewrite (getInheritedValue_regexp _ _ _ _ _ Hp) in Hr.
  injection Hr as <-.
  assert (forall w, value {| value := None; source := None |} = Some w ->
                    Re.test pattern w = true) as Hinit by discriminate.
  revert Hinit v. generalize {| value := None; source := None |} as last.
  induction (inheritanceChain breakpoint) as [|bp chain IH];
    intros last Hlast v; simpl.
  - apply Hlast.
  - apply IH. now apply stepOf_value_matches.
Qed.

(** So no token list, breakpoint or state makes the lookup answer the
    bare bracket content [50px] for the width, or the bare colour name
    [blue-500] or [red-500] for the background colour. *)
Lemma inherited_value_never_bare (classes : list string)
  (breakpoint : Breakpoint) (state : UIState) (result : Inherited) :
  (getInheritedValue classes "width" breakpoint state = Returns result ->
   value result <> Some "50px")
  /\ (getInheritedValue classes "backgroundColor" breakpoint state
      = Returns result ->
      value result <> Some "blue-500" /\ value result <> Some "red-500").
Proof.
  split; [intros Hr H | intros Hr; split; intros H].
  - eapply inherited_value_is_base_class with (property := "width") in H;
      [| reflexivity | exact Hr].
    vm_compute in H. discriminate.
  - eapply inherited_value_is_base_class
      with (property := "backgroundColor") in H; [| reflexivity | exact Hr].
    vm_compute in H. discriminate.
  - eapply inherited_value_is_base_class
      with (property := "backgroundColor") in H; [| reflexivity | exact Hr].
    vm_compute in H. discriminate.
Qed.

(** C1 as stated fails: on the literal token list the lookup answers the
    unprefixed class, found at the mobile step, and not [50px] from the
    tablet. *)
Lemma inherited_width_literal_tokens :
  getInheritedValue ["w-[100px]"; "max-lg:w-[50px]"] "width" mobile neutral
  = Returns {| value := Some "w-[100px]"; source := Some mobile |}
  /\ getInheritedValue ["w-[100px]"; "max-lg:w-[50px]"] "width" mobile neutral
     <> Returns {| value := Some "50px"; source := Some tablet |}.
Proof. split; vm_compute; [reflexivity | discriminate]. Qed.

(** C1, amended. With the desktop value and the tablet override written
    under the prefixes that the code gives these breakpoints, the lookup at
    mobile answers the tablet override: the nearest wider breakpoint, not
    the desktop; the value is the whole base class, its prefix stripped. *)
Theorem inherited_width_nearest_override :
  getInheritedValue
    [addBreakpointPrefix desktop "w-[100px]";
     addBreakpointPrefix tablet "w-[50px]"] "width" mobile neutral
  = Returns {| value := Some "w-[50px]"; source := Some tablet |}.
Proof. vm_compute. reflexivity. Qed.

(** C4 as stated fails: on the literal token list both lookups find
    nothing, since neither class starts with the desktop prefix of the
    table. *)
Lemma state_overlay_literal_tokens :
  getInheritedValue ["bg-red-500"; "hover:bg-blue-500"] "backgroundColor"
    desktop hover
  = Returns {| value := None; source := None |}
  /\ getInheritedValue ["bg-red-500"; "hover:bg-blue-500"] "backgroundColor"
       desktop hover
     <> Returns {| value := Some "blue-500"; source := Some desktop |}
  /\ getInheritedValue ["bg-red-500"; "hover:bg-blue-500"] "backgroundColor"
       desktop neutral
     <> Returns {| value := Some "red-500"; source := Some desktop |}.
Proof.
  split; [vm_compute; reflexivity|]. split; vm_compute; discriminate.
Qed.

(** C4, amended. With both tokens written under the prefix that the code
    gives the desktop breakpoint, the hover lookup answers the hover token
    and the neutral lookup the neutral token, both from the desktop; the
    value is the whole base class, its prefixes stripped. *)
Theorem state_overlay_own_prefix :
  let tokens :=
    [addBreakpointPrefix desktop "bg-red-500";
     addBreakpointPrefix desktop (getUIStatePrefix hover +:+ "bg-blue-500")] in
  getInheritedValue tokens "backgroundColor" desktop hover
  = Returns {| value := Some "bg-blue-500"; source := Some desktop |}
  /\ getInheritedValue tokens "backgroundColor" desktop neutral
     = Returns {| value := Some "bg-red-500"; source := Some desktop |}.
Proof. split; vm_compute; reflexivity. Qed.

(** ** What the parser writes *)

Section ParserInvariant.

Variable P : gmap string (gmap string string) -> Prop.
Hypothesis P_setProp :
  forall category property value design,
    isParsedPair category property = true ->
    P design -> P (setProp category property value design).

Lemma literals_keeps category property table cls design :
  isParsedPair category property = true ->
  P design -> P (literals category property table cls design).
Proof.
  intros Hw. unfold literals. revert design.
  induction table as [|e table IH]; intros design Hd; simpl; [exact Hd|].
  apply IH. destruct (String.eqb cls (fst e)); [now apply P_setProp | exact Hd].
Qed.

Lemma setArbitrary_keeps category property cls design :
  isParsedPair category property = true ->
  P design -> P (setArbitrary category property cls design).
Proof.
  intros Hw Hd. unfold setArbitrary.
  destruct (truthyValue cls); [now apply P_setProp | exact Hd].
Qed.

Lemma bracketed_keeps category property prefix cls design :
  isParsedPair category property = true ->
  P design -> P (bracketed category property prefix cls design).
Proof.
  intros Hw Hd. unfold bracketed.
  destruct (startsWith prefix cls); [now apply setArbitrary_keeps | exact Hd].
Qed.

Lemma bracketedChain_keeps category rules cls design :
  forallb (fun e => isParsedPair category (snd e)) rules = true ->
  P design -> P (bracketedChain category rules cls design).
Proof.
  intros Hw Hd. induction rules as [|[prefix property] rules IH]; simpl;
    [exact Hd|].
  simpl in Hw. apply andb_prop in Hw as [Hp Hrest].
  destruct (startsWith prefix cls);
    [now apply setArbitrary_keeps | now apply IH].
Qed.

Lemma suffixIn_keeps category property prefix allowed cls design :
  isParsedPair category property = true ->
  P design -> P (suffixIn category property prefix allowed cls design).
Proof.
  intros Hw Hd. unfold suffixIn. destruct (startsWith prefix cls); [|exact Hd].
  destruct (listIncludes _ allowed); [now apply P_setProp | exact Hd].
Qed.

Lemma applyRules_keeps rules design :
  Forall (fun rule => forall d, P d -> P (rule d)) rules ->
  P design -> P (applyRules rules design).
Proof.
  unfold applyRules. intros Hrules. revert design.
  induction Hrules as [|rule rules Hrule _ IH]; intros design Hd; simpl;
    [exact Hd | apply IH, Hrule, Hd].
Qed.

Ltac rule_keeps :=
  intros ? ?;
  first [ apply literals_keeps; [reflexivity | assumption]
        | apply bracketed_keeps; [reflexivity | assumption]
        | apply bracketedChain_keeps; [reflexivity | assumption]
        | apply suffixIn_keeps; [reflexivity | assumption]
        | match goal with
          | |- P (if ?b then _ else _) =>
              destruct b;
              [apply setArbitrary_keeps; [reflexivity | assumption]
              | assumption]
          end ].

Lemma layoutRules_keep cls :
  Forall (fun rule => forall d, P d -> P (rule d)) (layoutRules cls).
Proof. unfold layoutRules. repeat (constructor; [rule_keeps|]). constructor. Qed.

Lemma afterColorRules_keep cls :
  Forall (fun rule => forall d, P d -> P (rule d)) (afterColorRules cls).
Proof.
  unfold afterColorRules. repeat (constructor; [rule_keeps|]). constructor.
Qed.

Lemma parseBaseClass_keeps design cls :
  P design -> P (parseBaseClass design cls).
Proof.
  intros Hd. unfold parseBaseClass.
  assert (P (applyRules (layoutRules cls) design)) as H1
    by (apply applyRules_keeps; [apply layoutRules_keep | exact Hd]).
  destruct (colorOfClass cls).
  - apply P_setProp; [reflexivity | exact H1].
  - apply applyRules_keeps; [apply afterColorRules_keep | exact H1].
Qed.

Lemma parseClass_keeps design cls : P design -> P (parseClass design cls).
Proof.
  intros Hd. unfold parseClass.
  destruct (Re.test reStatePrefix cls); [exact Hd|].
  destruct (Re.test reBreakpointStatePrefix cls); [exact Hd|].
  now apply parseBaseClass_keeps.
Qed.

Lemma parseClasses_keep (l : list string) design :
  P design -> P (fold_left parseClass l design).
Proof.
  revert design. induction l as [|cls l IH]; intros design Hd; simpl;
    [exact Hd | apply IH, parseClass_keeps, Hd].
Qed.

Lemma classesToDesign_keeps classes :
  P emptyDesign -> P (classesToDesign classes).
Proof. apply parseClasses_keep. Qed.

End ParserInvariant.

(** ** State-prefixed and breakpoint-prefixed classes in the parser *)

Lemma breakpointState_needs_breakpoint (cls : string) :
  hasBreakpointPrefix cls = false -> hasBreakpointStatePrefix cls = false.
Proof.
  unfold hasBreakpointPrefix, hasBreakpointStatePrefix.
  generalize breakpointWords as l.
  induction l as [|b l IH]; cbn [existsb]; [reflexivity|].
  intros H. apply orb_false_elim in H as [Hb Hl].
  rewrite (IH Hl), orb_false_r.
  generalize stateWords as ws.
  induction ws as [|w ws IHw]; cbn [existsb]; [reflexivity|].
  rewrite IHw, orb_false_r.
  rewrite <- (append_assoc b ":" (w +:+ ":")).
  now apply startsWith_longer.
Qed.

Lemma parseClass_carrier (design : gmap string (gmap string string))
  (cls : string) :
  carriesStatePrefix cls = true -> parseClass design cls = design.
Proof.
  unfold carriesStatePrefix, parseClass. intros H.
  rewrite test_reStatePrefix, test_reBreakpointStatePrefix.
  destruct (hasStatePrefix cls); [reflexivity|].
  simpl in H. now rewrite H.
Qed.

Ltac split_orb_false :=
  repeat match goal with
         | H : _ || _ = false |- _ => apply orb_false_elim in H as [? ?]
         end.

Lemma parseClass_plain (design : gmap string (gmap string string))
  (cls : string) :
  hasStatePrefix cls = false -> hasBreakpointPrefix cls = false ->
  parseClass design cls = parseBaseClass design cls.
Proof.
  intros Hs Hb. unfold parseClass.
  rewrite test_reStatePrefix, test_reBreakpointStatePrefix, Hs.
  rewrite (breakpointState_needs_breakpoint _ Hb).
  unfold hasBreakpointPrefix, breakpointWords in Hb.
  cbv [String.append] in Hb. cbn [existsb] in Hb.
  split_orb_false.
  unfold stripBreakpointPrefix.
  repeat match goal with
         | H : startsWith _ cls = false |- _ => rewrite H; clear H
         end.
  reflexivity.
Qed.

Lemma parseClass_breakpoint_only (design : gmap string (gmap string string))
  (b base : string) :
  In b breakpointWords -> hasStatePrefix base = false ->
  parseClass design (b +:+ ":" +:+ base) = parseBaseClass design base.
Proof.
  intros Hb Hs. unfold parseClass.
  rewrite test_reStatePrefix, test_reBreakpointStatePrefix.
  unfold hasStatePrefix, hasBreakpointStatePrefix, breakpointWords,
    stateWords, stripBreakpointPrefix in *.
  cbn [existsb] in Hs. cbv [String.append] in Hs.
  unfold startsWith in *. split_orb_false.
  simpl in Hb.
  destruct Hb as [<- | [<- | [<- | [<- | []]]]];
    cbv [String.append]; cbn [existsb]; simpl;
    repeat match goal with
           | H : String.prefix _ base = false |- _ => rewrite H; clear H
           end;
    rewrite prefix_nil; reflexivity.
Qed.

Lemma parseClasses_drop_carriers (l : list string)
  (design : gmap string (gmap string string)) :
  fold_left parseClass l design
  = fold_left parseClass
      (List.filter (fun cls => negb (carriesStatePrefix cls)) l) design.
Proof.
  revert design. induction l as [|cls l IH]; intros design; simpl;
    [reflexivity|].
  destruct (carriesStatePrefix cls) eqn:E; simpl.
  - now rewrite parseClass_carrier.
  - apply IH.
Qed.

Lemma setProp_dom (category property value : string)
  (design : gmap string (gmap string string)) :
  dom (setProp category property value design) = dom design.
Proof. unfold setProp. apply dom_alter_L. Qed.

Lemma emptyDesign_dom : dom emptyDesign = (list_to_set categories : gset string).
Proof. vm_compute. reflexivity. Qed.

(** C6. Whatever the classes, given as a list or as a string,
    [classesToDesign] ignores every class that carries an interaction-state
    prefix ([hover:], [focus:], [active:], [disabled:], [visited:]), bare or
    behind a breakpoint prefix: the result is that of the list without these
    classes, and the callback leaves the design as it is on each of them.  A class with a breakpoint prefix only is parsed
    as its base class is.  The keys of the result are the eight categories,
    and the empty list gives eight empty maps. *)
Theorem classesToDesign_state_tokens_excluded (classes : Classes) :
  classesToDesign classes
  = classesToDesign
      (ClassArray
         (List.filter (fun cls => negb (carriesStatePrefix cls))
            (classListOf classes)))
  /\ (forall design w rest,
        In w stateWords ->
        parseClass design (w +:+ ":" +:+ rest) = design)
  /\ (forall design b w rest,
        In b breakpointWords -> In w stateWords ->
        parseClass design (b +:+ ":" +:+ w +:+ ":" +:+ rest) = design)
  /\ (forall design b base,
        In b breakpointWords ->
        hasStatePrefix base = false -> hasBreakpointPrefix base = false ->
        parseClass design (b +:+ ":" +:+ base) = parseClass design base)
  /\ dom (classesToDesign classes) = (list_to_set categories : gset string)
  /\ Forall (fun category =>
               classesToDesign (ClassArray []) !! category
               = Some (∅ : gmap string string))
       categories.
Proof.
  split; [apply parseClasses_drop_carriers|].
  split.
  { intros design w rest Hw. apply parseClass_carrier.
    unfold carriesStatePrefix. apply orb_true_intro. left.
    unfold hasStatePrefix. apply existsb_exists. exists w. split; [exact Hw|].
    rewrite <- append_assoc. apply startsWith_app. }
  split.
  { intros design b w rest Hb Hw. apply parseClass_carrier.
    unfold carriesStatePrefix. apply orb_true_intro. right.
    unfold hasBreakpointStatePrefix. apply existsb_exists.
    exists b. split; [exact Hb|]. apply existsb_exists.
    exists w. split; [exact Hw|].
    replace (b +:+ ":" +:+ w +:+ ":" +:+ rest)
      with ((b +:+ ":" +:+ w +:+ ":") +:+ rest)
      by now rewrite !append_assoc.
    apply startsWith_app. }
  split.
  { intros design b base Hb Hs Hbp.
    rewrite parseClass_breakpoint_only by assumption.
    now rewrite parseClass_plain. }
  split.
  { rewrite <- emptyDesign_dom.
    apply (classesToDesign_keeps (fun d => dom d = dom emptyDesign));
      [|reflexivity].
    intros category property value design _ Hd.
    now rewrite setProp_dom. }
  repeat constructor.
Qed.

Lemma classesToDesign_state_tokens_excluded_witness :
  parseClass emptyDesign "hover:w-[3px]" = emptyDesign
  /\ parseClass emptyDesign "max-md:focus:w-[3px]" = emptyDesign
  /\ parseClass emptyDesign "max-md:w-[3px]" = parseClass emptyDesign "w-[3px]".
Proof.
  pose proof (classesToDesign_state_tokens_excluded (ClassArray []))
    as (_ & Hbare & Hcombined & Hstrip & _).
  split; [|split].
  - apply (Hbare emptyDesign "hover" "w-[3px]"). simpl. tauto.
  - apply (Hcombined emptyDesign "max-md" "focus" "w-[3px]"); simpl; tauto.
  - apply (Hstrip emptyDesign "max-md" "w-[3px]");
      [simpl; tauto | reflexivity | reflexivity].
Defined.

(** ** The pairs that the parser assigns *)

Lemma isParsedPair_spec (category property : string) :
  isParsedPair category property = true <-> In (category, property) parsedPairs.
Proof.
  unfold isParsedPair. rewrite existsb_exists. split.
  - intros [[c p] [Hin H]]. simpl in H. apply andb_prop in H as [Hc Hp].
    apply String.eqb_eq in Hc, Hp. now subst.
  - intros Hin. exists (category, property). split; [exact Hin|].
    simpl. now rewrite !String.eqb_refl.
Qed.

Lemma getProp_setProp_other (category property value : string)
  (design : gmap string (gmap string string)) (category' property' : string) :
  (category, property) <> (category', property') ->
  getProp (setProp category property value design) category' property'
  = getProp design category' property'.
Proof.
  intros Hne. unfold getProp, setProp.
  destruct (decide (category = category')) as [<-|Hc].
  - rewrite lookup_alter_eq. destruct (design !! category) as [props|]; simpl;
      [|reflexivity].
    apply lookup_insert_ne. congruence.
  - now rewrite lookup_alter_ne.
Qed.

(** A pair that no rule assigns has no value in any parsed design. *)
Lemma unparsed_pair_absent (classes : Classes) (category property : string) :
  isParsedPair category property = false ->
  getProp (classesToDesign classes) category property = None.
Proof.
  intros Hun.
  apply (classesToDesign_keeps
           (fun d => getProp d category property = None)).
  - intros c p v d Hw Hd. rewrite getProp_setProp_other; [exact Hd|].
    intros Heq. injection Heq as -> ->. congruence.
  - unfold getProp, emptyDesign.
    destruct (list_to_map _ !! category) as [props|] eqn:E; [|reflexivity].
    simpl. apply elem_of_list_to_map_2 in E.
    apply list_elem_of_In, in_map_iff in E as [c [Heq _]].
    injection Heq as _ <-. apply lookup_empty.
Qed.

(** None of the pairs that [propertyToClass] serves and no parser rule
    assigns is in [parsedPairs]. *)
Lemma unparsedPairs_not_parsed :
  Forall (fun pair => isParsedPair (fst pair) (snd pair) = false) unparsedPairs.
Proof. repeat constructor. Qed.

(** ** The renderer's breakpoint filter *)

Lemma hasSpace_snoc (s : string) (c : ascii) :
  hasSpace (s +:+ String c EmptyString)
  = hasSpace s || Ascii.eqb c " "%char.
Proof.
  unfold hasSpace. induction s as [|x s IH].
  - simpl. now rewrite orb_false_r.
  - rewrite append_cons. simpl. rewrite IH. now rewrite orb_assoc.
Qed.

Lemma splitAux_no_space (s cur : string) :
  hasSpace cur = false ->
  Forall (fun w => hasSpace w = false) (splitAux cur s).
Proof.
  revert cur. induction s as [|c s IH]; intros cur Hcur; simpl.
  - now constructor.
  - destruct (Ascii.eqb c " ") eqn:E.
    + constructor; [exact Hcur | now apply IH].
    + apply IH. now rewrite hasSpace_snoc, Hcur, E.
Qed.

Lemma words_no_space (s w : string) : In w (words s) -> hasSpace w = false.
Proof.
  unfold words, split. intros Hin. apply filter_In in Hin as [Hin _].
  pose proof (splitAux_no_space s EmptyString eq_refl) as H.
  rewrite List.Forall_forall in H. now apply H.
Qed.

Lemma includes_needs_space (x s : string) :
  hasSpace s = false -> includes (String " " x) s = false.
Proof.
  unfold hasSpace. induction s as [|c s IH]; intros H.
  - reflexivity.
  - cbn [existsChar] in H. apply orb_false_elim in H as [Hc Hs].
    cbn [includes]. rewrite (IH Hs), orb_false_r.
    unfold startsWith. cbn [String.prefix].
    destruct (ascii_dec " " c) as [<-|]; [discriminate | reflexivity].
Qed.

Lemma keptAtMobile (cls : string) :
  hasSpace cls = false ->
  keptAtBreakpoint "mobile" cls
  = negb (startsWith "md:" cls) && negb (startsWith "lg:" cls).
Proof.
  intros H. unfold keptAtBreakpoint.
  rewrite !(includes_needs_space _ _ H), !orb_false_r.
  now destruct (startsWith "md:" cls), (startsWith "lg:" cls).
Qed.

Lemma splitAux_plain (x cur : string) :
  hasSpace x = false -> splitAux cur x = [cur +:+ x].
Proof.
  unfold hasSpace. revert cur. induction x as [|c x IH]; intros cur H.
  - simpl. now rewrite append_nil_r.
  - cbn [existsChar] in H. apply orb_false_elim in H as [Hc Hx].
    cbn [splitAux]. rewrite Hc, (IH _ Hx), append_assoc. reflexivity.
Qed.

Lemma splitAux_token (x cur rest : string) :
  hasSpace x = false ->
  splitAux cur (x +:+ String " " rest)
  = (cur +:+ x) :: splitAux EmptyString rest.
Proof.
  unfold hasSpace. revert cur. induction x as [|c x IH]; intros cur H.
  - rewrite append_nil, append_nil_r. reflexivity.
  - cbn [existsChar] in H. apply orb_false_elim in H as [Hc Hx].
    rewrite append_cons. cbn [splitAux].
    rewrite Hc, (IH _ Hx), append_assoc. reflexivity.
Qed.

(** Splitting the joined classes gives the classes back. *)
Lemma words_join (l : list string) :
  Forall (fun w => truthy w = true /\ hasSpace w = false) l ->
  words (join l) = l.
Proof.
  unfold words, split. induction 1 as [|x l [Ht Hs] Hl IH]; [reflexivity|].
  destruct l as [|y l].
  - cbn [join]. rewrite (splitAux_plain _ _ Hs), append_nil.
    cbn [List.filter]. now rewrite Ht.
  - change (join (x :: y :: l)) with (x +:+ String " " (join (y :: l))).
    rewrite (splitAux_token _ _ _ Hs), append_nil.
    cbn [List.filter]. now rewrite Ht, IH.
Qed.

Lemma filteredClasses_tokens (classesString breakpoint : string) :
  words (filterClassesByBreakpoint classesString breakpoint)
  = filteredClasses classesString breakpoint.
Proof.
  unfold filterClassesByBreakpoint.
  destruct (truthy classesString) eqn:E; simpl.
  - apply words_join. apply List.Forall_forall. intros w Hin.
    unfold filteredClasses in Hin. apply filter_In in Hin as [Hin _].
    split; [|now apply (words_no_space classesString)].
    unfold words in Hin. now apply filter_In in Hin as [_ Ht].
  - destruct classesString; [reflexivity | discriminate].
Qed.

(** C8. At the mobile breakpoint the classes of the string that the
    renderer's filter returns are the classes of the class string that carry
    neither of the two breakpoint prefixes the filter knows, [md:] and [lg:]:
    the base classes only.  The class that the mapper prefixes for the
    tablet and the one it prefixes for the desktop are therefore never among
    them, whatever the class string and the base class; so a class string
    made of a tablet-prefixed and a desktop-prefixed width gives the empty
    string. *)
Theorem mobile_filter_base_only (classesString : string) :
  (forall cls,
     In cls (words (filterClassesByBreakpoint classesString "mobile"))
     <-> In cls (words classesString)
         /\ startsWith "md:" cls = false /\ startsWith "lg:" cls = false)
  /\ (forall base,
        ~ In (addBreakpointPrefix tablet base)
            (words (filterClassesByBreakpoint classesString "mobile"))
        /\ ~ In (addBreakpointPrefix desktop base)
               (words (filterClassesByBreakpoint classesString "mobile")))
  /\ filterClassesByBreakpoint
       (addBreakpointPrefix tablet "w-[50px]" +:+ " "
        +:+ addBreakpointPrefix desktop "w-[100px]") "mobile"
     = EmptyString
  /\ filterClassesByBreakpoint
       "w-[10px] md:w-[50px] lg:w-[100px]" "mobile" = "w-[10px]".
Proof.
  assert (forall cls,
            In cls (words (filterClassesByBreakpoint classesString "mobile"))
            <-> In cls (words classesString)
                /\ startsWith "md:" cls = false
                /\ startsWith "lg:" cls = false) as Hiff.
  { intros cls. rewrite filteredClasses_tokens.
    unfold filteredClasses. rewrite filter_In. split.
    - intros [Hin Hk]. split; [exact Hin|].
      rewrite (keptAtMobile _ (words_no_space _ _ Hin)) in Hk.
      apply andb_prop in Hk as [Hmd Hlg].
      now apply negb_true_iff in Hmd, Hlg.
    - intros (Hin & Hmd & Hlg). split; [exact Hin|].
      rewrite (keptAtMobile _ (words_no_space _ _ Hin)), Hmd, Hlg.
      reflexivity. }
  split; [exact Hiff|].
  split.
  { intros base. split; intros Hin; apply Hiff in Hin as (_ & Hmd & Hlg).
    - change (addBreakpointPrefix tablet base) with ("md:" +:+ base) in Hmd.
      now rewrite startsWith_app in Hmd.
    - change (addBreakpointPrefix desktop base) with ("lg:" +:+ base) in Hlg.
      now rewrite startsWith_app in Hlg. }
  split; vm_compute; reflexivity.
Qed.

Lemma mobile_filter_base_only_witness :
  In "w-[10px]"
    (words (filterClassesByBreakpoint
              "w-[10px] md:w-[50px] lg:w-[100px]" "mobile"))
  /\ ~ In "md:w-[50px]"
         (words (filterClassesByBreakpoint
                   "w-[10px] md:w-[50px] lg:w-[100px]" "mobile")).
Proof.
  pose proof (mobile_filter_base_only "w-[10px] md:w-[50px] lg:w-[100px]")
    as (Hiff & Hnot & _).
  split.
  - apply Hiff. split; [left; reflexivity | split; reflexivity].
  - exact (proj1 (Hnot "w-[50px]")).
Defined.

(** ** Text resolution *)

Lemma rendered_app (replacer : string -> string) (a b : list Segment) :
  rendered replacer (a ++ b) = rendered replacer a +:+ rendered replacer b.
Proof.
  induction a as [|[c|id] a IH]; simpl; [reflexivity| |].
  - now rewrite IH.
  - now rewrite IH, append_assoc.
Qed.

Lemma rendered_literal (replacer : string -> string) (plain : string) :
  rendered replacer (map Lit (list_ascii_of_string plain)) = plain.
Proof.
  induction plain as [|c plain IH]; [reflexivity|].
  simpl. now rewrite IH.
Qed.

(** A [replace] whose replacer returns at every marker returns. *)
Lemma renderSegments_returns (replacer : string -> Outcome string)
  (answer : string -> string) (segs : list Segment) :
  (forall id, In (Marker id) segs -> replacer id = Returns (answer id)) ->
  renderSegments replacer segs = Returns (rendered answer segs).
Proof.
  induction segs as [|[c|id] segs IH]; intros H; [reflexivity| |].
  - cbn [renderSegments renderSegment rendered]. cbn.
    rewrite IH by (intros i Hi; apply H; now right). reflexivity.
  - cbn [renderSegments renderSegment rendered].
    rewrite (H id) by now left. cbn.
    rewrite IH by (intros i Hi; apply H; now right). reflexivity.
Qed.

Lemma existsb_cfId (fieldId : string) (fields : list CollectionField) :
  ~ In fieldId (map cfId fields) ->
  existsb (fun f => String.eqb (cfId f) fieldId) fields = false.
Proof.
  intros Hnot. apply not_true_is_false. intros H.
  apply existsb_exists in H as [f [Hin Heq]].
  apply String.eqb_eq in Heq. apply Hnot. rewrite <- Heq. now apply in_map.
Qed.

(** With an array for the field list the replacer returns. *)
Lemma resolveVariable_array (prototypeText : string -> string)
  (vars : gmap string FieldVariable) (data : ItemData)
  (fields : list CollectionField) (id : string) :
  resolveVariable prototypeText vars data (FieldArray fields) id
  = Returns (resolved prototypeText vars data fields id).
Proof.
  unfold resolveVariable, resolved.
  destruct (vars !! id) as [variable|]; [|reflexivity].
  destruct (fieldIdOf variable) as [fieldId|]; [|reflexivity].
  cbn. destruct (existsb _ fields); cbn; [|reflexivity].
  now destruct (definedValue data fieldId) as [[v|key]|].
Qed.

(** A variable whose field is not in the list resolves to the empty
    string. *)
Lemma stale_variable_empty (prototypeText : string -> string)
  (vars : gmap string FieldVariable)
  (collectionItemData : option ItemData)
  (fields : list CollectionField)
  (id fieldId : string) (variable : FieldVariable) :
  vars !! id = Some variable -> fieldIdOf variable = Some fieldId ->
  ~ In fieldId (map cfId fields) ->
  placeholderValue prototypeText vars collectionItemData fields id
  = EmptyString.
Proof.
  intros Hv Hf Hnot. unfold placeholderValue.
  destruct collectionItemData as [data|]; [|reflexivity].
  unfold resolved. rewrite Hv, Hf.
  now rewrite (existsb_cfId _ _ Hnot).
Qed.

(** With an inline template, no field reference in [layer.text] and an
    array for the field list, [getText] returns the template with its
    markers replaced. *)
Lemma getText_inline (prototypeText : string -> string)
  (collectionFields : CollectionFields) (layer : Layer)
  (collectionItemData : option ItemData) (collectionId : option string)
  (inlineContent : InlineVariableContent) (vars : gmap string FieldVariable)
  (fields : list CollectionField) :
  isFieldReference (textOrContent layer) = false ->
  variables layer = Some {| lvText := Some inlineContent |} ->
  ivcVariables inlineContent = Some vars ->
  fieldsFor collectionFields collectionId = FieldArray fields ->
  getText prototypeText collectionFields layer collectionItemData collectionId
  = Returns
      (TextString
         (rendered
            (placeholderValue prototypeText vars collectionItemData fields)
            (scanMarkers (ivcData inlineContent)))).
Proof.
  intros Hnf Hvars Hiv Hfields. unfold getText, placeholderValue.
  rewrite Hvars, Hiv, Hfields. unfold replaceMarkers.
  assert (renderSegments
            (resolveVariable prototypeText vars
               (default ∅ collectionItemData) (FieldArray fields))
            (scanMarkers (ivcData inlineContent))
          = Returns
              (rendered
                 (resolved prototypeText vars (default ∅ collectionItemData)
                    fields)
                 (scanMarkers (ivcData inlineContent)))) as Hsome
    by (apply renderSegments_returns; intros; apply resolveVariable_array).
  assert (renderSegments (fun _ => Returns EmptyString)
            (scanMarkers (ivcData inlineContent))
          = Returns
              (rendered (fun _ => EmptyString)
                 (scanMarkers (ivcData inlineContent)))) as Hnone
    by (now apply renderSegments_returns).
  destruct (textOrContent layer) as [s|v|key]; simpl in Hnf.
  - destruct collectionItemData; cbn [default from_option] in *; unfold id in *;
      [now rewrite Hsome | now rewrite Hnone].
  - destruct (fieldIdOf v); [discriminate|].
    destruct collectionItemData; cbn [default from_option] in *; unfold id in *;
      [now rewrite Hsome | now rewrite Hnone].
  - destruct collectionItemData; cbn [default from_option] in *; unfold id in *;
      [now rewrite Hsome | now rewrite Hnone].
Qed.

(** *** Markers in a template *)

Lemma spanChars_stop (p : ascii -> bool) (a : string) (c : ascii) (rest : string) :
  existsChar (fun x => negb (p x)) a = false -> p c = false ->
  spanChars p (a +:+ String c rest) = (a, String c rest).
Proof.
  intros Ha Hc. induction a as [|x a IH].
  - rewrite append_nil. simpl. now rewrite Hc.
  - cbn [existsChar] in Ha. apply orb_false_elim in Ha as [Hx Ha].
    rewrite append_cons. cbn [spanChars].
    apply negb_false_iff in Hx. now rewrite Hx, (IH Ha).
Qed.

Lemma scanFrom_skip (a rest : string) :
  scanFrom (String.length a) (a +:+ rest) = scanFrom 0 rest.
Proof.
  induction a as [|x a IH]; [reflexivity|].
  rewrite append_cons. exact IH.
Qed.

Lemma matchMarker_marker (id rest : string) :
  validId id = true ->
  matchMarker (markerOf id +:+ rest)
  = Some (id, String.length (markerOf id)).
Proof.
  unfold validId. intros H. apply andb_prop in H as [Ht Hq].
  apply negb_true_iff in Hq.
  unfold matchMarker, markerOf.
  rewrite !append_assoc, startsWith_app, slice_app.
  change (markerClose +:+ rest)
    with (String Renderer.dquote ("></ycode-inline-variable>" +:+ rest)).
  rewrite spanChars_stop.
  - rewrite Ht.
    change (String Renderer.dquote ("></ycode-inline-variable>" +:+ rest))
      with (markerClose +:+ rest).
    rewrite startsWith_app. simpl andb. cbv iota.
    now rewrite !length_append, Nat.add_assoc.
  - rewrite <- Hq. clear. induction id as [|c id IH]; [reflexivity|].
    cbn [existsChar]. now rewrite IH, negb_involutive.
  - unfold Renderer.dquote. now rewrite Ascii.eqb_refl.
Qed.

(** A valid marker at the start of a string is one segment. *)
Lemma scan_marker (id rest : string) :
  validId id = true ->
  scanMarkers (markerOf id +:+ rest) = Marker id :: scanMarkers rest.
Proof.
  intros Hid. unfold scanMarkers.
  pose proof (matchMarker_marker id rest Hid) as Hm.
  remember (markerOf id) as m eqn:Em.
  assert (exists c tail, m = String c tail) as (c & tail & ->).
  { subst m. unfold markerOf, markerOpen. eexists. eexists. reflexivity. }
  rewrite append_cons in *. cbn [scanFrom]. rewrite Hm.
  f_equal. simpl String.length. rewrite Nat.sub_1_r. simpl Nat.pred.
  apply scanFrom_skip.
Qed.

(** Text without [<] is scanned character by character. *)
Lemma scan_plain (plain rest : string) :
  existsChar (fun c => Ascii.eqb c "<"%char) plain = false ->
  scanMarkers (plain +:+ rest)
  = map Lit (list_ascii_of_string plain) ++ scanMarkers rest.
Proof.
  unfold scanMarkers. induction plain as [|c plain IH]; intros H.
  - reflexivity.
  - cbn [existsChar] in H. apply orb_false_elim in H as [Hc Hp].
    rewrite append_cons. cbn [scanFrom].
    assert (matchMarker (String c (plain +:+ rest)) = None) as ->.
    { unfold matchMarker, startsWith, markerOpen.
      cbv [String.append]. cbn [String.prefix].
      destruct (ascii_dec "<" c) as [<-|]; [discriminate | reflexivity]. }
    simpl. now rewrite (IH Hp).
Qed.

(** * Further properties *)

(** ** The characters that a pattern consumes *)

Lemma forallChar_app (q : ascii -> bool) (a b : string) :
  forallChar q (a +:+ b) = forallChar q a && forallChar q b.
Proof.
  induction a as [|c a IH]; [reflexivity|].
  rewrite append_cons. simpl. now rewrite IH, andb_assoc.
Qed.

Lemma forallChar_impl (q q' : ascii -> bool) (s : string) :
  (forall c, q c = true -> q' c = true) ->
  forallChar q s = true -> forallChar q' s = true.
Proof.
  intros H. induction s as [|c s IH]; [reflexivity|]. simpl.
  intros Hs. apply andb_prop in Hs as [Hc Hs].
  now rewrite (H _ Hc), (IH Hs).
Qed.

Lemma matches_usesOnly (q : ascii -> bool) (r : Re.t) :
  usesOnly q r ->
  forall s s', matches r s s' ->
    exists m, s = m +:+ s' /\ forallChar q m = true.
Proof.
  induction r as [|p|r1 IH1 r2 IH2|r1 IH1 r2 IH2|r IH|r IH|]; intros Hu s s' H;
    simpl in H, Hu.
  - subst. now exists EmptyString.
  - destruct H as (c & -> & Hc). exists (String c EmptyString).
    split; [reflexivity|]. simpl. now rewrite (Hu _ Hc).
  - destruct Hu as [Hu1 Hu2]. destruct H as (m & H1 & H2).
    destruct (IH1 Hu1 _ _ H1) as (m1 & -> & Hm1).
    destruct (IH2 Hu2 _ _ H2) as (m2 & -> & Hm2).
    exists (m1 +:+ m2). split; [now rewrite append_assoc|].
    now rewrite forallChar_app, Hm1, Hm2.
  - destruct Hu as [Hu1 Hu2].
    destruct H as [H | H]; [now apply IH1 | now apply IH2].
  - induction H as [s | s s1 s2 H1 _ IHr].
    + now exists EmptyString.
    + destruct (IH Hu _ _ H1) as (m1 & -> & Hm1).
      destruct IHr as (m2 & -> & Hm2).
      exists (m1 +:+ m2). split; [now rewrite append_assoc|].
      now rewrite forallChar_app, Hm1, Hm2.
  - destruct H as [-> _]. now exists EmptyString.
  - destruct H as [-> _]. now exists EmptyString.
Qed.

Lemma matches_endsAtEnd (r : Re.t) :
  endsAtEnd r -> forall s s', matches r s s' -> s' = EmptyString.
Proof.
  induction r as [|p|r1 IH1 r2 IH2|r1 IH1 r2 IH2|r IH|r IH|]; intros He s s' H;
    simpl in H, He; try contradiction.
  - destruct H as (m & _ & H2). now apply (IH2 He m).
  - destruct He as [He1 He2].
    destruct H as [H | H]; [now apply (IH1 He1 s) | now apply (IH2 He2 s)].
  - destruct H as [-> ->]. reflexivity.
Qed.

(** A string that an anchored pattern accepts is made of the characters
    that the pattern consumes. *)
Lemma test_chars (q : ascii -> bool) (r : Re.t) (s : string) :
  usesOnly q r -> endsAtEnd r -> Re.test r s = true -> forallChar q s = true.
Proof.
  intros Hu He Ht. apply test_matches in Ht as (s' & H).
  pose proof (matches_endsAtEnd r He _ _ H) as ->.
  destruct (matches_usesOnly q r Hu _ _ H) as (m & -> & Hm).
  now rewrite append_nil_r.
Qed.

Lemma usesOnly_lit (q : ascii -> bool) (p : string) :
  forallChar q p = true -> usesOnly q (Re.lit p).
Proof.
  induction p as [|c p IH]; simpl; [easy|].
  intros H. apply andb_prop in H as [Hc Hp]. split; [|now apply IH].
  intros x Hx. apply Ascii.eqb_eq in Hx. now subst.
Qed.

(** ** Lists *)

Lemma find_app {A} (f : A -> bool) (a b : list A) :
  List.find f (a ++ b)
  = match List.find f a with Some x => Some x | None => List.find f b end.
Proof.
  induction a as [|x a IH]; simpl; [reflexivity|].
  destruct (f x); [reflexivity | exact IH].
Qed.

Lemma filter_comm {A} (f g : A -> bool) (l : list A) :
  List.filter f (List.filter g l) = List.filter g (List.filter f l).
Proof.
  induction l as [|a l IH]; simpl; [reflexivity|].
  destruct (f a) eqn:Ef, (g a) eqn:Eg; simpl; rewrite ?Ef, ?Eg, IH;
    reflexivity.
Qed.

Lemma filter_app_list {A} (f : A -> bool) (a b : list A) :
  List.filter f (a ++ b) = List.filter f a ++ List.filter f b.
Proof.
  induction a as [|x a IH]; simpl; [reflexivity|].
  destruct (f x); simpl; now rewrite IH.
Qed.

Lemma filter_sublist {A} (f : A -> bool) (l : list A) :
  sublist (List.filter f l) l.
Proof.
  induction l as [|a l IH]; simpl; [constructor|].
  destruct (f a); now constructor.
Qed.

Lemma find_filter_snoc {A} (keep wanted : A -> bool) (l : list A) (x : A) :
  (forall a, In a l -> wanted a = true -> keep a = false) ->
  wanted x = true ->
  find wanted (List.filter keep l ++ [x]) = Some x.
Proof.
  intros Hl Hx. unfold find. rewrite find_app.
  destruct (List.find wanted (List.filter keep l)) as [a|] eqn:E.
  - apply find_some in E as [Hin Ha]. apply filter_In in Hin as [Hin Hk].
    rewrite (Hl _ Hin Ha) in Hk. discriminate.
  - simpl. now rewrite Hx.
Qed.

(** ** Joining and splitting class lists *)

Lemma split_join (l : list string) :
  l <> [] -> Forall (fun w => hasSpace w = false) l -> split (join l) = l.
Proof.
  unfold split. intros Hne H. induction H as [|x l Hs Hl IH]; [congruence|].
  destruct l as [|y l].
  - cbn [join]. now rewrite (splitAux_plain _ _ Hs), append_nil.
  - change (join (x :: y :: l)) with (x +:+ String " " (join (y :: l))).
    rewrite (splitAux_token _ _ _ Hs), append_nil.
    f_equal. apply IH. discriminate.
Qed.

Lemma words_join_filter (l : list string) :
  Forall (fun w => hasSpace w = false) l ->
  words (join l) = List.filter truthy l.
Proof.
  intros H. destruct l as [|x l]; [reflexivity|].
  unfold words. now rewrite split_join.
Qed.

Lemma filter_words_tokens (f : string -> bool) (s : string) :
  words (join (List.filter f (words s))) = List.filter f (words s).
Proof.
  apply words_join. apply List.Forall_forall. intros w Hin.
  apply filter_In in Hin as [Hin _]. split.
  - unfold words in Hin. now apply filter_In in Hin as [_ Ht].
  - now apply (words_no_space s).
Qed.

Lemma words_empty (s : string) : truthy s = false -> words s = [].
Proof. destruct s; [reflexivity | discriminate]. Qed.

Lemma filterNeutralClasses_tokens (s : string) :
  words (filterNeutralClasses s)
  = List.filter (fun cls => negb (hasStateModifier cls)) (words s).
Proof.
  unfold filterNeutralClasses. destruct (truthy s) eqn:E; simpl.
  - apply filter_words_tokens.
  - now rewrite (words_empty _ E).
Qed.

Lemma keptAtBreakpoint_plain (breakpoint cls : string) :
  hasSpace cls = false ->
  keptAtBreakpoint breakpoint cls
  = let hasMd := startsWith "md:" cls in
    let hasLg := startsWith "lg:" cls in
    if negb hasMd && negb hasLg then true
    else if String.eqb breakpoint "mobile" then false
    else if String.eqb breakpoint "tablet" then hasMd && negb hasLg
    else if String.eqb breakpoint "desktop" then hasMd || hasLg
    else false.
Proof.
  intros H. unfold keptAtBreakpoint.
  now rewrite !(includes_needs_space _ _ H), !orb_false_r.
Qed.

Lemma md_not_lg (cls : string) :
  startsWith "md:" cls = true -> startsWith "lg:" cls = false.
Proof.
  unfold startsWith. destruct cls as [|c cls]; [discriminate|].
  cbn [String.prefix].
  destruct (ascii_dec "m" c) as [<-|]; [reflexivity | discriminate].
Qed.

(** At the tablet breakpoint the filter of the renderer keeps the classes
    of the class string that do not start with [lg:], and at the desktop
    breakpoint it keeps every class; a breakpoint name that is none of
    [mobile], [tablet] and [desktop] keeps what [mobile] keeps. *)
Theorem breakpoint_filter_cascade (classesString : string) :
  (forall cls,
     In cls (words (filterClassesByBreakpoint classesString "tablet"))
     <-> In cls (words classesString) /\ startsWith "lg:" cls = false)
  /\ words (filterClassesByBreakpoint classesString "desktop")
     = words classesString
  /\ (forall breakpoint,
        breakpoint <> "mobile" -> breakpoint <> "tablet" ->
        breakpoint <> "desktop" ->
        words (filterClassesByBreakpoint classesString breakpoint)
        = words (filterClassesByBreakpoint classesString "mobile")).
Proof.
  split; [|split].
  - intros cls. rewrite filteredClasses_tokens. unfold filteredClasses.
    rewrite filter_In. split.
    + intros [Hin Hk]. split; [exact Hin|].
      rewrite (keptAtBreakpoint_plain _ _ (words_no_space _ _ Hin)) in Hk.
      cbv zeta in Hk. simpl String.eqb in Hk.
      destruct (startsWith "lg:" cls); [|reflexivity].
      now destruct (startsWith "md:" cls).
    + intros [Hin Hlg]. split; [exact Hin|].
      rewrite (keptAtBreakpoint_plain _ _ (words_no_space _ _ Hin)).
      cbv zeta. rewrite Hlg. simpl String.eqb.
      now destruct (startsWith "md:" cls).
  - rewrite filteredClasses_tokens. unfold filteredClasses.
    apply forallb_filter_id. apply forallb_forall. intros cls Hin.
    rewrite (keptAtBreakpoint_plain _ _ (words_no_space _ _ Hin)).
    cbv zeta. simpl String.eqb.
    now destruct (startsWith "md:" cls), (startsWith "lg:" cls).
  - intros breakpoint Hm Ht Hd. rewrite !filteredClasses_tokens.
    unfold filteredClasses. apply filter_ext_in. intros cls Hin.
    rewrite !(keptAtBreakpoint_plain _ _ (words_no_space _ _ Hin)).
    cbv zeta. simpl (String.eqb "mobile" "mobile").
    apply String.eqb_neq in Hm, Ht, Hd. now rewrite Hm, Ht, Hd.
Qed.

(** Filtering by a breakpoint a second time changes nothing, whatever the
    class string and the breakpoint name. *)
Theorem filterClassesByBreakpoint_idempotent (classesString breakpoint : string) :
  filterClassesByBreakpoint
    (filterClassesByBreakpoint classesString breakpoint) breakpoint
  = filterClassesByBreakpoint classesString breakpoint.
Proof.
  unfold filterClassesByBreakpoint at 1.
  destruct (truthy (filterClassesByBreakpoint classesString breakpoint));
    simpl; [|reflexivity].
  unfold filteredClasses at 1. rewrite filteredClasses_tokens.
  unfold filteredClasses. rewrite filter_idempotent.
  unfold filterClassesByBreakpoint.
  destruct classesString; reflexivity.
Qed.

(** ** The neutral filter *)

Lemma eqb_slice_prefix (p cls : string) :
  truthy p = true -> startsWith p cls = true ->
  String.eqb (slice (String.length p) cls) cls = false.
Proof.
  intros Hp H. apply startsWith_split in H.
  apply String.eqb_neq. intros Heq. rewrite <- Heq in H at 1.
  apply (f_equal String.length) in H. rewrite length_append in H.
  destruct p; [discriminate | simpl in H; lia].
Qed.

Lemma startsWith_other (p q cls : string) :
  startsWith p cls = true ->
  (forall rest, startsWith q (p +:+ rest) = false) ->
  startsWith q cls = false.
Proof.
  intros H Hq. apply startsWith_split in H. rewrite H. apply Hq.
Qed.

Lemma afterBreakpointPrefix_strip (cls : string) :
  afterBreakpointPrefix cls = stripBreakpointPrefix cls.
Proof. reflexivity. Qed.

Lemma stateModifiers_direct (cls : string) :
  existsb (fun modifier => startsWith modifier cls) stateModifiers
  = hasStatePrefix cls.
Proof. reflexivity. Qed.

Lemma hasBreakpointStatePrefix_split (cls : string) :
  hasBreakpointStatePrefix cls
  = existsb (fun b => startsWith (b +:+ ":") cls
                      && hasStatePrefix (slice (String.length (b +:+ ":")) cls))
      breakpointWords.
Proof.
  unfold hasBreakpointStatePrefix, hasStatePrefix.
  apply existsb_ext_all. intros b. rewrite andb_existsb.
  apply existsb_ext_all. intros w.
  rewrite <- (append_assoc b ":" (w +:+ ":")).
  apply startsWith_append.
Qed.

(** The renderer and the parser of the mapper take the same classes for
    state classes. *)
Lemma hasStateModifier_carries (cls : string) :
  hasStateModifier cls = carriesStatePrefix cls.
Proof.
  unfold hasStateModifier, carriesStatePrefix.
  rewrite stateModifiers_direct.
  destruct (hasStatePrefix cls) eqn:Hd; [reflexivity|]. simpl.
  rewrite hasBreakpointStatePrefix_split.
  unfold afterBreakpointPrefix, breakpointWords. cbn [existsb].
  change ("max-lg" +:+ ":") with "max-lg:".
  change ("max-md" +:+ ":") with "max-md:".
  change ("lg" +:+ ":") with "lg:". change ("md" +:+ ":") with "md:".
  rewrite orb_false_r.
  destruct (startsWith "max-lg:" cls) eqn:E1.
  { rewrite (eqb_slice_prefix "max-lg:") by easy.
    rewrite (startsWith_other _ "max-md:" _ E1) by reflexivity.
    rewrite (startsWith_other _ "lg:" _ E1) by reflexivity.
    rewrite (startsWith_other _ "md:" _ E1) by reflexivity.
    cbn [negb andb orb]. unfold hasStatePrefix, stateWords.
    cbn [existsb]. now rewrite ?orb_false_r. }
  destruct (startsWith "max-md:" cls) eqn:E2.
  { rewrite (eqb_slice_prefix "max-md:") by easy.
    rewrite (startsWith_other _ "lg:" _ E2) by reflexivity.
    rewrite (startsWith_other _ "md:" _ E2) by reflexivity.
    cbn [negb andb orb]. unfold hasStatePrefix, stateWords.
    cbn [existsb]. now rewrite ?orb_false_r. }
  destruct (startsWith "lg:" cls) eqn:E3.
  { rewrite (eqb_slice_prefix "lg:") by easy.
    rewrite (startsWith_other _ "md:" _ E3) by reflexivity.
    cbn [negb andb orb]. unfold hasStatePrefix, stateWords.
    cbn [existsb]. now rewrite ?orb_false_r. }
  destruct (startsWith "md:" cls) eqn:E4.
  { rewrite (eqb_slice_prefix "md:") by easy.
    cbn [negb andb orb]. unfold hasStatePrefix, stateWords.
    cbn [existsb]. now rewrite ?orb_false_r. }
  now rewrite String.eqb_refl.
Qed.

(** In the neutral state the renderer keeps the classes of the class
    string that carry no interaction-state prefix, neither bare nor behind
    one of the breakpoint prefixes [max-lg:], [max-md:], [lg:] and [md:];
    filtering a second time changes nothing. *)
Theorem filterNeutralClasses_keeps (classesString : string) :
  (forall cls,
     In cls (words (filterNeutralClasses classesString))
     <-> In cls (words classesString) /\ carriesStatePrefix cls = false)
  /\ filterNeutralClasses (filterNeutralClasses classesString)
     = filterNeutralClasses classesString.
Proof.
  split.
  - intros cls. rewrite filterNeutralClasses_tokens, filter_In.
    rewrite hasStateModifier_carries, negb_true_iff. reflexivity.
  - unfold filterNeutralClasses at 1.
    destruct (truthy (filterNeutralClasses classesString)); simpl;
      [|reflexivity].
    rewrite filterNeutralClasses_tokens, filter_idempotent.
    unfold filterNeutralClasses. destruct classesString; reflexivity.
Qed.

(** The design that the mapper parses from a class string is the design
    that it parses from what the neutral filter of the renderer leaves of
    it: the two agree on which classes belong to an interaction state. *)
Theorem neutral_filter_keeps_design (classesString : string) :
  classesToDesign (ClassString (filterNeutralClasses classesString))
  = classesToDesign (ClassString classesString).
Proof.
  unfold classesToDesign, classListOf.
  rewrite filterNeutralClasses_tokens.
  rewrite (parseClasses_drop_carriers (words classesString)).
  f_equal. apply filter_ext. intros cls.
  now rewrite hasStateModifier_carries.
Qed.

Lemma join_truthy (x : string) (l : list string) :
  truthy x = true -> truthy (join (x :: l)) = true.
Proof.
  intros H. destruct x as [|c x]; [discriminate|]. now destruct l.
Qed.

Lemma refilter_joined (f : string -> bool) (l : list string) :
  Forall (fun w => truthy w = true /\ hasSpace w = false) l ->
  (if negb (truthy (join l)) then join l
   else join (List.filter f (words (join l))))
  = join (List.filter f l).
Proof.
  intros H. destruct l as [|x l]; [reflexivity|].
  rewrite join_truthy by (now inversion H as [|? ? [? ?]]).
  simpl negb. cbv iota. now rewrite words_join.
Qed.

Lemma words_clean (s : string) :
  Forall (fun w => truthy w = true /\ hasSpace w = false) (words s).
Proof.
  apply List.Forall_forall. intros w Hin. split.
  - unfold words in Hin. now apply filter_In in Hin as [_ Ht].
  - now apply (words_no_space s).
Qed.

Lemma filter_clean (f : string -> bool) (l : list string) :
  Forall (fun w => truthy w = true /\ hasSpace w = false) l ->
  Forall (fun w => truthy w = true /\ hasSpace w = false) (List.filter f l).
Proof.
  rewrite !List.Forall_forall. intros H w Hin.
  apply filter_In in Hin as [Hin _]. now apply H.
Qed.

(** In the neutral state [getClassesString] filters by the breakpoint and
    then by the state; the two filters can be taken in either order. *)
Theorem getClassesString_neutral_commutes
  (currentBreakpoint : string) (layerClasses : option LayerClasses) :
  let classes :=
    match layerClasses with
    | Some (ClassesArray l) => join l
    | Some (ClassesString s) => s
    | None => EmptyString
    end in
  getClassesString currentBreakpoint "neutral" layerClasses
  = filterClassesByBreakpoint (filterNeutralClasses classes) currentBreakpoint.
Proof.
  intros classes. unfold getClassesString. fold classes.
  simpl String.eqb. cbv iota.
  unfold filterNeutralClasses at 1, filterClassesByBreakpoint at 2.
  unfold filterClassesByBreakpoint, filterNeutralClasses, filteredClasses.
  destruct (truthy classes) eqn:E; simpl negb; cbv iota.
  - rewrite !refilter_joined by apply filter_clean, words_clean.
    now rewrite filter_comm.
  - destruct classes; [reflexivity | discriminate].
Qed.

(** ** The property prefix of a class *)

Lemma existsChar_app (f : ascii -> bool) (a b : string) :
  existsChar f (a +:+ b) = existsChar f a || existsChar f b.
Proof.
  induction a as [|c a IH]; [reflexivity|].
  rewrite append_cons. simpl. now rewrite IH, orb_assoc.
Qed.

Lemma forallChar_existsChar (q : ascii -> bool) (s : string) :
  forallChar q s = true -> existsChar (fun c => negb (q c)) s = false.
Proof.
  induction s as [|c s IH]; [reflexivity|]. simpl. intros H.
  apply andb_prop in H as [Hc Hs]. now rewrite Hc, (IH Hs).
Qed.

(** A literal without the character [x] is a prefix of [u] followed by
    [x] only when it is a prefix of [u]. *)
Lemma startsWith_before_char (w u : string) (x : ascii) (rest : string) :
  existsChar (Ascii.eqb x) w = false ->
  startsWith w (u +:+ String x rest) = startsWith w u.
Proof.
  unfold startsWith. revert u. induction w as [|c w IH]; intros u H.
  - now rewrite !prefix_nil.
  - cbn [existsChar] in H. apply orb_false_elim in H as [Hc Hw].
    destruct u as [|d u].
    + rewrite append_nil. cbn [String.prefix].
      destruct (ascii_dec c x) as [->|]; [|reflexivity].
      now rewrite Ascii.eqb_refl in Hc.
    + rewrite append_cons. cbn [String.prefix].
      destruct (ascii_dec c d); [now apply IH | reflexivity].
Qed.

Lemma startsWith_chars (q : ascii -> bool) (w s : string) :
  startsWith w s = true -> forallChar q s = true -> forallChar q w = true.
Proof.
  intros H Hs. apply startsWith_split in H. rewrite H in Hs.
  rewrite forallChar_app in Hs. now apply andb_prop in Hs as [Hw _].
Qed.

Lemma startsWith_snoc (w u : string) (x : ascii) :
  startsWith (w +:+ String x EmptyString) (u +:+ String x EmptyString) = true ->
  startsWith (w +:+ String x EmptyString) u = false -> u = w.
Proof.
  unfold startsWith. revert u. induction w as [|c w IH]; intros u H Hn.
  - rewrite append_nil in *. destruct u as [|d u]; [reflexivity|].
    rewrite append_cons in H. cbn [String.prefix] in H, Hn.
    destruct (ascii_dec x d); [|discriminate].
    now rewrite prefix_nil in Hn.
  - rewrite append_cons in *. destruct u as [|d u].
    + rewrite append_nil in H. cbn [String.prefix] in H.
      destruct (ascii_dec c x); [|discriminate].
      destruct w; [rewrite append_nil in H | rewrite append_cons in H];
        discriminate.
    + rewrite append_cons in H. cbn [String.prefix] in H, Hn.
      destruct (ascii_dec c d) as [->|]; [|discriminate].
      f_equal. now apply IH.
Qed.

Lemma listIncludes_by_char (f : ascii -> bool) (cls : string)
  (l : list string) :
  existsChar f cls = true ->
  forallb (fun m => negb (existsChar f m)) l = true ->
  listIncludes cls l = false.
Proof.
  intros Hc Hl. apply not_true_is_false. intros H.
  unfold listIncludes in H. apply existsb_exists in H as (m & Hin & Heq).
  apply String.eqb_eq in Heq. subst m.
  rewrite forallb_forall in Hl. specialize (Hl _ Hin).
  now rewrite Hc in Hl.
Qed.

Lemma takeChars_stop (p : ascii -> bool) (a : string) (c : ascii)
  (rest : string) :
  forallChar p a = true -> p c = false ->
  takeChars p (a +:+ String c rest) = a.
Proof.
  intros Ha Hc. induction a as [|x a IH].
  - rewrite append_nil. simpl. now rewrite Hc.
  - simpl in Ha. apply andb_prop in Ha as [Hx Ha].
    rewrite append_cons. cbn [takeChars]. now rewrite Hx, (IH Ha).
Qed.

Lemma beforeLastDash_snoc (u : string) :
  truthy u = true -> forallChar isLowerOrDash u = true ->
  beforeLastDash (u +:+ "-") = Some u.
Proof.
  induction u as [|c u IH]; [discriminate|]. intros _ H.
  rewrite append_cons. cbn [beforeLastDash].
  destruct u as [|d u].
  - reflexivity.
  - simpl in H. apply andb_prop in H as [_ H]. now rewrite IH.
Qed.

Lemma namedColor_chars (family cls : string) :
  forallChar (fun c => isLowerOrDash c || Re.isDigit c) family = true ->
  Re.test (reNamedColor family) cls = true ->
  forallChar (fun c => isLowerOrDash c || Re.isDigit c) cls = true.
Proof.
  intros Hf. apply test_chars.
  - unfold reNamedColor, Re.seqs, Re.plus. cbn [usesOnly].
    repeat split; try (now apply usesOnly_lit).
    + intros c H. unfold isLowerOrDash. now rewrite H.
    + intros c H. unfold isLowerOrDash. now rewrite H.
    + intros c H. apply Ascii.eqb_eq in H. now subst.
    + intros c H. now rewrite H, orb_true_r.
    + intros c H. now rewrite H, orb_true_r.
  - unfold reNamedColor, Re.seqs. cbn [endsAtEnd]. exact I.
Qed.

(** [getClassPrefix] keeps a leading [max-lg:] or [max-md:] and works
    on what follows it: the prefix of a class behind one of the two is the
    prefix of the class, behind the same. *)
Theorem getClassPrefix_breakpoint (breakpointPrefix cls : string) :
  In breakpointPrefix ["max-lg:"; "max-md:"] ->
  startsWith "max-lg:" cls = false -> startsWith "max-md:" cls = false ->
  getClassPrefix (breakpointPrefix +:+ cls)
  = breakpointPrefix +:+ getClassPrefix cls.
Proof.
  intros Hb Hlg Hmd. unfold getClassPrefix at 2. rewrite Hlg, Hmd.
  destruct Hb as [<- | [<- | []]]; unfold getClassPrefix.
  - rewrite (startsWith_app "max-lg:").
    change 7 with (String.length "max-lg:"). rewrite slice_app.
    repeat match goal with
           | |- context [if ?b then _ else _] => destruct b
           end; try reflexivity.
    destruct (propertyPart cls); reflexivity.
  - assert (startsWith "max-lg:" ("max-md:" +:+ cls) = false) as ->
      by reflexivity.
    rewrite (startsWith_app "max-md:").
    change 7 with (String.length "max-md:"). rewrite slice_app.
    repeat match goal with
           | |- context [if ?b then _ else _] => destruct b
           end; try reflexivity.
    destruct (propertyPart cls); reflexivity.
Qed.

Lemma getClassPrefix_breakpoint_witness :
  getClassPrefix ("max-lg:" +:+ "flex-col") = "max-lg:" +:+ getClassPrefix "flex-col".
Proof.
  apply getClassPrefix_breakpoint; [left; reflexivity | reflexivity..].
Defined.

(** The classes of one utility with an arbitrary value share their
    prefix, whatever the value: for a utility name made of lowercase
    letters and dashes that does not start with [justify-] or [items-], the
    prefix of [utility-[value...] is [utility-]. *)
Theorem getClassPrefix_arbitrary (utility value : string) :
  truthy utility = true ->
  forallChar isLowerOrDash utility = true ->
  startsWith "justify-" utility = false ->
  startsWith "items-" utility = false ->
  getClassPrefix (utility +:+ "-[" +:+ value) = utility +:+ "-".
Proof.
  intros Ht Hu Hj Hi.
  set (cls := utility +:+ "-[" +:+ value).
  assert (cls = (utility +:+ "-") +:+ String "[" value) as Hcls
    by (unfold cls; now rewrite append_assoc).
  assert (forallChar isLowerOrDash (utility +:+ "-") = true) as Hud
    by (now rewrite forallChar_app, Hu).
  assert (existsChar (Ascii.eqb "[") cls = true) as Hbracket.
  { rewrite Hcls, existsChar_app. simpl. now rewrite orb_true_r. }
  assert (forall w, existsChar (Ascii.eqb "[") w = false ->
                    startsWith w cls = startsWith w (utility +:+ "-"))
    as Hprefix
    by (intros w Hw; rewrite Hcls; now apply startsWith_before_char).
  assert (forall w, forallChar isLowerOrDash w = false ->
                    existsChar (Ascii.eqb "[") w = false ->
                    startsWith w cls = false) as Hforeign.
  { intros w Hw Hb. rewrite (Hprefix _ Hb).
    apply not_true_is_false. intros H.
    now rewrite (startsWith_chars _ _ _ H Hud) in Hw. }
  assert (forall family,
            forallChar (fun c => isLowerOrDash c || Re.isDigit c) family = true ->
            Re.test (reNamedColor family) cls = false) as Hnamed.
  { intros family Hf. apply not_true_is_false. intros H.
    apply (namedColor_chars _ _ Hf) in H.
    apply forallChar_existsChar in H.
    rewrite Hcls, existsChar_app in H. apply orb_false_elim in H as [_ H].
    discriminate. }
  unfold getClassPrefix. fold cls.
  rewrite !Hforeign by reflexivity.
  rewrite !(listIncludes_by_char (Ascii.eqb "[") cls) by easy.
  rewrite !Hnamed by reflexivity.
  assert (propertyPart cls = Some utility) as Hpart.
  { unfold propertyPart. rewrite Hcls, takeChars_stop by easy.
    now apply beforeLastDash_snoc. }
  destruct (startsWith "justify-" cls) eqn:Ej.
  { rewrite Hprefix in Ej by reflexivity.
    now rewrite (startsWith_snoc "justify" utility "-" Ej Hj). }
  destruct (startsWith "items-" cls) eqn:Ei.
  { rewrite Hprefix in Ei by reflexivity.
    now rewrite (startsWith_snoc "items" utility "-" Ei Hi). }
  now rewrite Hpart.
Qed.

Lemma getClassPrefix_arbitrary_witness :
  getClassPrefix ("rounded-tl" +:+ "-[" +:+ "3px]") = "rounded-tl" +:+ "-".
Proof. apply getClassPrefix_arbitrary; reflexivity. Defined.

(** ** Activating the classes of a state *)

Lemma hasSpace_app (a b : string) :
  hasSpace (a +:+ b) = hasSpace a || hasSpace b.
Proof. apply existsChar_app. Qed.

Lemma hasSpace_slice (n : nat) (s : string) :
  hasSpace s = false -> hasSpace (slice n s) = false.
Proof.
  revert s. induction n as [|n IH]; intros s H; [exact H|].
  destruct s as [|c s]; [reflexivity|].
  unfold hasSpace in H. cbn [existsChar] in H.
  apply orb_false_elim in H as [_ H]. now apply IH.
Qed.

Lemma activatedBy_no_space (statePrefix cls activated classPrefix : string) :
  hasSpace cls = false ->
  activatedBy statePrefix cls = Some (activated, classPrefix) ->
  hasSpace activated = false.
Proof.
  intros Hs. unfold activatedBy. cbv zeta.
  set (b1 := slice (String.length statePrefix) cls).
  set (b2 := slice (String.length ("max-lg:" +:+ statePrefix)) cls).
  set (b3 := slice (String.length ("max-md:" +:+ statePrefix)) cls).
  assert (hasSpace b1 = false) as H1 by now apply hasSpace_slice.
  assert (hasSpace b2 = false) as H2 by now apply hasSpace_slice.
  assert (hasSpace b3 = false) as H3 by now apply hasSpace_slice.
  clearbody b1 b2 b3.
  repeat match goal with
         | |- context [if ?b then _ else _] => destruct b
         end; intros H; try discriminate; injection H as <- _;
    rewrite ?hasSpace_app, ?H1, ?H2, ?H3; reflexivity.
Qed.

Lemma activatedBy_isOfState (statePrefix cls : string) :
  activatedBy statePrefix cls = None <-> isOfState statePrefix cls = false.
Proof.
  unfold activatedBy, isOfState.
  destruct (startsWith statePrefix cls); [easy|].
  destruct (startsWith ("max-lg:" +:+ statePrefix) cls); [easy|].
  destruct (startsWith ("max-md:" +:+ statePrefix) cls); easy.
Qed.

Lemma firstPass_classes (statePrefix : string) (l : list string) :
  forall acc x,
    In x (activatedClasses (fold_left (firstPass statePrefix) l acc))
    <-> In x (activatedClasses acc)
        \/ exists cls classPrefix,
             In cls l /\ activatedBy statePrefix cls = Some (x, classPrefix).
Proof.
  induction l as [|c l IH]; intros acc x; simpl.
  - split; [now left | intros [H | (? & ? & [] & _)]; exact H].
  - rewrite IH. unfold firstPass.
    destruct (activatedBy statePrefix c) as [[a p]|] eqn:E; simpl.
    + rewrite in_app_iff. simpl. split.
      * intros [[H | [<- | []]] | (cls & q & Hin & Hq)].
        -- now left.
        -- right. exists c, p. split; [now left | exact E].
        -- right. exists cls, q. split; [now right | exact Hq].
      * intros [H | (cls & q & [<- | Hin] & Hq)].
        -- left. now left.
        -- rewrite E in Hq. injection Hq as <- _. left. right. now left.
        -- right. exists cls, q. now split.
    + split.
      * intros [H | (cls & q & Hin & Hq)]; [now left|].
        right. exists cls, q. split; [now right | exact Hq].
      * intros [H | (cls & q & [<- | Hin] & Hq)]; [now left | congruence |].
        right. exists cls, q. now split.
Qed.

Lemma firstPass_tracked (statePrefix : string) (l : list string) :
  forall acc p,
    p ∈ activatedBaseClasses (fold_left (firstPass statePrefix) l acc)
    <-> p ∈ activatedBaseClasses acc
        \/ exists cls activated,
             In cls l /\ activatedBy statePrefix cls = Some (activated, p).
Proof.
  induction l as [|c l IH]; intros acc p; simpl.
  - split; [now left | intros [H | (? & ? & [] & _)]; exact H].
  - rewrite IH. unfold firstPass.
    destruct (activatedBy statePrefix c) as [[a q]|] eqn:E; simpl.
    + rewrite elem_of_union, elem_of_singleton. split.
      * intros [[-> | H] | (cls & b & Hin & Hq)].
        -- right. exists c, a. split; [now left | exact E].
        -- now left.
        -- right. exists cls, b. split; [now right | exact Hq].
      * intros [H | (cls & b & [<- | Hin] & Hq)].
        -- left. now right.
        -- rewrite E in Hq. injection Hq as _ <-. left. now left.
        -- right. exists cls, b. now split.
    + split.
      * intros [H | (cls & b & Hin & Hq)]; [now left|].
        right. exists cls, b. split; [now right | exact Hq].
      * intros [H | (cls & b & [<- | Hin] & Hq)]; [now left | congruence |].
        right. exists cls, b. now split.
Qed.

Lemma secondPass_classes (statePrefix : string) (otherStates : list string)
  (tracked : gset string) (l : list string) :
  forall acc x,
    In x (fold_left (secondPass statePrefix otherStates tracked) l acc)
    <-> In x acc
        \/ (In x l /\ isOfState statePrefix x = false
            /\ isOtherState otherStates x = false
            /\ getClassPrefix x ∉ tracked).
Proof.
  induction l as [|c l IH]; intros acc x; simpl.
  - split; [now left | intros [H | [[] _]]; exact H].
  - rewrite IH. unfold secondPass.
    destruct (isOfState statePrefix c) eqn:E1;
      [|destruct (isOtherState otherStates c) eqn:E2;
        [|destruct (bool_decide (getClassPrefix c ∈ tracked)) eqn:E3]].
    + split; [intros [H | (Hin & H)]; [now left | right; tauto]|].
      intros [H | ([<- | Hin] & H1 & H)]; [now left | congruence | right; tauto].
    + split; [intros [H | (Hin & H)]; [now left | right; tauto]|].
      intros [H | ([<- | Hin] & H1 & H2 & H)];
        [now left | congruence | right; tauto].
    + apply bool_decide_eq_true in E3.
      split; [intros [H | (Hin & H)]; [now left | right; tauto]|].
      intros [H | ([<- | Hin] & H1 & H2 & H)];
        [now left | contradiction | right; tauto].
    + apply bool_decide_eq_false in E3. rewrite in_app_iff. simpl. split.
      * intros [[H | [<- | []]] | (Hin & H)];
          [now left | right; tauto | right; tauto].
      * intros [H | ([<- | Hin] & H)];
          [left; now left | left; right; now left | right; tauto].
Qed.

Lemma secondPass_no_space (statePrefix : string) (otherStates : list string)
  (tracked : gset string) (l acc : list string) :
  Forall (fun w => hasSpace w = false) l ->
  Forall (fun w => hasSpace w = false) acc ->
  Forall (fun w => hasSpace w = false)
    (fold_left (secondPass statePrefix otherStates tracked) l acc).
Proof.
  rewrite !List.Forall_forall. intros Hl Hacc x Hx.
  apply secondPass_classes in Hx as [H | [H _]]; auto.
Qed.

Lemma firstPass_no_space (statePrefix : string) (l : list string) :
  Forall (fun w => hasSpace w = false) l ->
  Forall (fun w => hasSpace w = false)
    (activatedClasses
       (fold_left (firstPass statePrefix) l
          {| activatedClasses := []; activatedBaseClasses := ∅ |})).
Proof.
  rewrite !List.Forall_forall. intros Hl x Hx.
  apply firstPass_classes in Hx as [[] | (cls & p & Hin & Hq)].
  eapply activatedBy_no_space; [apply Hl, Hin | exact Hq].
Qed.

Lemma words_spaceless (s : string) :
  Forall (fun w => hasSpace w = false) (words s).
Proof.
  apply List.Forall_forall. intros w. apply words_no_space.
Qed.

(** The classes that [activateStateClasses] returns for a state are, first,
    the classes of the state with the state prefix taken off (a breakpoint
    prefix [max-lg:] or [max-md:] in front of it stays), and then the classes
    of no state whose property prefix is not the tracked prefix of any of
    the former; the classes of the other states are dropped. *)
Theorem activateStateClasses_classes (classesString state : string) :
  let statePrefix := statePrefixOf state in
  forall x,
    In x (words (activateStateClasses classesString state))
    <-> truthy x = true
        /\ ((exists cls classPrefix,
               In cls (words classesString)
               /\ activatedBy statePrefix cls = Some (x, classPrefix))
            \/ (In x (words classesString)
                /\ isOfState statePrefix x = false
                /\ isOtherState (otherStatesOf statePrefix) x = false
                /\ forall cls activated classPrefix,
                     In cls (words classesString) ->
                     activatedBy statePrefix cls
                     = Some (activated, classPrefix) ->
                     getClassPrefix x <> classPrefix)).
Proof.
  intros statePrefix x. unfold activateStateClasses. fold statePrefix.
  destruct (truthy classesString) eqn:E; simpl negb; cbv iota.
  - cbv zeta. rewrite words_join_filter, filter_In.
    + rewrite secondPass_classes, firstPass_classes. simpl.
      split.
      * intros [[[[] | H] | (Hin & H1 & H2 & H3)] Ht]; split; trivial.
        -- now left.
        -- right. repeat split; trivial. intros cls a p Hcls Hq Heq.
           apply H3. rewrite Heq. apply firstPass_tracked.
           right. now exists cls, a.
      * intros [Ht [H | (Hin & H1 & H2 & H3)]]; split; trivial.
        -- left. now right.
        -- right. repeat split; trivial. intros Hp.
           apply firstPass_tracked in Hp as [Hp | (cls & a & Hcls & Hq)].
           ++ simpl in Hp. set_solver.
           ++ now apply (H3 cls a _ Hcls Hq).
    + apply secondPass_no_space;
        [apply words_spaceless | apply firstPass_no_space, words_spaceless].
  - rewrite (words_empty _ E). simpl. split; [intros [] |].
    intros [_ [(cls & _ & [] & _) | ([] & _)]].
Qed.

Lemma fold_firstPass_none (statePrefix : string) (l : list string)
  (acc : Activation) :
  Forall (fun cls => isOfState statePrefix cls = false) l ->
  fold_left (firstPass statePrefix) l acc = acc.
Proof.
  intros H. revert acc. induction H as [|c l Hc _ IH]; intros acc;
    [reflexivity|].
  simpl. unfold firstPass.
  apply activatedBy_isOfState in Hc. rewrite Hc. apply IH.
Qed.

Lemma fold_secondPass_all (statePrefix : string) (otherStates : list string)
  (l acc : list string) :
  Forall (fun cls => isOfState statePrefix cls = false
                     /\ isOtherState otherStates cls = false) l ->
  fold_left (secondPass statePrefix otherStates ∅) l acc = acc ++ l.
Proof.
  intros H. revert acc. induction H as [|c l [H1 H2] _ IH]; intros acc.
  - now rewrite app_nil_r.
  - simpl. unfold secondPass. rewrite H1, H2.
    rewrite bool_decide_eq_false_2 by set_solver.
    rewrite IH, <- app_assoc. reflexivity.
Qed.

Lemma isOtherState_subset (some all : list string) (cls : string) :
  (forall m, In m some -> In m all) ->
  isOtherState all cls = false -> isOtherState some cls = false.
Proof.
  intros Hsub H. apply not_true_is_false. intros Ht.
  unfold isOtherState in *. apply existsb_exists in Ht as (m & Hin & Hm).
  assert (existsb
            (fun otherState =>
               startsWith otherState cls
               || (startsWith ("max-lg:" +:+ otherState) cls
                   || startsWith ("max-md:" +:+ otherState) cls)) all = true)
    as Hall by (apply existsb_exists; exists m; split; auto).
  congruence.
Qed.

Lemma isOtherState_isOfState (statePrefix cls : string) :
  In statePrefix stateModifiers ->
  isOtherState stateModifiers cls = false ->
  isOfState statePrefix cls = false.
Proof.
  intros Hin H. apply not_true_is_false. intros Ht.
  unfold isOtherState in H.
  assert (existsb
            (fun otherState =>
               startsWith otherState cls
               || (startsWith ("max-lg:" +:+ otherState) cls
                   || startsWith ("max-md:" +:+ otherState) cls))
            stateModifiers = true) as Hall.
  { apply existsb_exists. exists statePrefix. split; [exact Hin|].
    unfold isOfState in Ht. now rewrite orb_assoc. }
  congruence.
Qed.

(** In each of the five states, a class string none of whose classes
    carries a state modifier, bare or behind [max-lg:] or [max-md:], keeps
    all its classes, in their order. *)
Theorem activateStateClasses_without_state_classes
  (classesString state : string) :
  In state ["hover"; "focus"; "active"; "disabled"; "current"] ->
  Forall (fun cls => isOtherState stateModifiers cls = false)
    (words classesString) ->
  words (activateStateClasses classesString state) = words classesString.
Proof.
  intros Hstate Hnone.
  assert (In (statePrefixOf state) stateModifiers) as Hprefix.
  { simpl in Hstate.
    destruct Hstate as [<- | [<- | [<- | [<- | [<- | []]]]]];
      vm_compute; tauto. }
  unfold activateStateClasses.
  destruct (truthy classesString) eqn:E; simpl negb; cbv iota;
    [|reflexivity].
  cbv zeta. rewrite fold_firstPass_none.
  - simpl. rewrite fold_secondPass_all.
    + simpl. apply words_join, words_clean.
    + eapply List.Forall_impl; [|exact Hnone]. intros cls H. split.
      * now apply isOtherState_isOfState.
      * eapply isOtherState_subset; [|exact H].
        intros m Hm. unfold otherStatesOf in Hm.
        now apply filter_In in Hm as [Hm _].
  - eapply List.Forall_impl; [|exact Hnone]. intros cls H.
    now apply isOtherState_isOfState.
Qed.

Lemma activateStateClasses_without_state_classes_witness :
  words (activateStateClasses "flex  max-lg:p-[2px] md:w-[3px]" "hover")
  = words "flex  max-lg:p-[2px] md:w-[3px]".
Proof.
  apply activateStateClasses_without_state_classes.
  - simpl. tauto.
  - vm_compute. repeat constructor.
Defined.

(** ** The layer tree *)

Lemma findLayerAt_first (id : string) :
  forall layer,
    findLayerAt id layer
    = List.find (fun l => String.eqb (layerId l) id) (layersOf layer).
Proof.
  fix IH 1. intros [lid fields children]. cbn [findLayerAt layersOf layerChildren].
  cbn [List.find layerId]. destruct (String.eqb lid id); [reflexivity|].
  destruct children as [cs|]; [|reflexivity].
  induction cs as [|c cs IHcs]; [reflexivity|].
  cbn [flat_map]. rewrite find_app, <- IH.
  destruct (findLayerAt id c); [reflexivity | exact IHcs].
Qed.

(** [findLayer] returns the first layer with the id in document order (a
    layer before the layers below it, and these before its later siblings),
    and nothing when no layer of the tree has the id. *)
Theorem findLayer_first (layers : list LayerNode) (id : string) :
  findLayer layers id
  = List.find (fun l => String.eqb (layerId l) id) (flat_map layersOf layers).
Proof.
  induction layers as [|layer rest IH]; [reflexivity|].
  cbn [findLayer flat_map]. rewrite find_app, <- findLayerAt_first.
  destruct (findLayerAt id layer); [reflexivity | exact IH].
Qed.

(** ** The tag of a layer *)

(** [getLayerHtmlTag] never returns the empty string: a tag of the
    settings that is empty is passed over for the name of the layer, and an
    empty or missing name for [div]. *)
Theorem getLayerHtmlTag_not_empty (settings : option LayerSettings)
  (name : option string) :
  truthy (getLayerHtmlTag settings name) = true.
Proof.
  unfold getLayerHtmlTag.
  assert (truthy match name with
                 | Some n => if truthy n then n else "div"
                 | None => "div"
                 end = true) as Hname.
  { destruct name as [n|]; [|reflexivity].
    destruct (truthy n) eqn:E; [exact E | reflexivity]. }
  destruct settings as [[[t|]]|]; try exact Hname.
  destruct (truthy t) eqn:E; [exact E | exact Hname].
Qed.

(** ** Conflict removal *)

Lemma removeConflictingClasses_member (classes : list string)
  (property : string) :
  isPrototypeKey property = true ->
  removeConflictingClasses classes property
  = match classes with [] => Returns [] | _ :: _ => Throws end.
Proof.
  intros Hkey. unfold removeConflictingClasses.
  rewrite (pattern_of_prototype_key _ Hkey). now destruct classes.
Qed.

(** [removeConflictingClasses] only removes, or throws.  For a property
    name that is no name of a member of [Object.prototype], it returns the
    class list with some classes left out, in the same order: the whole list
    when the registry has no pattern for the name, and otherwise at least
    every class that the pattern does not match.  For the name of a member
    of [Object.prototype], which the registry answers with that member, it
    returns the empty list as it is and throws on every other list. *)
Theorem removeConflictingClasses_only_removes
  (classes : list string) (property : string) :
  (isPrototypeKey property = false ->
   exists kept,
     removeConflictingClasses classes property = Returns kept
     /\ sublist kept classes
     /\ (getConflictingClassPattern property = None -> kept = classes)
     /\ (forall r cls,
           getConflictingClassPattern property = Some (RegExp r) ->
           In cls classes -> Re.test r cls = false -> In cls kept))
  /\ (isPrototypeKey property = true ->
      removeConflictingClasses classes property
      = match classes with [] => Returns [] | _ :: _ => Throws end).
Proof.
  split; [|apply removeConflictingClasses_member].
  intros Hkey. rewrite (removeConflictingClasses_filter _ _ Hkey).
  eexists. split; [reflexivity|]. split; [apply filter_sublist|]. split.
  - intros Hn. unfold survives. rewrite Hn. apply filter_true.
  - intros r cls Hp Hin Ht. apply filter_In. split; [exact Hin|].
    rewrite (survives_regexp _ _ _ Hp). unfold keeps. now rewrite Ht.
Qed.

(** Removing the conflicts of two properties gives the same list in
    either order, for two property names that are no names of members of
    [Object.prototype]; and both calls return. *)
Theorem removeConflictingClasses_commute
  (classes : list string) (property1 property2 : string) :
  isPrototypeKey property1 = false -> isPrototypeKey property2 = false ->
  (kept ← removeConflictingClasses classes property1;
   removeConflictingClasses kept property2)
  = (kept ← removeConflictingClasses classes property2;
     removeConflictingClasses kept property1)
  /\ exists result,
       (kept ← removeConflictingClasses classes property1;
        removeConflictingClasses kept property2)
       = Returns result.
Proof.
  intros H1 H2.
  rewrite !(removeConflictingClasses_filter _ _ H1),
    !(removeConflictingClasses_filter _ _ H2). cbn.
  rewrite !(removeConflictingClasses_filter _ _ H1),
    !(removeConflictingClasses_filter _ _ H2).
  split; [|now eexists]. f_equal. apply filter_comm.
Qed.

(** With the name of a member of [Object.prototype] the order matters:
    the removal for [constructor] throws on a list that the removal for
    [width] has not emptied before. *)
Lemma removeConflictingClasses_member_order :
  (kept ← removeConflictingClasses ["w-full"] "constructor";
   removeConflictingClasses kept "width")
  = Throws
  /\ (kept ← removeConflictingClasses ["w-full"] "width";
      removeConflictingClasses kept "constructor")
     = Returns [].
Proof. split; vm_compute; reflexivity. Qed.

(** Replacing the class of a property twice keeps the second class only:
    when the first new class is itself one that the removal for the property
    takes out, replacing with it and then with a second class gives what
    replacing with the second class alone gives; and the calls return. *)
Theorem replaceConflictingClasses_last_wins
  (classes : list string) (property first second : string) :
  removeConflictingClasses [first] property = Returns [] ->
  (replaced ← replaceConflictingClasses classes property (Some first);
   replaceConflictingClasses replaced property (Some second))
  = replaceConflictingClasses classes property (Some second)
  /\ exists result,
       replaceConflictingClasses classes property (Some second)
       = Returns result.
Proof.
  intros Hfirst.
  destruct (getConflictingClassPattern property) as [[r|key]|] eqn:Hp.
  - rewrite (removeConflictingClasses_regexp _ _ _ Hp) in Hfirst.
    assert (List.filter (keeps property r) [first] = []) as Hf
      by (now injection Hfirst).
    clear Hfirst. rename Hf into Hfirst.
    unfold replaceConflictingClasses.
    rewrite !(removeConflictingClasses_regexp _ _ _ Hp). cbn.
    split; [|destruct (truthy second); now eexists].
    assert (List.filter (keeps property r)
              (if truthy first
               then List.filter (keeps property r) classes ++ [first]
               else List.filter (keeps property r) classes)
            = List.filter (keeps property r) classes) as Hsame.
    { destruct (truthy first).
      - now rewrite filter_app_list, filter_idempotent, Hfirst, app_nil_r.
      - apply filter_idempotent. }
    destruct (truthy first); cbn;
      rewrite (removeConflictingClasses_regexp _ _ _ Hp); cbn;
      now rewrite Hsame.
  - unfold removeConflictingClasses in Hfirst. rewrite Hp in Hfirst.
    discriminate.
  - unfold removeConflictingClasses in Hfirst. rewrite Hp in Hfirst.
    discriminate.
Qed.

Lemma replaceConflictingClasses_last_wins_witness :
  (replaced ← replaceConflictingClasses ["flex"; "w-[1px]"] "width"
                (Some "w-[2px]");
   replaceConflictingClasses replaced "width" (Some "w-full"))
  = replaceConflictingClasses ["flex"; "w-[1px]"] "width" (Some "w-full").
Proof.
  apply replaceConflictingClasses_last_wins. vm_compute. reflexivity.
Defined.

(** Every property that [getAffectedProperties] lists for a class has a
    regular expression in the registry, so that [removeConflictsForClass]
    removes the conflicts of each of them; a class that no pattern matches
    and that is no bracketed [text-] or [bg-] class affects no property and
    removes nothing. *)
Theorem getAffectedProperties_in_registry (className : string) :
  Forall (fun property =>
            exists r, getConflictingClassPattern property = Some (RegExp r))
    (getAffectedProperties className)
  /\ (getAffectedProperties className = [] ->
      forall classes,
        removeConflictsForClass classes className = Returns classes).
Proof.
  split.
  - apply List.Forall_forall. intros property Hin.
    apply affected_in_registry in Hin.
    destruct (lookupPattern_own _ _ Hin) as (r & Hr & _). now exists r.
  - intros H classes. unfold removeConflictsForClass. now rewrite H.
Qed.

(** ** Breakpoint and state prefixes *)

Lemma startsWith_prefixOf (p s : string) : startsWith p s = prefixOf p s.
Proof.
  unfold startsWith. revert s. induction p as [|a p IH]; intros s.
  - apply prefix_nil.
  - destruct s as [|b s]; [reflexivity|]. simpl.
    destruct (ascii_dec a b) as [->|Hne].
    + now rewrite Ascii.eqb_refl, IH.
    + now destruct (Ascii.eqb_spec a b).
Qed.

(** Evaluates the prefix tests on a class whose first characters are
    known. *)
Ltac concrete_tests :=
  repeat match goal with
         | |- context [startsWith ?p (String ?c ?s)] =>
             rewrite (startsWith_prefixOf p (String c s));
             let b := eval lazy in (prefixOf p (String c s)) in
             change (prefixOf p (String c s)) with b
         | |- context [slice ?n (String ?c ?s)] =>
             let b := eval lazy in (slice n (String c s)) in
             change (slice n (String c s)) with b
         end.

(** The two parsers of the mapper read the same breakpoint from every
    class, and the same base class from a class that has no state prefix
    behind its breakpoint prefix. *)
Theorem parseFullClass_agrees_with_parseBreakpointClass (className : string) :
  fcBreakpoint (parseFullClass className)
  = bcBreakpoint (parseBreakpointClass className)
  /\ (fcUIState (parseFullClass className) = neutral ->
      fcBaseClass (parseFullClass className)
      = bcBaseClass (parseBreakpointClass className)).
Proof.
  unfold parseFullClass, parseBreakpointClass.
  destruct (startsWith "max-md:" className);
    [|destruct (startsWith "max-lg:" className);
      [|destruct (startsWith "lg:" className);
        [|destruct (startsWith "md:" className)]]];
    cbv zeta beta iota;
    match goal with
    | |- context [startsWith "hover:" ?r] =>
        destruct (startsWith "hover:" r);
        [|destruct (startsWith "focus:" r);
          [|destruct (startsWith "active:" r);
            [|destruct (startsWith "disabled:" r);
              [|destruct (startsWith "visited:" r)]]]]
    end; simpl; split; try reflexivity; discriminate.
Qed.

Lemma parseState_neutral (remaining : string) :
  hasStatePrefix remaining = false ->
  startsWith "hover:" remaining = false
  /\ startsWith "focus:" remaining = false
  /\ startsWith "active:" remaining = false
  /\ startsWith "disabled:" remaining = false
  /\ startsWith "visited:" remaining = false.
Proof.
  unfold hasStatePrefix, stateWords. cbn [existsb].
  change ("hover" +:+ ":") with "hover:". change ("focus" +:+ ":") with "focus:".
  change ("active" +:+ ":") with "active:".
  change ("disabled" +:+ ":") with "disabled:".
  change ("visited" +:+ ":") with "visited:".
  intros H. split_orb_false. repeat split; assumption.
Qed.

Lemma parseFullClass_prefixed
  (breakpoint : Breakpoint) (state : UIState) (baseClass : string) :
  breakpoint <> mobile ->
  (state = neutral -> hasStatePrefix baseClass = false) ->
  parseFullClass
    (getBreakpointPrefix breakpoint +:+ getUIStatePrefix state +:+ baseClass)
  = {| fcBreakpoint := breakpoint; fcUIState := state;
       fcBaseClass := baseClass |}.
Proof.
  intros Hbp Hbase.
  destruct breakpoint; [congruence| |];
    destruct state;
    unfold getBreakpointPrefix, getUIStatePrefix;
    cbn [BREAKPOINT_CONFIG UI_STATE_CONFIG prefix];
    cbv [String.append]; unfold parseFullClass; concrete_tests;
    cbv beta iota zeta; concrete_tests; cbv beta iota zeta;
    first [ reflexivity
          | destruct (parseState_neutral _ (Hbase eq_refl))
              as (H1 & H2 & H3 & H4 & H5);
            rewrite H1, H2, H3, H4, H5; reflexivity ].
Qed.

(** A class that is written with the prefix of the tablet or of the
    desktop, then the prefix of a state, then a base class, is read back by
    [parseFullClass] as that breakpoint, that state and that base class;
    for the neutral state, which has no prefix, the base class must not
    start with a state prefix of its own. *)
Theorem parseFullClass_of_prefixed
  (breakpoint : Breakpoint) (state : UIState) (baseClass : string) :
  breakpoint <> mobile ->
  (state = neutral -> hasStatePrefix baseClass = false) ->
  parseFullClass
    (addBreakpointPrefix breakpoint (getUIStatePrefix state +:+ baseClass))
  = {| fcBreakpoint := breakpoint; fcUIState := state;
       fcBaseClass := baseClass |}.
Proof.
  intros Hbp Hbase.
  rewrite <- (parseFullClass_prefixed breakpoint state baseClass Hbp Hbase).
  unfold addBreakpointPrefix. destruct breakpoint; [congruence | easy..].
Qed.

Lemma parseFullClass_of_prefixed_witness :
  parseFullClass
    (addBreakpointPrefix tablet (getUIStatePrefix current +:+ "w-[50px]"))
  = {| fcBreakpoint := tablet; fcUIState := current;
       fcBaseClass := "w-[50px]" |}.
Proof.
  apply parseFullClass_of_prefixed; [discriminate | discriminate].
Defined.

Lemma hasBreakpointPrefix_none (cls : string) :
  hasBreakpointPrefix cls = false ->
  startsWith "max-lg:" cls = false /\ startsWith "max-md:" cls = false
  /\ startsWith "lg:" cls = false /\ startsWith "md:" cls = false.
Proof.
  unfold hasBreakpointPrefix, breakpointWords. cbn [existsb].
  change ("max-lg" +:+ ":") with "max-lg:".
  change ("max-md" +:+ ":") with "max-md:".
  change ("lg" +:+ ":") with "lg:". change ("md" +:+ ":") with "md:".
  intros H. split_orb_false. repeat split; assumption.
Qed.

Lemma getBreakpointClasses_cons (cls : string) (classes : list string)
  (breakpoint : Breakpoint) :
  getBreakpointClasses (cls :: classes) breakpoint
  = getBreakpointClasses [cls] breakpoint
    ++ getBreakpointClasses classes breakpoint.
Proof.
  unfold getBreakpointClasses. cbv zeta. cbn [List.filter].
  match goal with
  | |- context [if ?b then cls :: _ else _] => destruct b
  end; reflexivity.
Qed.

(** For classes without a breakpoint prefix of their own:
    [getBreakpointClasses] gives back the classes that
    [addBreakpointPrefix] has prefixed for the same breakpoint, and none of
    the classes that it has prefixed for another breakpoint. *)
Theorem getBreakpointClasses_of_prefixed
  (classes : list string) (written read : Breakpoint) :
  Forall (fun cls => hasBreakpointPrefix cls = false) classes ->
  getBreakpointClasses (map (addBreakpointPrefix written) classes) read
  = if Breakpoint_eqb written read then classes else [].
Proof.
  intros H. induction H as [|cls classes Hcls _ IH].
  - now destruct (Breakpoint_eqb written read).
  - destruct (hasBreakpointPrefix_none _ Hcls) as (H1 & H2 & H3 & H4).
    cbn [map]. rewrite getBreakpointClasses_cons, IH. clear IH.
    assert (getBreakpointClasses [addBreakpointPrefix written cls] read
            = if Breakpoint_eqb written read then [cls] else []) as ->.
    { unfold getBreakpointClasses.
      destruct written, read;
        unfold addBreakpointPrefix, getBreakpointPrefix;
        cbn [BREAKPOINT_CONFIG prefix truthy Breakpoint_eqb String.length];
        cbv zeta beta iota; cbv [String.append]; cbn [List.filter];
        concrete_tests; rewrite ?H1, ?H2, ?H3, ?H4;
        cbn [negb andb map]; concrete_tests; reflexivity. }
    now destruct (Breakpoint_eqb written read).
Qed.

Lemma getBreakpointClasses_of_prefixed_witness :
  getBreakpointClasses
    (map (addBreakpointPrefix tablet) ["w-[1px]"; "flex"]) tablet
  = ["w-[1px]"; "flex"].
Proof.
  apply (getBreakpointClasses_of_prefixed ["w-[1px]"; "flex"] tablet tablet).
  repeat constructor.
Defined.

(** ** Inherited values *)

Lemma inheritedFrom_more (classes : list string) (pattern : Re.t)
  (state : UIState) (from from' : list Breakpoint) (result : Inherited) :
  (forall b, In b from -> In b from') ->
  inheritedFrom classes pattern state from result ->
  inheritedFrom classes pattern state from' result.
Proof.
  unfold inheritedFrom. intros Hsub.
  destruct (value result), (source result); try easy.
  intros (H1 & H2 & H3). auto.
Qed.

Lemma stateClassOf_split (property : string) (pattern : Re.t)
  (bpPrefix statePrefix cls : string) :
  stateClassOf property pattern bpPrefix statePrefix cls = true ->
  cls = bpPrefix +:+ statePrefix
        +:+ slice (String.length (bpPrefix +:+ statePrefix)) cls.
Proof.
  unfold stateClassOf. intros H.
  destruct bpPrefix as [|c bp]; cbn [truthy] in H.
  - rewrite append_nil in *.
    destruct (startsWith statePrefix cls) eqn:E; [|discriminate].
    now apply startsWith_split.
  - destruct (startsWith (String c bp +:+ statePrefix) cls) eqn:E;
      [|discriminate].
    rewrite <- append_assoc. now apply startsWith_split.
Qed.

Lemma neutralClassOf_split (property : string) (pattern : Re.t)
  (bpPrefix cls : string) :
  neutralClassOf property pattern bpPrefix cls = true ->
  cls = bpPrefix
        +:+ (if truthy bpPrefix then slice (String.length bpPrefix) cls
             else cls).
Proof.
  unfold neutralClassOf. intros H.
  destruct bpPrefix as [|c bp]; cbn [truthy] in *; [reflexivity|].
  destruct (startsWith (String c bp) cls) eqn:E; [|discriminate].
  now apply startsWith_split.
Qed.

Lemma stepOf_from (classes : list string) (property : string)
  (pattern : Re.t) (state : UIState) (from : list Breakpoint)
  (last : Inherited) (breakpoint : Breakpoint) :
  inheritedFrom classes pattern state from last ->
  inheritedFrom classes pattern state (from ++ [breakpoint])
    (stepOf classes property pattern state last breakpoint).
Proof.
  intros Hlast.
  assert (inheritedFrom classes pattern state (from ++ [breakpoint]) last)
    as Hlast'
    by (eapply inheritedFrom_more; [|exact Hlast];
        intros b Hb; apply in_app_iff; now left).
  clear Hlast. unfold stepOf. cbv zeta.
  set (afterState := if negb (UIState_eqb state neutral) then _ else last).
  assert (inheritedFrom classes pattern state (from ++ [breakpoint])
            afterState) as Hafter.
  { subst afterState.
    destruct (negb (UIState_eqb state neutral)); [|exact Hlast'].
    destruct (find (stateClassOf _ _ _ _) classes) as [cls|] eqn:Es;
      [|exact Hlast'].
    destruct (truthy cls); [|exact Hlast'].
    apply find_some in Es as [Hin Hs].
    unfold inheritedFrom. cbn [value source]. split; [|split].
    - apply in_app_iff. right. now left.
    - now apply stateClassOf_test in Hs.
    - right. apply stateClassOf_split in Hs. now rewrite <- Hs. }
  clearbody afterState.
  destruct (find (neutralClassOf _ _ _) classes) as [cls|] eqn:En;
    [|exact Hafter].
  apply find_some in En as [Hin Hn].
  destruct (truthy cls); [|exact Hafter].
  assert (inheritedFrom classes pattern state (from ++ [breakpoint])
            {| value :=
                 Some (if truthy (getBreakpointPrefix breakpoint)
                       then slice (String.length
                                     (getBreakpointPrefix breakpoint)) cls
                       else cls);
               source := Some breakpoint |}) as Hneutral.
  { unfold inheritedFrom. cbn [value source]. split; [|split].
    - apply in_app_iff. right. now left.
    - now apply neutralClassOf_test in Hn.
    - left. apply neutralClassOf_split in Hn. now rewrite <- Hn. }
  destruct (UIState_eqb state neutral); [exact Hneutral|].
  destruct (negb (truthyOpt (value afterState))); [exact Hneutral|].
  exact Hafter.
Qed.

Lemma steps_from (classes : list string) (property : string)
  (pattern : Re.t) (state : UIState) (chain : list Breakpoint) :
  forall from last,
    inheritedFrom classes pattern state from last ->
    inheritedFrom classes pattern state (from ++ chain)
      (fold_left (stepOf classes property pattern state) chain last).
Proof.
  induction chain as [|breakpoint chain IH]; intros from last H; simpl.
  - now rewrite app_nil_r.
  - change (breakpoint :: chain) with ([breakpoint] ++ chain).
    rewrite app_assoc. apply IH. now apply stepOf_from.
Qed.

Lemma findM_never {A} (f : A -> Outcome bool) (l : list A)
  (found : option A) :
  (forall x, f x <> Returns true) ->
  findM f l = Returns found -> found = None.
Proof.
  intros Hf. induction l as [|x l IH]; cbn [findM].
  - intros H. now injection H as <-.
  - destruct (f x) as [[]|] eqn:E; cbn; [now apply Hf in E | exact IH|].
    discriminate.
Qed.

Lemma shouldInclude_member (className property key : string) :
  shouldIncludeClassForProperty className property (PrototypeMember key)
  = Throws.
Proof. reflexivity. Qed.

(** With a member of [Object.prototype] for a pattern, a round of the
    lookup finds nothing, when it ends. *)
Lemma inheritStep_member (classes : list string) (property key : string)
  (state : UIState) (last result : Inherited) (breakpoint : Breakpoint) :
  inheritStep classes property (PrototypeMember key) state last breakpoint
  = Returns result ->
  result = last.
Proof.
  unfold inheritStep. cbv zeta.
  assert (forall bp sp cls,
            isStateClass property (PrototypeMember key) bp sp cls
            <> Returns true) as Hstate.
  { intros bp sp cls. unfold isStateClass. cbv zeta.
    destruct (negb _); [discriminate|].
    now rewrite shouldInclude_member. }
  assert (forall bp cls,
            isNeutralClass property (PrototypeMember key) bp cls
            <> Returns true) as Hneutral.
  { intros bp cls. unfold isNeutralClass.
    destruct (truthy bp).
    - destruct (negb _); [discriminate|].
      destruct (Re.test reStatePrefix _); [discriminate|].
      now rewrite shouldInclude_member.
    - destruct (Re.test reDesktopExcluded cls); [discriminate|].
      now rewrite shouldInclude_member. }
  destruct (findM (isNeutralClass _ _ _) classes) as [n|] eqn:En.
  2:{ destruct (negb (UIState_eqb state neutral)); cbn;
        [destruct (findM (isStateClass _ _ _ _) classes) as [o|]; cbn;
         [destruct o as [cls|]; [destruct (truthy cls)|]|]|];
        discriminate. }
  apply findM_never in En; [|apply Hneutral]. subst n.
  destruct (negb (UIState_eqb state neutral)); cbn.
  - destruct (findM (isStateClass _ _ _ _) classes) as [o|] eqn:Es; cbn;
      [|discriminate].
    apply findM_never in Es; [|apply Hstate]. subst o. cbn.
    intros H. now injection H as <-.
  - intros H. now injection H as <-.
Qed.

Lemma getInheritedValue_member (classes : list string) (property key : string)
  (breakpoint : Breakpoint) (state : UIState) (result : Inherited) :
  getConflictingClassPattern property = Some (PrototypeMember key) ->
  getInheritedValue classes property breakpoint state = Returns result ->
  result = {| value := None; source := None |}.
Proof.
  intros Hp. unfold getInheritedValue. rewrite Hp.
  generalize {| value := None; source := None |} as last.
  induction (inheritanceChain breakpoint) as [|bp chain IH]; intros last;
    cbn [foldM].
  - intros H. now injection H as <-.
  - destruct (inheritStep classes property (PrototypeMember key) state last bp)
      as [next|] eqn:E; cbn; [|discriminate].
    apply inheritStep_member in E. subst next. apply IH.
Qed.

(** [getInheritedValue] returns for every property name that is no name of
    a member of [Object.prototype], and for a property without a pattern it
    returns neither a value nor a source.  Whatever it returns has a value
    exactly when it has a source.  The source is the current breakpoint or
    one that the current breakpoint inherits from, and the value matches the
    regular expression of the property and is a class of the list with the
    prefix of the source breakpoint, or that prefix and the prefix of the
    current state, taken off. *)
Theorem getInheritedValue_from_the_list
  (classes : list string) (property : string)
  (currentBreakpoint : Breakpoint) (currentUIState : UIState) :
  (isPrototypeKey property = false ->
   exists result,
     getInheritedValue classes property currentBreakpoint currentUIState
     = Returns result)
  /\ (getConflictingClassPattern property = None ->
      getInheritedValue classes property currentBreakpoint currentUIState
      = Returns {| value := None; source := None |})
  /\ (forall result,
        getInheritedValue classes property currentBreakpoint currentUIState
        = Returns result ->
        (value result = None <-> source result = None)
        /\ (forall v breakpoint,
              value result = Some v -> source result = Some breakpoint ->
              In breakpoint (inheritanceChain currentBreakpoint)
              /\ (exists r,
                    getConflictingClassPattern property = Some (RegExp r)
                    /\ Re.test r v = true)
              /\ (In (getBreakpointPrefix breakpoint +:+ v) classes
                  \/ In (getBreakpointPrefix breakpoint
                         +:+ getUIStatePrefix currentUIState +:+ v) classes))).
Proof.
  split; [|split].
  - intros Hkey. destruct (pattern_of_plain_key _ Hkey) as [Hn | [r Hr]].
    + unfold getInheritedValue. rewrite Hn. now eexists.
    + rewrite (getInheritedValue_regexp _ _ _ _ _ Hr). now eexists.
  - intros Hn. unfold getInheritedValue. now rewrite Hn.
  - intros result Hres.
    destruct (getConflictingClassPattern property) as [[r|key]|] eqn:Hp.
    + rewrite (getInheritedValue_regexp _ _ _ _ _ Hp) in Hres.
      injection Hres as <-.
      pose proof (steps_from classes property r currentUIState
                    (inheritanceChain currentBreakpoint) []
                    {| value := None; source := None |} I) as H.
      rewrite app_nil_l in H. unfold inheritedFrom in H.
      destruct (fold_left _ _ _) as [v s]. cbn [value source] in *.
      destruct v as [v|], s as [s|]; try contradiction.
      * split; [split; discriminate|].
        intros v' b Hv Hs. injection Hv as <-. injection Hs as <-.
        destruct H as (H1 & H2 & H3). split; [exact H1|]. split; [|exact H3].
        now exists r.
      * split; [tauto | discriminate].
    + apply (getInheritedValue_member _ _ _ _ _ _ Hp) in Hres. subst result.
      cbn. split; [tauto | discriminate].
    + unfold getInheritedValue in Hres. rewrite Hp in Hres.
      injection Hres as <-. cbn. split; [tauto | discriminate].
Qed.

(** With the name of a member of [Object.prototype] the lookup throws at
    the first class that it tests, and returns neither a value nor a source
    for the empty list. *)
Example getInheritedValue_member_throws :
  getInheritedValue ["lg:w-[1px]"] "constructor" desktop neutral = Throws
  /\ getInheritedValue [] "constructor" desktop neutral
     = Returns {| value := None; source := None |}.
Proof. split; vm_compute; reflexivity. Qed.

(** ** Writing a class for a breakpoint and reading it back *)

Lemma parseFullClass_found (breakpoint : Breakpoint) (state : UIState)
  (cls : string) :
  breakpoint <> mobile ->
  startsWith (getBreakpointPrefix breakpoint +:+ getUIStatePrefix state) cls
  = true ->
  (state = neutral ->
   hasStatePrefix
     (slice (String.length
               (getBreakpointPrefix breakpoint +:+ getUIStatePrefix state)) cls)
   = false) ->
  parseFullClass cls
  = {| fcBreakpoint := breakpoint; fcUIState := state;
       fcBaseClass :=
         slice (String.length
                  (getBreakpointPrefix breakpoint +:+ getUIStatePrefix state))
           cls |}.
Proof.
  intros Hbp Hstart Hbase. apply startsWith_split in Hstart.
  set (base := slice _ cls) in *. clearbody base. subst cls.
  rewrite append_assoc. now apply parseFullClass_prefixed.
Qed.

Lemma Breakpoint_eqb_refl (b : Breakpoint) : Breakpoint_eqb b b = true.
Proof. now destruct b. Qed.

Lemma UIState_eqb_refl (s : UIState) : UIState_eqb s s = true.
Proof. now destruct s. Qed.

Lemma breakpointPrefix_truthy (breakpoint : Breakpoint) :
  breakpoint <> mobile -> truthy (getBreakpointPrefix breakpoint) = true.
Proof. destruct breakpoint; [congruence | reflexivity..]. Qed.

Lemma truthy_app (a b : string) : truthy a = true -> truthy (a +:+ b) = true.
Proof. destruct a; [discriminate | reflexivity]. Qed.

Lemma setBreakpointClass_regexp (classes : list string) (property : string)
  (r : Re.t) (newClass : option string) (breakpoint : Breakpoint)
  (state : UIState) :
  getConflictingClassPattern property = Some (RegExp r) ->
  setBreakpointClass classes property newClass breakpoint state
  = Returns
      (if truthyOpt newClass then
         List.filter (keptForBreakpoint property r breakpoint state) classes
         ++ [(getBreakpointPrefix breakpoint +:+ getUIStatePrefix state)
             +:+ default EmptyString newClass]
       else List.filter (keptForBreakpoint property r breakpoint state)
              classes).
Proof.
  intros Hp. unfold setBreakpointClass. rewrite Hp. cbv zeta.
  rewrite (filterM_returns _ (keptForBreakpoint property r breakpoint state))
    by (intros; apply keepsForBreakpoint_regexp).
  cbn. now destruct (truthyOpt newClass).
Qed.

(** After [setBreakpointClass] has written a class for the tablet or the
    desktop, the step of the lookup at that breakpoint finds this class,
    whatever the earlier steps have found. *)
Lemma stepOf_after_set (classes : list string) (property : string)
  (pattern : Re.t) (newClass : string) (breakpoint : Breakpoint)
  (state : UIState) (last : Inherited) :
  breakpoint <> mobile ->
  truthy newClass = true ->
  (state = neutral -> hasStatePrefix newClass = false) ->
  includedFor newClass property pattern = true ->
  stepOf
    (List.filter (keptForBreakpoint property pattern breakpoint state) classes
     ++ [(getBreakpointPrefix breakpoint +:+ getUIStatePrefix state)
         +:+ newClass])
    property pattern state last breakpoint
  = {| value := Some newClass; source := Some breakpoint |}.
Proof.
  intros Hbp Hnew Hbase Hinc.
  pose proof (breakpointPrefix_truthy _ Hbp) as Htb.
  set (bp := getBreakpointPrefix breakpoint) in *.
  set (sp := getUIStatePrefix state).
  set (keep := keptForBreakpoint property pattern breakpoint state).
  assert (forall a,
            startsWith (bp +:+ sp) a = true ->
            (state = neutral ->
             hasStatePrefix (slice (String.length (bp +:+ sp)) a) = false) ->
            includedFor
              (slice (String.length (bp +:+ sp)) a) property pattern = true ->
            keep a = false) as Hkeep.
  { intros a Hstart Hstate Hshould. subst keep. unfold keptForBreakpoint.
    cbv zeta.
    rewrite (parseFullClass_found breakpoint state a Hbp Hstart Hstate).
    cbn [fcBreakpoint fcUIState fcBaseClass].
    rewrite Breakpoint_eqb_refl, UIState_eqb_refl. simpl negb. simpl orb.
    cbv iota. fold bp sp. now rewrite Hshould. }
  clearbody keep.
  unfold stepOf. cbv zeta. fold bp sp.
  assert (slice (String.length (bp +:+ sp)) ((bp +:+ sp) +:+ newClass)
          = newClass) as Hslice by apply slice_app.
  assert (truthy ((bp +:+ sp) +:+ newClass) = true) as Htruthy
    by (rewrite append_assoc; now apply truthy_app).
  destruct (UIState_eqb state neutral) eqn:Est.
  - (* the neutral state: the class is found among the neutral classes *)
    assert (state = neutral) as Hst by (now destruct state).
    assert (sp = EmptyString) as Hsp by (subst sp; now rewrite Hst).
    rewrite Hsp, append_nil_r in *. cbn [negb].
    rewrite (find_filter_snoc keep (neutralClassOf property pattern bp)).
    + cbv beta iota. rewrite Htruthy, Htb, Hslice. reflexivity.
    + intros a _ Ha. unfold neutralClassOf in Ha. rewrite Htb in Ha.
      destruct (startsWith bp a) eqn:Es; [|discriminate]. simpl in Ha.
      rewrite test_reStatePrefix in Ha.
      destruct (hasStatePrefix (slice (String.length bp) a)) eqn:Eh;
        [discriminate|].
      apply Hkeep; auto.
    + unfold neutralClassOf. rewrite Htb, startsWith_app. simpl negb.
      cbv iota. rewrite Hslice, test_reStatePrefix, (Hbase Hst).
      exact Hinc.
  - (* another state: the class is found among the classes of the state,
       and a neutral class does not replace it *)
    assert (state <> neutral) as Hst by (intros ->; discriminate).
    cbn [negb].
    rewrite (find_filter_snoc keep (stateClassOf property pattern bp sp)).
    + cbv beta iota. rewrite Htruthy, Hslice.
      destruct (find (neutralClassOf property pattern bp) _) as [cls|];
        [|reflexivity].
      destruct (truthy cls); [|reflexivity].
      cbn [value truthyOpt]. now rewrite Hnew.
    + intros a _ Ha. unfold stateClassOf in Ha. cbv zeta in Ha.
      rewrite Htb in Ha.
      destruct (startsWith (bp +:+ sp) a) eqn:Es; [|discriminate].
      simpl in Ha. apply Hkeep; [exact Es | congruence | exact Ha].
    + unfold stateClassOf. cbv zeta. rewrite Htb, startsWith_app.
      simpl negb. cbv iota. now rewrite Hslice.
Qed.

(** Reading back what was written: after [setBreakpointClass] has written
    a class of the property for the tablet or the desktop and a state,
    [getInheritedValue] for the same property, breakpoint and state answers
    that class with that breakpoint as its source, whatever the class list
    was before.  (A neutral class must not start with a state prefix.) *)
Theorem setBreakpointClass_then_inherited
  (classes : list string) (property : string) (pattern : Re.t)
  (newClass : string) (breakpoint : Breakpoint) (state : UIState) :
  getConflictingClassPattern property = Some (RegExp pattern) ->
  breakpoint <> mobile ->
  truthy newClass = true ->
  (state = neutral -> hasStatePrefix newClass = false) ->
  shouldIncludeClassForProperty newClass property (RegExp pattern)
  = Returns true ->
  (written ←
     setBreakpointClass classes property (Some newClass) breakpoint state;
   getInheritedValue written property breakpoint state)
  = Returns {| value := Some newClass; source := Some breakpoint |}.
Proof.
  intros Hp Hbp Hnew Hbase Hinc.
  rewrite shouldInclude_regexp in Hinc.
  assert (includedFor newClass property pattern = true) as Hinc'
    by (now injection Hinc).
  rewrite (setBreakpointClass_regexp _ _ _ _ _ _ Hp).
  cbn [truthyOpt default from_option]. unfold id at 1. rewrite Hnew. cbn.
  rewrite (getInheritedValue_regexp _ _ _ _ _ Hp). f_equal.
  destruct breakpoint; [congruence| |]; cbn [inheritanceChain fold_left];
    now apply stepOf_after_set.
Qed.

Lemma setBreakpointClass_then_inherited_witness :
  (written ←
     setBreakpointClass ["md:w-[1px]"; "max-lg:w-[2px]"; "lg:w-[3px]"; "w-full"]
       "width" (Some "w-[50px]") tablet neutral;
   getInheritedValue written "width" tablet neutral)
  = Returns {| value := Some "w-[50px]"; source := Some tablet |}.
Proof.
  eapply setBreakpointClass_then_inherited;
    [reflexivity | discriminate | reflexivity | reflexivity
    | vm_compute; reflexivity].
Defined.

(** ** Merging designs *)

Lemma categories_NoDup : NoDup categories.
Proof. apply NoDup_ListNoDup. repeat constructor; simpl; intuition discriminate. Qed.

Lemma lookup_by_category {A} (f : string -> A) (category : string) :
  (list_to_map (map (fun c => (c, f c)) categories) : gmap string A)
    !! category
  = if bool_decide (category ∈ categories) then Some (f category) else None.
Proof.
  destruct (bool_decide (category ∈ categories)) eqn:E.
  - apply bool_decide_eq_true in E. apply elem_of_list_to_map_1.
    + assert ((map (fun c => (c, f c)) categories).*1 = categories) as ->
        by reflexivity.
      apply categories_NoDup.
    + apply list_elem_of_fmap. now exists category.
  - apply bool_decide_eq_false in E. apply not_elem_of_list_to_map_1.
    intros H. apply E. apply list_elem_of_fmap in H as ((c & x) & -> & Hin).
    apply list_elem_of_fmap in Hin as (c2 & Heq & Hc). now injection Heq as -> _.
Qed.

Lemma mergeDesign_category {V : Type}
  (existing : option (gmap string (gmap string V)))
  (parsed : gmap string (gmap string V)) (category : string) :
  category ∈ categories ->
  mergeDesign existing (Some parsed) !! category
  = Some (mergeCategory existing parsed category).
Proof.
  intros Hin. unfold mergeDesign. rewrite lookup_by_category.
  now rewrite bool_decide_eq_true_2.
Qed.

(** The design that [mergeDesign] builds from a parsed design has the
    eight categories and no other key; in each of them a property has its
    value of the parsed design when it has one there, and its value of the
    existing design otherwise.  Without a parsed design the existing design
    is returned, or the empty object. *)
Theorem mergeDesign_parsed_wins {V : Type}
  (existing : option (gmap string (gmap string V)))
  (parsed : gmap string (gmap string V)) :
  dom (mergeDesign existing (Some parsed)) = list_to_set categories
  /\ (forall category property,
        In category categories ->
        propertyOf (mergeDesign existing (Some parsed)) category property
        = match propertyOf parsed category property with
          | Some v => Some v
          | None =>
              existing ≫= (fun design => propertyOf design category property)
          end)
  /\ mergeDesign existing None = default ∅ existing.
Proof.
  split; [|split; [|reflexivity]].
  - apply set_eq. intros category.
    rewrite elem_of_dom, elem_of_list_to_set. unfold mergeDesign.
    rewrite lookup_by_category.
    destruct (bool_decide (category ∈ categories)) eqn:E.
    + apply bool_decide_eq_true in E. split; [easy | now eexists].
    + apply bool_decide_eq_false in E. split; [|easy].
      intros [x Hx]. discriminate.
  - intros category property Hin. unfold propertyOf.
    rewrite mergeDesign_category by now apply list_elem_of_In.
    simpl. unfold mergeCategory. rewrite lookup_union.
    destruct (parsed !! category) as [props|]; simpl.
    + destruct (props !! property) as [v|]; simpl.
      * now destruct (default ∅ _ !! property).
      * destruct existing as [design|]; simpl; [|now rewrite lookup_empty].
        destruct (design !! category) as [old|]; simpl;
          [|now rewrite lookup_empty].
        now destruct (old !! property).
    + rewrite lookup_empty.
      destruct existing as [design|]; simpl; [|now rewrite lookup_empty].
      destruct (design !! category) as [old|]; simpl;
        [|now rewrite lookup_empty].
      now destruct (old !! property).
Qed.

(** Merging is associative: merging a third design into the merge of two
    gives what merging the merge of the last two into the first gives. *)
Theorem mergeDesign_assoc {V : Type}
  (first : option (gmap string (gmap string V)))
  (second third : gmap string (gmap string V)) :
  mergeDesign (Some (mergeDesign first (Some second))) (Some third)
  = mergeDesign first (Some (mergeDesign (Some second) (Some third))).
Proof.
  unfold mergeDesign at 1 3. f_equal. apply map_ext_in.
  intros category Hin. f_equal. apply list_elem_of_In in Hin.
  unfold mergeCategory at 1 2.
  cbn [mbind option_bind].
  rewrite !mergeDesign_category by exact Hin. cbn [default from_option].
  unfold id, mergeCategory. cbn [mbind option_bind].
  apply (assoc_L (∪)).
Qed.

Lemma mergeDesign_parsed_wins_witness :
  propertyOf
    (mergeDesign
       (Some {[ "sizing" := {[ "width" := "1px"; "height" := "2px" ]} ]})
       (Some (classesToDesign (ClassArray ["w-[3px]"]))))
    "sizing" "width" = Some "3px"
  /\ propertyOf
       (mergeDesign
          (Some {[ "sizing" := {[ "width" := "1px"; "height" := "2px" ]} ]})
          (Some (classesToDesign (ClassArray ["w-[3px]"]))))
       "sizing" "height" = Some "2px".
Proof.
  pose proof (mergeDesign_parsed_wins
                (Some {[ "sizing" := {[ "width" := "1px"; "height" := "2px" ]} ]})
                (classesToDesign (ClassArray ["w-[3px]"])))
    as (_ & Hprop & _).
  split; rewrite Hprop; vm_compute; tauto.
Defined.

(** ** A design to its classes *)

Lemma truthy_app_r (a b : string) : truthy b = true -> truthy (a +:+ b) = true.
Proof. destruct a, b; try reflexivity; discriminate. Qed.

(** Whatever the prefix is, also the text of a member of
    [Object.prototype]: the class has at least its dash. *)
Lemma formatMeasurementClass_truthy (value prefix : string)
  (allowedNamedValues : list string) :
  truthy (formatMeasurementClass value prefix allowedNamedValues) = true.
Proof.
  unfold formatMeasurementClass.
  repeat match goal with
         | |- context [if ?b then _ else _] => destruct b
         end; now apply truthy_app_r.
Qed.

Ltac class_cases :=
  repeat match goal with
         | |- context [if ?b then _ else _] => destruct b
         end.

Ltac class_truthy Hv :=
  intros Heq; try discriminate; injection Heq as <-;
  first [ exact Hv | reflexivity
        | apply formatMeasurementClass_truthy
        | now apply truthy_app ].

Lemma propertyToClass_truthy (percentOfDecimal prototypeText : string -> string)
  (category property value cls : string) :
  propertyToClass percentOfDecimal prototypeText category property value = Some cls ->
  truthy cls = true.
Proof.
  unfold propertyToClass.
  destruct (truthy value) eqn:Hv; simpl negb; cbv iota; [|discriminate].
  destruct (String.eqb category "layout").
  { unfold layoutToClass. class_cases; class_truthy Hv. }
  destruct (String.eqb category "typography").
  { unfold typographyToClass. class_cases; class_truthy Hv. }
  destruct (String.eqb category "spacing").
  { unfold spacingToClass.
    destruct (lookupPrefix prototypeText property spacingPrefixMap)
      as [prefix|]; [|discriminate].
    class_cases; intros Heq; injection Heq as <-;
      apply formatMeasurementClass_truthy. }
  destruct (String.eqb category "sizing").
  { unfold sizingToClass.
    destruct (lookupPrefix prototypeText property sizingPrefixMap)
      as [prefix|]; [|discriminate].
    class_cases; intros Heq; injection Heq as <-;
      [now apply truthy_app_r | apply formatMeasurementClass_truthy]. }
  destruct (String.eqb category "borders").
  { unfold bordersToClass, sideWidthToClass. class_cases; class_truthy Hv. }
  destruct (String.eqb category "backgrounds").
  { unfold backgroundsToClass. class_cases; class_truthy Hv. }
  destruct (String.eqb category "effects").
  { unfold effectsToClass. class_cases; class_truthy Hv. }
  destruct (String.eqb category "positioning"); [|discriminate].
  unfold positioningToClass.
  destruct (String.eqb property "position"); [class_truthy Hv|].
  destruct (listIncludes property ["top"; "right"; "bottom"; "left"]) eqn:E.
  { intros Heq. injection Heq as <-. apply formatMeasurementClass_truthy. }
  class_cases; class_truthy Hv.
Qed.

Lemma isPrototypeKey_cases (key : string) :
  isPrototypeKey key = true -> In key objectPrototypeKeys.
Proof.
  unfold isPrototypeKey, listIncludes. rewrite existsb_exists.
  intros (k & Hin & Heq). apply String.eqb_eq in Heq. now subst.
Qed.

(** [propertyToClass] gives no class for an empty value, and never an
    empty class: the test of [designToClasses] on the class it receives only
    ever passes over the missing classes.  This holds also where the prefix
    maps of the spacing and the sizing answer with a member of
    [Object.prototype]: for a property with the name of such a member, the
    class is the text of the member, a dash, and the value as
    [formatMeasurementClass] writes it. *)
Theorem propertyToClass_never_empty
  (percentOfDecimal prototypeText : string -> string)
  (category property value : string) :
  (value = EmptyString ->
   propertyToClass percentOfDecimal prototypeText category property value
   = None)
  /\ (forall cls,
        propertyToClass percentOfDecimal prototypeText category property value
        = Some cls ->
        truthy cls = true)
  /\ (isPrototypeKey property = true -> truthy value = true ->
      propertyToClass percentOfDecimal prototypeText "spacing" property value
      = Some (formatMeasurementClass value (prototypeText property) [])
      /\ propertyToClass percentOfDecimal prototypeText "sizing" property value
         = Some (if String.eqb value "100%"
                 then prototypeText property +:+ "-full"
                 else formatMeasurementClass value (prototypeText property)
                        ["auto"; "full"; "screen"; "min"; "max"; "fit"])).
Proof.
  split; [now intros -> |]. split.
  - intros cls. apply propertyToClass_truthy.
  - intros Hkey Hv. apply isPrototypeKey_cases in Hkey.
    unfold propertyToClass. rewrite Hv. cbn [negb].
    unfold objectPrototypeKeys in Hkey. cbn [In] in Hkey.
    repeat (destruct Hkey as [<- | Hkey];
            [split; [reflexivity|]; cbn;
             now destruct (String.eqb value "100%")|]).
    destruct Hkey.
Qed.

Lemma propertyToClass_never_empty_witness :
  truthy "w-[100px]" = true
  /\ propertyToClass (fun v => v) (fun key => "function " +:+ key)
       "spacing" "constructor" "10"
     = Some "function constructor-[10px]".
Proof.
  split.
  - apply (proj1 (proj2 (propertyToClass_never_empty (fun v => v) (fun v => v)
                           "sizing" "width" "100")) "w-[100px]").
    vm_compute. reflexivity.
  - apply (proj1 (proj2 (proj2 (propertyToClass_never_empty (fun v => v)
                                  (fun key => "function " +:+ key)
                                  "spacing" "constructor" "10"))
                    eq_refl eq_refl)).
Defined.

Lemma classOfProperty_spec (percentOfDecimal prototypeText : string -> string)
  (category property value cls : string) :
  classOfProperty percentOfDecimal prototypeText category (property, value) = Some cls
  <-> property <> "isActive"
      /\ propertyToClass percentOfDecimal prototypeText category property value = Some cls.
Proof.
  unfold classOfProperty.
  destruct (String.eqb_spec property "isActive") as [->|Hne]; simpl.
  - split; [discriminate | intros [H _]; congruence].
  - destruct (truthy value) eqn:Hv; simpl.
    + destruct (propertyToClass percentOfDecimal prototypeText category property value)
        as [c|] eqn:E.
      * rewrite (propertyToClass_truthy _ _ _ _ _ _ E). split; [easy | tauto].
      * split; [discriminate | intros [_ H]; discriminate].
    + split; [discriminate|]. intros [_ H].
      unfold propertyToClass in H. now rewrite Hv in H.
Qed.

(** The classes of a design are the classes that [propertyToClass] gives
    for its properties, category by category and property by property in the
    order of the design: a property named [isActive] gives none, and neither
    does a property with an empty value or a category without an object.
    The classes of two designs written one after the other are the classes
    of the first followed by those of the second. *)
Theorem designToClasses_classes (percentOfDecimal prototypeText : string -> string)
  (design more : DesignEntries) :
  (forall cls,
     In cls (designToClasses percentOfDecimal prototypeText (Some design))
     <-> exists category properties property value,
           In (category, Some properties) design
           /\ In (property, value) properties
           /\ property <> "isActive"
           /\ propertyToClass percentOfDecimal prototypeText category property value
              = Some cls)
  /\ designToClasses percentOfDecimal prototypeText (Some (design ++ more))
     = designToClasses percentOfDecimal prototypeText (Some design)
       ++ designToClasses percentOfDecimal prototypeText (Some more)
  /\ designToClasses percentOfDecimal prototypeText None = [].
Proof.
  split; [|split; [apply flat_map_app | reflexivity]].
  intros cls. unfold designToClasses. rewrite in_flat_map. split.
  - intros ([category [properties|]] & Hin & Hcls); [|destruct Hcls].
    unfold classesOfCategory in Hcls. cbn [fst snd] in Hcls.
    apply list_elem_of_In, list_elem_of_omap in Hcls
      as ([property value] & Hp & Hc).
    apply classOfProperty_spec in Hc as [Hne Hc].
    exists category, properties, property, value.
    repeat split; trivial. now apply list_elem_of_In.
  - intros (category & properties & property & value & Hin & Hp & Hne & Hc).
    exists (category, Some properties). split; [exact Hin|].
    unfold classesOfCategory. cbn [fst snd].
    apply list_elem_of_In, list_elem_of_omap. exists (property, value).
    split; [now apply list_elem_of_In|].
    now apply classOfProperty_spec.
Qed.

(** ** The value between the brackets *)

Lemma bracketBody_value (v tail : string) :
  existsChar (Ascii.eqb "]") v = false ->
  bracketBody (v +:+ String "]" tail) = (v, String "]" tail).
Proof.
  induction v as [|c v IH]; intros H.
  - reflexivity.
  - cbn [existsChar] in H. apply orb_false_elim in H as [Hc Hv].
    rewrite append_cons. cbn [bracketBody].
    rewrite Ascii.eqb_sym, Hc. now rewrite (IH Hv).
Qed.

Lemma bracketAt_value (v tail : string) :
  truthy v = true -> existsChar (Ascii.eqb "]") v = false ->
  bracketAt (v +:+ String "]" tail) = Some v.
Proof.
  intros Ht Hv. unfold bracketAt.
  rewrite (bracketBody_value _ _ Hv), Ht, startsWith_prefixOf.
  reflexivity.
Qed.

Lemma extractArbitraryValue_none (className : string) :
  existsChar (Ascii.eqb "[") className = false ->
  extractArbitraryValue className = None.
Proof.
  induction className as [|c s IH]; [reflexivity|].
  cbn [existsChar extractArbitraryValue]. intros H.
  apply orb_false_elim in H as [Hc Hs]. rewrite Ascii.eqb_sym, Hc. now apply IH.
Qed.

Lemma extractArbitraryValue_bracket (before v tail : string) :
  existsChar (Ascii.eqb "[") before = false ->
  truthy v = true -> existsChar (Ascii.eqb "]") v = false ->
  extractArbitraryValue (before +:+ String "[" (v +:+ String "]" tail))
  = Some v.
Proof.
  intros Hb Ht Hv. induction before as [|c s IH].
  - rewrite append_nil. cbn [extractArbitraryValue]. rewrite Ascii.eqb_refl.
    now rewrite bracketAt_value.
  - cbn [existsChar] in Hb. apply orb_false_elim in Hb as [Hc Hs].
    rewrite append_cons. cbn [extractArbitraryValue].
    rewrite Ascii.eqb_sym, Hc. now apply IH.
Qed.

(** [extractArbitraryValue] gives what stands between the first [[] of
    the class and the next []], when that is not empty, whatever follows; a
    class without [[] has no value. *)
Theorem extractArbitraryValue_first_bracket (className : string) :
  (existsChar (Ascii.eqb "[") className = false ->
   extractArbitraryValue className = None)
  /\ (forall before v tail,
        className = before +:+ "[" +:+ v +:+ "]" +:+ tail ->
        existsChar (Ascii.eqb "[") before = false ->
        truthy v = true -> existsChar (Ascii.eqb "]") v = false ->
        extractArbitraryValue className = Some v).
Proof.
  split; [apply extractArbitraryValue_none|].
  intros before v tail -> Hb Ht Hv.
  now apply extractArbitraryValue_bracket.
Qed.

Lemma extractArbitraryValue_first_bracket_witness :
  extractArbitraryValue "bg-[url(a[0].png)]/50" = Some "url(a[0"
  /\ extractArbitraryValue "w-full" = None.
Proof.
  destruct (extractArbitraryValue_first_bracket "bg-[url(a[0].png)]/50")
    as [_ H].
  destruct (extractArbitraryValue_first_bracket "w-full") as [Hnone _].
  split.
  - apply (H "bg-" "url(a[0" ".png)]/50"); reflexivity.
  - apply Hnone. reflexivity.
Defined.

(** ** Measurements through [propertyToClass] and [classesToDesign] *)

Lemma getProp_setProp_same (category property value : string)
  (design : gmap string (gmap string string)) :
  is_Some (design !! category) ->
  getProp (setProp category property value design) category property
  = Some value.
Proof.
  intros [props Hp]. unfold getProp, setProp.
  rewrite lookup_alter_eq, Hp. simpl. apply lookup_insert_eq.
Qed.

Lemma parsed_has_categories (classes : list string) (category : string) :
  In category categories ->
  is_Some (fold_left parseClass classes emptyDesign !! category).
Proof.
  intros Hin. apply elem_of_dom.
  assert (dom (classesToDesign (ClassArray classes)) = dom emptyDesign) as H.
  { apply (classesToDesign_keeps (fun d => dom d = dom emptyDesign));
      [|reflexivity].
    intros c p v d _ Hd. now rewrite setProp_dom. }
  unfold classesToDesign, classListOf in H. rewrite H, emptyDesign_dom.
  apply elem_of_list_to_set. now apply list_elem_of_In.
Qed.

Lemma bracketedMeasurement_truthy (value : string) :
  bracketedMeasurement value = true -> truthy value = true.
Proof. now destruct value. Qed.

Lemma measured_truthy (value : string) :
  truthy value = true -> truthy (measured value) = true.
Proof.
  intros H. unfold measured.
  destruct (endsWith "px" value); [exact H|].
  destruct (Re.test rePlainNumber value); [now apply truthy_app | exact H].
Qed.

Lemma measured_no_bracket (value : string) :
  existsChar (Ascii.eqb "]") value = false ->
  existsChar (Ascii.eqb "]") (measured value) = false.
Proof.
  intros H. unfold measured.
  destruct (endsWith "px" value); [exact H|].
  destruct (Re.test rePlainNumber value); [|exact H].
  now rewrite existsChar_app, H.
Qed.

Lemma named_not_bracketed (value : string) (allowed : list string) :
  forallb (fun name => negb (bracketedMeasurement name)) allowed = true ->
  bracketedMeasurement value = true ->
  listIncludes value allowed = false.
Proof.
  intros Hall Hv. apply not_true_is_false. intros H.
  unfold listIncludes in H. apply existsb_exists in H as (name & Hin & Heq).
  apply String.eqb_eq in Heq. subst name.
  rewrite forallb_forall in Hall. specialize (Hall _ Hin).
  now rewrite Hv in Hall.
Qed.

Lemma formatMeasurementClass_bracketed (value prefix : string)
  (allowed : list string) :
  forallb (fun name => negb (bracketedMeasurement name)) allowed = true ->
  bracketedMeasurement value = true ->
  formatMeasurementClass value prefix allowed
  = prefix +:+ "-[" +:+ measured value +:+ "]".
Proof.
  intros Hall Hv. unfold formatMeasurementClass, measured.
  rewrite (named_not_bracketed _ _ Hall Hv).
  unfold bracketedMeasurement in Hv.
  destruct (endsWith "px" value); [reflexivity|].
  destruct (Re.test rePlainNumber value).
  - now rewrite !append_assoc.
  - simpl in Hv. now rewrite Hv.
Qed.

Lemma spacingToClass_measured (prototypeText : string -> string)
  (property value prefix : string) :
  lookupPrefix prototypeText property spacingPrefixMap = Some prefix ->
  bracketedMeasurement value = true ->
  spacingToClass prototypeText property value
  = Some (prefix +:+ "-[" +:+ measured value +:+ "]").
Proof.
  intros Hp Hv. unfold spacingToClass. rewrite Hp.
  destruct (startsWith "margin" property); f_equal;
    now apply formatMeasurementClass_bracketed.
Qed.

Lemma sizingToClass_measured (prototypeText : string -> string)
  (property value prefix : string) :
  lookupPrefix prototypeText property sizingPrefixMap = Some prefix ->
  bracketedMeasurement value = true -> value <> "100%" ->
  sizingToClass prototypeText property value
  = Some (prefix +:+ "-[" +:+ measured value +:+ "]").
Proof.
  intros Hp Hv Hne. unfold sizingToClass. rewrite Hp.
  apply String.eqb_neq in Hne. rewrite Hne. f_equal.
  now apply formatMeasurementClass_bracketed.
Qed.

(** Parsing the bracketed class of a family writes the value between the
    brackets to the property of the family. *)
Ltac parse_bracketed prefix c m :=
  unfold classesToDesign, classListOf;
  rewrite fold_left_app; cbn [fold_left];
  match goal with
  | |- getProp (parseClass (fold_left parseClass ?before emptyDesign) _)
         ?category _ = _ =>
      let Hcat := fresh "Hcat" in
      assert (is_Some (fold_left parseClass before emptyDesign !! category))
        as Hcat by (apply parsed_has_categories; simpl; tauto);
      let d0 := fresh "d0" in
      set (d0 := fold_left parseClass before emptyDesign) in *;
      clearbody d0;
      let rest := fresh "rest" in
      let Hrest := fresh "Hrest" in
      change (String c m +:+ "]") with (String c (m +:+ "]"));
      remember (m +:+ "]") as rest eqn:Hrest;
      let t :=
        eval cbv [String.append] in (prefix +:+ "-[" +:+ String c rest) in
      change (prefix +:+ "-[" +:+ String c rest) with t;
      rewrite parseClass_plain by reflexivity;
      match goal with
      | |- context [parseBaseClass d0 ?token] =>
          let r :=
            eval lazy -[setArbitrary setProp] in (parseBaseClass d0 token) in
          change (parseBaseClass d0 token) with r;
          let Hx := fresh "Hx" in
          assert (extractArbitraryValue token = Some (String c m)) as Hx
            by (subst rest;
                apply (extractArbitraryValue_bracket (prefix +:+ "-")
                         (String c m) EmptyString);
                [reflexivity | reflexivity | assumption]);
          unfold setArbitrary, truthyValue; rewrite Hx; cbn [truthy];
          now apply getProp_setProp_same
      end
  end.

Lemma measured_class (percentOfDecimal prototypeText : string -> string)
  (category property prefix value : string) :
  In (category, property, prefix) measuredFamilies ->
  bracketedMeasurement value = true ->
  (category = "sizing" -> value <> "100%") ->
  propertyToClass percentOfDecimal prototypeText category property value
  = Some (prefix +:+ "-[" +:+ measured value +:+ "]").
Proof.
  intros Hin Hv Hfull.
  pose proof (bracketedMeasurement_truthy _ Hv) as Ht.
  unfold propertyToClass. rewrite Ht. cbn [negb].
  unfold measuredFamilies in Hin. cbn [In] in Hin.
  do 27 (destruct Hin as [Heq | Hin];
          [injection Heq as <- <- <-;
           lazy [String.eqb Ascii.eqb Bool.eqb];
           first [ apply spacingToClass_measured;
                   [reflexivity | assumption]
                 | apply sizingToClass_measured;
                   [reflexivity | assumption | now apply Hfull]
                 | unfold layoutToClass, typographyToClass, bordersToClass,
                     positioningToClass;
                   lazy [String.eqb Ascii.eqb Bool.eqb listIncludes existsb
                           orb];
                   f_equal; apply formatMeasurementClass_bracketed;
                   [reflexivity | assumption] ]
          |]).
  destruct Hin.
Qed.

(** After any classes, the bracketed class of a family gives its
    property the value between the brackets. *)
Lemma bracket_parsed (category property prefix w : string)
  (before : list string) :
  In (category, property, prefix) bracketFamilies ->
  truthy w = true -> existsChar (Ascii.eqb "]") w = false ->
  getProp
    (classesToDesign (ClassArray (before ++ [prefix +:+ "-[" +:+ w +:+ "]"])))
    category property
  = Some w.
Proof.
  intros Hin Ht Hb. destruct w as [|c m]; [discriminate|].
  unfold bracketFamilies, measuredFamilies in Hin. cbn [In app] in Hin.
  do 33 (destruct Hin as [Heq | Hin];
          [injection Heq as <- <- <-;
           match goal with
           | |- context [?p +:+ "-[" +:+ String c m +:+ "]"] =>
               parse_bracketed p c m
           end
          |]).
  destruct Hin.
Qed.

(** A measurement goes through [propertyToClass] and [classesToDesign]
    and comes back, for each of the properties that are written with
    [formatMeasurementClass] and read from the brackets of their own class:
    a value that ends with [px], is a plain number or starts with a digit,
    and has no []] in it, is written as the bracketed class of the property,
    a plain number with the unit [px] added; and after any classes, that
    class gives the property the value between its brackets.  (The width
    and the other sizes write [100%] as the class [-full], which is no
    bracketed class.) *)
Theorem measurement_round_trip (percentOfDecimal prototypeText : string -> string)
  (category property prefix value : string) (before : list string) :
  In (category, property, prefix) measuredFamilies ->
  bracketedMeasurement value = true ->
  existsChar (Ascii.eqb "]") value = false ->
  (category = "sizing" -> value <> "100%") ->
  propertyToClass percentOfDecimal prototypeText category property value
  = Some (prefix +:+ "-[" +:+ measured value +:+ "]")
  /\ getProp
       (classesToDesign
          (ClassArray (before ++ [prefix +:+ "-[" +:+ measured value +:+ "]"])))
       category property
     = Some (measured value).
Proof.
  intros Hin Hv Hb Hfull. split; [now apply measured_class|].
  apply bracket_parsed.
  - unfold bracketFamilies. apply in_app_iff. now left.
  - apply measured_truthy. now apply bracketedMeasurement_truthy.
  - now apply measured_no_bracket.
Qed.

Lemma measurement_round_trip_witness :
  propertyToClass (fun v => v) (fun v => v) "spacing" "marginTop" "12" = Some "mt-[12px]"
  /\ getProp
       (classesToDesign (ClassArray (["flex"; "mt-[4px]"] ++ ["mt-[12px]"])))
       "spacing" "marginTop"
     = Some "12px".
Proof.
  apply (measurement_round_trip (fun v => v) (fun v => v) "spacing" "marginTop" "mt" "12"
           ["flex"; "mt-[4px]"]).
  - unfold measuredFamilies. cbn [In].
    repeat (first [left; reflexivity | right]).
  - vm_compute. reflexivity.
  - reflexivity.
  - discriminate.
Defined.

(** ** Measurements and colours *)

Lemma matches_consuming (r : Re.t) :
  consuming r -> forall s s', matches r s s' ->
    exists c m, s = String c m +:+ s'.
Proof.
  induction r as [|p|r1 IH1 r2 IH2|r1 IH1 r2 IH2|r IH|r IH|]; intros Hc s s' H;
    simpl in H, Hc; try contradiction.
  - destruct H as (c & -> & _). now exists c, EmptyString.
  - destruct H as (m & H1 & H2).
    destruct (matches_suffix _ _ _ H1) as [p1 Hp1].
    destruct (matches_suffix _ _ _ H2) as [p2 Hp2].
    destruct Hc as [Hc | Hc].
    + destruct (IH1 Hc _ _ H1) as (c & m1 & ->). subst m.
      exists c, (m1 +:+ p2). now rewrite !append_cons, append_assoc.
    + destruct (IH2 Hc _ _ H2) as (c & m2 & ->). subst s.
      destruct p1 as [|d p1].
      * exists c, m2. reflexivity.
      * exists d, (p1 +:+ String c m2).
        now rewrite !append_cons, !append_assoc.
  - destruct Hc as [Hc1 Hc2].
    destruct H as [H | H]; [now apply IH1 | now apply IH2].
Qed.

Lemma matches_liti (u : string) :
  forall s s', matches (Re.liti u) s s' ->
    exists w, s = w +:+ s' /\ toLowerCase w = toLowerCase u.
Proof.
  induction u as [|x u IH]; intros s s' H; simpl in H.
  - subst. now exists EmptyString.
  - destruct H as (m & (c & -> & Hc) & H2).
    destruct (IH _ _ H2) as (w & -> & Hw).
    exists (String c w). split; [reflexivity|].
    simpl. apply Ascii.eqb_eq in Hc. now rewrite Hc, Hw.
Qed.

Lemma matches_alts (l : list Re.t) (s s' : string) :
  matches (Re.alts l) s s' -> exists r, In r l /\ matches r s s'.
Proof.
  induction l as [|r l IH]; simpl.
  - intros [_ H]. exfalso. apply H. now exists s.
  - destruct l as [|r' l].
    + intros H. exists r. split; [now left | exact H].
    + intros [H | H].
      * exists r. split; [now left | exact H].
      * destruct (IH H) as (r0 & Hin & Hr0). exists r0.
        split; [now right | exact Hr0].
Qed.

Lemma hexColorChar_lower (c : ascii) :
  isHexColorChar (lowerChar c) = isHexColorChar c.
Proof. destruct c as [[] [] [] [] [] [] [] []]; reflexivity. Qed.

Lemma numberChar_lower (c : ascii) :
  isNumberChar c = true -> lowerChar c = c.
Proof.
  destruct c as [[] [] [] [] [] [] [] []]; intros H;
    first [reflexivity | discriminate H].
Qed.

Lemma forallChar_lower (s : string) :
  forallChar isHexColorChar (toLowerCase s) = forallChar isHexColorChar s.
Proof.
  induction s as [|c s IH]; [reflexivity|]. simpl.
  now rewrite hexColorChar_lower, IH.
Qed.

(** The units of a measurement: each has a letter that no hexadecimal
    colour has. *)
Lemma unit_not_hex (s s' : string) :
  matches
    (Re.wordsi ["px"; "rem"; "em"; "%"; "vh"; "vw"; "vmin"; "vmax";
                "ch"; "ex"; "cm"; "mm"; "in"; "pt"; "pc"]) s s' ->
  exists w, s = w +:+ s' /\ forallChar isHexColorChar w = false.
Proof.
  intros H. unfold Re.wordsi in H.
  apply matches_alts in H as (r & Hin & Hr).
  apply in_map_iff in Hin as (u & <- & Hu).
  apply matches_liti in Hr as (w & -> & Hw).
  exists w. split; [reflexivity|].
  rewrite <- forallChar_lower, Hw.
  simpl in Hu.
  repeat (destruct Hu as [<- | Hu]; [reflexivity|]). destruct Hu.
Qed.

Lemma number_first_char (s s' : string) :
  matches reNumber s s' ->
  exists c m, s = String c m +:+ s' /\ isNumberChar c = true.
Proof.
  intros H.
  assert (usesOnly isNumberChar reNumber) as Hu.
  { unfold reNumber, Re.seqs, Re.opt, Re.plus, Re.digit. cbn [usesOnly].
    repeat split; trivial; intros c Hc;
      try (apply Ascii.eqb_eq in Hc; subst c; reflexivity);
      unfold isNumberChar; now rewrite Hc. }
  assert (consuming reNumber) as Hc.
  { unfold reNumber, Re.seqs, Re.plus, Re.digit. cbn [consuming]. tauto. }
  destruct (matches_usesOnly _ _ Hu _ _ H) as (m & -> & Hm).
  destruct (matches_consuming _ Hc _ _ H) as (c & m' & Heq).
  destruct m as [|d m].
  - exfalso. rewrite append_nil in Heq.
    apply (f_equal String.length) in Heq. rewrite length_append in Heq.
    simpl in Heq. lia.
  - exists d, m. split; [reflexivity|].
    simpl in Hm. now apply andb_prop in Hm as [Hd _].
Qed.

Lemma keyword_first_char (c : ascii) (rest : string) (keywords : list string) :
  isNumberChar c = true ->
  forallb (fun kw => match kw with
                     | String k _ => negb (isNumberChar k)
                     | EmptyString => true
                     end) keywords = true ->
  listIncludes (String c rest) keywords = false.
Proof.
  intros Hc Hall. apply not_true_is_false. intros H.
  unfold listIncludes in H. apply existsb_exists in H as (kw & Hin & Heq).
  apply String.eqb_eq in Heq. subst kw.
  rewrite forallb_forall in Hall. specialize (Hall _ Hin). simpl in Hall.
  now rewrite Hc in Hall.
Qed.

Lemma colorFn_first_char (name : string) (c : ascii) (rest : string) :
  isNumberChar c = true ->
  match toLowerCase name with
  | String k _ => isNumberChar k = false
  | EmptyString => False
  end ->
  Re.test (reColorFn name) (String c rest) = false.
Proof.
  intros Hc Hname. apply not_true_is_false. intros H.
  apply test_matches in H as (s' & H).
  unfold reColorFn, Re.seqs in H. cbn [matches] in H.
  destruct H as (m & H1 & _).
  apply matches_liti in H1 as (w & Heq & Hw).
  destruct w as [|d w].
  - simpl in Hw. rewrite <- Hw in Hname. contradiction.
  - rewrite append_cons in Heq. injection Heq as <- _.
    simpl in Hw. rewrite <- Hw in Hname.
    rewrite (numberChar_lower _ Hc) in Hname. congruence.
Qed.

Lemma hex_needs_hex_chars (n : nat) (s : string) :
  Re.test (reHex n) s = true -> forallChar isHexColorChar s = true.
Proof.
  apply test_chars.
  - unfold reHex, Re.seqs, Re.opt. cbn [usesOnly]. repeat split; trivial.
    + intros c Hc. apply Ascii.eqb_eq in Hc. now subst c.
    + induction n as [|n IH]; simpl; [exact I|]. split; [|exact IH].
      intros c Hc. unfold isHexColorChar. now rewrite Hc.
  - unfold reHex, Re.seqs. cbn [endsAtEnd]. exact I.
Qed.

Lemma measurement_not_color (value : string) :
  Re.test reNumberUnit value = true -> isColorValue value = false.
Proof.
  intros H. apply test_matches in H as (s' & H).
  unfold reNumberUnit, Re.seqs in H. cbn [matches] in H.
  destruct H as (m1 & Hnum & m2 & Hunit & -> & ->).
  destruct (number_first_char _ _ Hnum) as (c & m & -> & Hc).
  destruct (unit_not_hex _ _ Hunit) as (w & -> & Hw).
  rewrite append_nil_r.
  assert (forall n, Re.test (reHex n) (String c m +:+ w) = false) as Hhex.
  { intros n. apply not_true_is_false. intros Ht.
    apply hex_needs_hex_chars in Ht. rewrite forallChar_app in Ht.
    apply andb_prop in Ht as [_ Ht]. congruence. }
  unfold isColorValue. rewrite !Hhex. rewrite append_cons.
  rewrite (colorFn_first_char "rgb" c (m +:+ w) Hc) by reflexivity.
  rewrite (colorFn_first_char "hsl" c (m +:+ w) Hc) by reflexivity.
  cbn [toLowerCase]. rewrite (numberChar_lower _ Hc).
  rewrite (keyword_first_char c (toLowerCase (m +:+ w)) colorKeywords Hc)
    by reflexivity.
  repeat match goal with
         | |- context [if ?b then _ else _] => destruct b
         end; reflexivity.
Qed.

(** No measurement is taken for a colour: [isColorValue] is false on
    every number with a unit, so that the colour tests of the function never
    answer before its test for a size does. *)
Theorem isColorValue_false_on_measurements (value : string) :
  Re.test reNumberUnit value = true -> isColorValue value = false.
Proof. apply measurement_not_color. Qed.

Lemma isColorValue_false_on_measurements_witness :
  isColorValue "1.5REM" = false.
Proof.
  apply isColorValue_false_on_measurements. vm_compute. reflexivity.
Defined.

(** ** The two readings of [text-[...]] *)

Lemma colorOfClass_bracket (v : string) :
  truthy v = true -> existsChar (Ascii.eqb "]") v = false ->
  colorOfClass ("text-[" +:+ v +:+ "]")
  = if isColorValue v then Some v else None.
Proof.
  intros Ht Hv. unfold colorOfClass, truthyValue.
  rewrite (startsWith_app "text-[").
  change ("text-[" +:+ v +:+ "]") with ("text-" +:+ String "[" (v +:+ "]")).
  rewrite (extractArbitraryValue_bracket "text-" v EmptyString)
    by first [reflexivity | assumption].
  now rewrite Ht.
Qed.

Lemma getAffectedProperties_text_bracket (v : string) :
  truthy v = true -> existsChar (Ascii.eqb "]") v = false ->
  getAffectedProperties ("text-[" +:+ v +:+ "]")
  = [if isColorValue v then "color" else "fontSize"].
Proof.
  intros Ht Hv. unfold getAffectedProperties, truthyValue.
  rewrite (startsWith_app "text-[").
  change ("text-[" +:+ v +:+ "]") with ("text-" +:+ String "[" (v +:+ "]")).
  rewrite (extractArbitraryValue_bracket "text-" v EmptyString)
    by first [reflexivity | assumption].
  rewrite Ht. now destruct (isColorValue v).
Qed.

(** Evaluates the rules of the parser on a class whose first characters
    are known, up to the properties that they write. *)
Ltac eval_rules :=
  repeat match goal with
         | |- context [applyRules (?rules ?token) ?d] =>
             let r :=
               eval lazy -[setArbitrary setProp] in (applyRules (rules token) d)
             in change (applyRules (rules token) d) with r
         end.

Lemma parse_text_bracket (design : gmap string (gmap string string))
  (v : string) :
  truthy v = true -> existsChar (Ascii.eqb "]") v = false ->
  parseClass design ("text-[" +:+ v +:+ "]")
  = if isColorValue v then setProp "typography" "color" v design
    else setProp "typography" "fontSize" v design.
Proof.
  intros Ht Hv.
  pose proof (colorOfClass_bracket v Ht Hv) as Hcolor.
  assert (extractArbitraryValue ("text-[" +:+ v +:+ "]") = Some v) as Hx
    by (apply (extractArbitraryValue_bracket "text-" v EmptyString);
        first [reflexivity | assumption]).
  destruct v as [|c m]; [discriminate|].
  change (String c m +:+ "]") with (String c (m +:+ "]")) in *.
  remember (m +:+ "]") as rest eqn:Hrest.
  match type of Hx with
  | extractArbitraryValue ?t = _ =>
      let s := eval cbv [String.append] in t in
      change t with s in *
  end.
  rewrite parseClass_plain by reflexivity.
  unfold parseBaseClass. cbv zeta. rewrite Hcolor. eval_rules.
  destruct (isColorValue (String c m)); [reflexivity|].
  unfold setArbitrary, truthyValue. now rewrite Hx.
Qed.

(** The parser reads a class [text-[v]] as [isColorValue] classifies its
    value: as the colour of the text when the value is a colour, and as the
    font size otherwise.  It writes that one property and leaves the other as
    the classes before have set it; and the property that it writes is the
    one that [getAffectedProperties] names for the class. *)
Theorem text_bracket_read_by_kind (before : list string) (v : string) :
  truthy v = true -> existsChar (Ascii.eqb "]") v = false ->
  let cls := "text-[" +:+ v +:+ "]" in
  let written := if isColorValue v then "color" else "fontSize" in
  let other := if isColorValue v then "fontSize" else "color" in
  getProp (classesToDesign (ClassArray (before ++ [cls]))) "typography" written
  = Some v
  /\ getProp (classesToDesign (ClassArray (before ++ [cls]))) "typography" other
     = getProp (classesToDesign (ClassArray before)) "typography" other
  /\ getAffectedProperties cls = [written].
Proof.
  intros Ht Hv cls written other. subst cls written other.
  unfold classesToDesign, classListOf. rewrite fold_left_app. cbn [fold_left].
  rewrite (parse_text_bracket _ v Ht Hv).
  pose proof (parsed_has_categories before "typography") as Hcat.
  rewrite (getAffectedProperties_text_bracket v Ht Hv).
  destruct (isColorValue v); (split; [|split; [|reflexivity]]).
  - apply getProp_setProp_same, Hcat. simpl. tauto.
  - now apply getProp_setProp_other.
  - apply getProp_setProp_same, Hcat. simpl. tauto.
  - now apply getProp_setProp_other.
Qed.

Lemma text_bracket_read_by_kind_witness :
  getProp (classesToDesign (ClassArray (["text-[12px]"] ++ ["text-[#0000ff]"])))
    "typography" "color" = Some "#0000ff"
  /\ getProp (classesToDesign (ClassArray (["text-[12px]"] ++ ["text-[#0000ff]"])))
       "typography" "fontSize" = Some "12px".
Proof.
  destruct (text_bracket_read_by_kind ["text-[12px]"] "#0000ff")
    as (Hcolor & Hsize & _); [reflexivity | reflexivity |].
  split; [exact Hcolor|].
  etransitivity; [exact Hsize | vm_compute; reflexivity].
Defined.

(** The font size and the colour of the text come back through
    [propertyToClass] and [classesToDesign] although they share the class
    [text-[...]], for a value without []] and after any classes.  A font
    size that [formatMeasurementClass] puts between brackets (it ends with
    [px], is a plain number or starts with a digit) and that, with [px]
    added to a plain number, is a number with one of the units of the colour
    test, is written as the class [text-[...]] and comes back as the font
    size, the plain number with [px] added.  A colour that starts with [#]
    or [rgb] and that [isColorValue] accepts is written as the class
    [text-[...]] and comes back as the colour.  A font size that is not put
    between brackets, like [.5rem], is outside the statement. *)
Theorem text_overload_round_trip (percentOfDecimal prototypeText : string -> string)
  (value : string) (before : list string) :
  existsChar (Ascii.eqb "]") value = false ->
  (bracketedMeasurement value = true ->
   Re.test reNumberUnit (measured value) = true ->
   propertyToClass percentOfDecimal prototypeText "typography" "fontSize" value
   = Some ("text-[" +:+ measured value +:+ "]")
   /\ getProp
        (classesToDesign
           (ClassArray (before ++ ["text-[" +:+ measured value +:+ "]"])))
        "typography" "fontSize"
      = Some (measured value))
  /\ (looksLikeColorLiteral value = true -> isColorValue value = true ->
      propertyToClass percentOfDecimal prototypeText "typography" "color" value
      = Some ("text-[" +:+ value +:+ "]")
      /\ getProp
           (classesToDesign
              (ClassArray (before ++ ["text-[" +:+ value +:+ "]"])))
           "typography" "color"
         = Some value).
Proof.
  intros Hb.
  pose proof (parsed_has_categories before "typography") as Hcat.
  split.
  - intros Hv Hunit.
    pose proof (bracketedMeasurement_truthy _ Hv) as Ht.
    split.
    + unfold propertyToClass. rewrite Ht. cbn [negb].
      lazy [String.eqb Ascii.eqb Bool.eqb]. unfold typographyToClass.
      lazy [String.eqb Ascii.eqb Bool.eqb]. f_equal.
      now apply formatMeasurementClass_bracketed.
    + unfold classesToDesign, classListOf.
      rewrite fold_left_app. cbn [fold_left].
      rewrite parse_text_bracket
        by (first [now apply measured_truthy | now apply measured_no_bracket]).
      rewrite (measurement_not_color _ Hunit).
      apply getProp_setProp_same, Hcat. simpl. tauto.
  - intros Hlit Hcolor.
    assert (truthy value = true) as Ht by (now destruct value).
    split.
    + unfold propertyToClass. rewrite Ht. cbn [negb].
      lazy [String.eqb Ascii.eqb Bool.eqb]. unfold typographyToClass.
      lazy [String.eqb Ascii.eqb Bool.eqb]. now rewrite Hlit.
    + unfold classesToDesign, classListOf.
      rewrite fold_left_app. cbn [fold_left].
      rewrite parse_text_bracket by assumption. rewrite Hcolor.
      apply getProp_setProp_same, Hcat. simpl. tauto.
Qed.

Lemma text_overload_round_trip_witness :
  propertyToClass (fun v => v) (fun v => v) "typography" "fontSize" "16"
  = Some "text-[16px]"
  /\ getProp (classesToDesign (ClassArray (["text-[#ff0000]"] ++ ["text-[16px]"])))
       "typography" "fontSize" = Some "16px".
Proof.
  destruct (text_overload_round_trip (fun v => v) (fun v => v) "16" ["text-[#ff0000]"])
    as [Hsize _]; [reflexivity|].
  apply Hsize; vm_compute; reflexivity.
Defined.

(** ** Text resolution: live placeholders and plain text *)

Lemma existsb_cfId_in (fieldId : string) (fields : list CollectionField) :
  In fieldId (map cfId fields) ->
  existsb (fun f => String.eqb (cfId f) fieldId) fields = true.
Proof.
  intros Hin. apply in_map_iff in Hin as (f & Heq & Hin).
  apply existsb_exists. exists f. split; [exact Hin|].
  now apply String.eqb_eq.
Qed.

Lemma live_variable_value (prototypeText : string -> string)
  (vars : gmap string FieldVariable) (data : ItemData)
  (fields : list CollectionField)
  (id fieldId : string) (variable : FieldVariable) :
  vars !! id = Some variable -> fieldIdOf variable = Some fieldId ->
  In fieldId (map cfId fields) ->
  resolved prototypeText vars data fields id
  = itemText prototypeText (definedValue data fieldId).
Proof.
  intros Hv Hf Hin. unfold resolved. rewrite Hv, Hf.
  now rewrite (existsb_cfId_in _ _ Hin).
Qed.

(** For a layer whose own text is no field reference and a field list of
    the collection that is an array: a placeholder of the inline template
    that follows a text without [<], and whose field is in the field list,
    is replaced by the value of the field in the record; by nothing when the
    record has no value or [null] for the field; and, when the field id is
    no key of the record but the name of a member of [Object.prototype], by
    the text of that member.  Without a record the placeholder is removed.
    The text before the placeholder is kept as it is, and the rest of the
    template is resolved in the same way. *)
Theorem getText_live_placeholder
  (prototypeText : string -> string)
  (collectionFields : CollectionFields) (layer : Layer)
  (collectionId : option string)
  (inlineContent : InlineVariableContent) (vars : gmap string FieldVariable)
  (fields : list CollectionField)
  (id fieldId plain rest : string) (variable : FieldVariable) :
  isFieldReference (textOrContent layer) = false ->
  variables layer = Some {| lvText := Some inlineContent |} ->
  ivcVariables inlineContent = Some vars ->
  vars !! id = Some variable ->
  fieldIdOf variable = Some fieldId ->
  fieldsFor collectionFields collectionId = FieldArray fields ->
  In fieldId (map cfId fields) ->
  ivcData inlineContent = plain +:+ markerOf id +:+ rest ->
  existsChar (fun c => Ascii.eqb c "<"%char) plain = false ->
  validId id = true ->
  (forall data : ItemData,
     getText prototypeText collectionFields layer (Some data) collectionId
     = Returns
         (TextString
            (plain
             +:+ match data !! fieldId with
                 | Some (Some value) => value
                 | Some None => EmptyString
                 | None =>
                     if isPrototypeKey fieldId then prototypeText fieldId
                     else EmptyString
                 end
             +:+ rendered (resolved prototypeText vars data fields)
                   (scanMarkers rest))))
  /\ getText prototypeText collectionFields layer None collectionId
     = Returns
         (TextString
            (plain +:+ rendered (fun _ => EmptyString) (scanMarkers rest))).
Proof.
  intros Hnf Hvars Hiv Hv Hf Hfields Hin Hdata Hplain Hid. split.
  - intros data.
    rewrite (getText_inline _ _ _ _ _ _ _ _ Hnf Hvars Hiv Hfields), Hdata.
    rewrite (scan_plain _ _ Hplain), (scan_marker _ _ Hid).
    rewrite rendered_app, rendered_literal. cbn [rendered placeholderValue].
    rewrite (live_variable_value _ _ _ _ _ _ _ Hv Hf Hin).
    unfold itemText, definedValue.
    destruct (data !! fieldId) as [[value|]|]; try reflexivity.
    now destruct (isPrototypeKey fieldId).
  - rewrite (getText_inline _ _ _ _ _ _ _ _ Hnf Hvars Hiv Hfields), Hdata.
    rewrite (scan_plain _ _ Hplain), (scan_marker _ _ Hid).
    now rewrite rendered_app, rendered_literal.
Qed.

Lemma getText_live_placeholder_witness :
  let title := {| fvType := "field";
                  fvData := Some {| field_id := "title" |} |} in
  let template :=
    {| ivcData := "Read " +:+ markerOf "v1" +:+ " now";
       ivcVariables := Some {[ "v1" := title ]} |} in
  let layer :=
    {| text := None; content := None;
       variables := Some {| lvText := Some template |} |} in
  let fields : CollectionFields :=
    {[ "blog" := [ {| cfId := "title"; cfName := "Title" |} ] ]} in
  getText (fun key => key) fields layer (Some {[ "title" := Some "News" ]})
    (Some "blog")
  = Returns (TextString "Read News now")
  /\ getText (fun key => key) fields layer None (Some "blog")
     = Returns (TextString "Read  now").
Proof.
  intros title template layer fields.
  destruct (getText_live_placeholder (fun key => key) fields layer
              (Some "blog") template
              {[ "v1" := title ]}
              [ {| cfId := "title"; cfName := "Title" |} ]
              "v1" "title" "Read " " now" title)
    as [Hdata Hnone]; try reflexivity.
  - vm_compute. tauto.
  - split; [rewrite Hdata | rewrite Hnone]; vm_compute; reflexivity.
Defined.

Lemma includes_needs_first (c : ascii) (sub s : string) :
  existsChar (fun x => Ascii.eqb x c) s = false ->
  includes (String c sub) s = false.
Proof.
  induction s as [|x s IH]; intros H.
  - reflexivity.
  - cbn [existsChar] in H. apply orb_false_elim in H as [Hx Hs].
    cbn [includes]. rewrite (IH Hs), orb_false_r.
    unfold startsWith. cbn [String.prefix].
    destruct (ascii_dec c x) as [->|]; [|reflexivity].
    now rewrite Ascii.eqb_refl in Hx.
Qed.

Lemma scan_all_plain (plain : string) :
  existsChar (fun c => Ascii.eqb c "<"%char) plain = false ->
  scanMarkers plain = map Lit (list_ascii_of_string plain).
Proof.
  intros Hplain. pose proof (scan_plain plain EmptyString Hplain) as H.
  rewrite append_nil_r in H. rewrite H. apply app_nil_r.
Qed.

Lemma renderSegments_literal (replacer : string -> Outcome string)
  (plain : string) :
  renderSegments replacer (map Lit (list_ascii_of_string plain))
  = Returns plain.
Proof.
  rewrite (renderSegments_returns _ (fun _ => EmptyString)).
  - now rewrite rendered_literal.
  - intros id Hin. apply in_map_iff in Hin as (c & Hc & _). discriminate.
Qed.

(** For a layer whose own text is no field reference, a text without [<]
    comes back from [getText] as it is, whatever the record, the collection
    id and the fields of the collections: the data of the inline template
    when the layer has one, and otherwise its own text, or its content when
    it has no text. *)
Theorem getText_plain_unchanged
  (prototypeText : string -> string)
  (collectionFields : CollectionFields) (layer : Layer)
  (collectionItemData : option ItemData) (collectionId : option string) :
  isFieldReference (textOrContent layer) = false ->
  (forall inlineContent,
     variables layer = Some {| lvText := Some inlineContent |} ->
     existsChar (fun c => Ascii.eqb c "<"%char) (ivcData inlineContent)
     = false ->
     getText prototypeText collectionFields layer collectionItemData
       collectionId
     = Returns (TextString (ivcData inlineContent)))
  /\ (forall s,
        (variables layer = None \/ variables layer = Some {| lvText := None |}) ->
        textOrContent layer = TextString s ->
        existsChar (fun c => Ascii.eqb c "<"%char) s = false ->
        getText prototypeText collectionFields layer collectionItemData
          collectionId
        = Returns (TextString s)).
Proof.
  intros Hnf. split.
  - intros inlineContent Hvars Hplain.
    assert (forall replacer,
              replaceMarkers replacer (ivcData inlineContent)
              = Returns (ivcData inlineContent)) as Hsame.
    { intros replacer. unfold replaceMarkers.
      rewrite (scan_all_plain _ Hplain). apply renderSegments_literal. }
    unfold getText. rewrite Hvars.
    destruct (textOrContent layer) as [s|v|key]; simpl in Hnf.
    + destruct collectionItemData, (ivcVariables inlineContent);
        now rewrite Hsame.
    + destruct (fieldIdOf v); [discriminate|].
      destruct collectionItemData, (ivcVariables inlineContent);
        now rewrite Hsame.
    + destruct collectionItemData, (ivcVariables inlineContent);
        now rewrite Hsame.
  - intros s Hvars Htext Hplain. unfold getText. rewrite Htext.
    assert (includes legacyOpen s = false) as Hinc
      by (now apply includes_needs_first).
    destruct Hvars as [-> | ->]; now rewrite Hinc.
Qed.

Lemma getText_plain_unchanged_witness :
  let title := {| fvType := "field";
                  fvData := Some {| field_id := "title" |} |} in
  let template :=
    {| ivcData := "a > b"; ivcVariables := Some {[ "v1" := title ]} |} in
  getText (fun key => key) ∅
    {| text := Some (TextString "fallback"); content := None;
       variables := Some {| lvText := Some template |} |}
    (Some {[ "title" := Some "News" ]}) (Some "constructor")
  = Returns (TextString "a > b")
  /\ getText (fun key => key) ∅
       {| text := None; content := Some "a > b"; variables := None |}
       None None
     = Returns (TextString "a > b").
Proof.
  intros title template. split.
  - apply (proj1 (getText_plain_unchanged (fun key => key) ∅
                    {| text := Some (TextString "fallback"); content := None;
                       variables := Some {| lvText := Some template |} |}
                    (Some {[ "title" := Some "News" ]}) (Some "constructor")
                    eq_refl) template);
      reflexivity.
  - apply (proj2 (getText_plain_unchanged (fun key => key) ∅
                    {| text := None; content := Some "a > b";
                       variables := None |} None None eq_refl));
      [left; reflexivity | reflexivity | reflexivity].
Defined.

(** ** Legacy tags in a plain text *)

Lemma includes_here (sub s : string) :
  startsWith sub s = true -> includes sub s = true.
Proof. intros H. destruct s; cbn [includes]; now rewrite H. Qed.

Lemma includes_app (sub a rest : string) :
  includes sub (a +:+ sub +:+ rest) = true.
Proof.
  induction a as [|c a IH].
  - rewrite append_nil. apply includes_here, startsWith_app.
  - rewrite append_cons. cbn [includes]. rewrite IH. apply orb_true_r.
Qed.

Lemma lazyUntilClose_eq (s : string) :
  lazyUntilClose s
  = if startsWith legacyClose s then Some 0
    else match s with
         | EmptyString => None
         | String c s' =>
             if Re.isDot c then
               match lazyUntilClose s' with
               | Some n => Some (S n)
               | None => None
               end
             else None
         end.
Proof. now destruct s. Qed.

Lemma startsWith_other_char (c x : ascii) (p s : string) :
  Ascii.eqb x c = false -> startsWith (String c p) (String x s) = false.
Proof.
  intros H. unfold startsWith. cbn [String.prefix].
  destruct (ascii_dec c x) as [->|]; [|reflexivity].
  now rewrite Ascii.eqb_refl in H.
Qed.

Lemma lazyUntilClose_body (body rest : string) :
  forallChar Re.isDot body = true ->
  existsChar (fun c => Ascii.eqb c "<"%char) body = false ->
  lazyUntilClose (body +:+ legacyClose +:+ rest)
  = Some (String.length body).
Proof.
  induction body as [|c body IH]; intros Hdot Hlt.
  - rewrite append_nil, lazyUntilClose_eq. now rewrite startsWith_app.
  - cbn [forallChar] in Hdot. apply andb_prop in Hdot as [Hc Hdot].
    cbn [existsChar] in Hlt. apply orb_false_elim in Hlt as [Hx Hlt].
    rewrite append_cons, lazyUntilClose_eq.
    unfold legacyClose at 1. rewrite (startsWith_other_char _ _ _ _ Hx).
    now rewrite Hc, (IH Hdot Hlt).
Qed.

Lemma existsChar_negb_negb (p : ascii -> bool) (s : string) :
  existsChar (fun x => negb (negb (p x))) s = existsChar p s.
Proof.
  induction s as [|c s IH]; [reflexivity|].
  cbn [existsChar]. now rewrite IH, negb_involutive.
Qed.

Lemma matchLegacy_tag (attrs body rest : string) :
  existsChar (fun c => Ascii.eqb c ">"%char) attrs = false ->
  forallChar Re.isDot body = true ->
  existsChar (fun c => Ascii.eqb c "<"%char) body = false ->
  matchLegacy (legacyTag attrs body +:+ rest)
  = Some (String.length (legacyTag attrs body)).
Proof.
  intros Ha Hdot Hlt. unfold matchLegacy, legacyTag.
  rewrite !append_assoc, startsWith_app, slice_app.
  change (">" +:+ body +:+ legacyClose +:+ rest)
    with (String ">" (body +:+ legacyClose +:+ rest)).
  rewrite spanChars_stop.
  - rewrite (lazyUntilClose_body _ _ Hdot Hlt).
    rewrite !length_append. simpl String.length. f_equal. lia.
  - rewrite existsChar_negb_negb. exact Ha.
  - reflexivity.
Qed.

Lemma stripLegacyFrom_skip (a rest : string) :
  stripLegacyFrom (String.length a) (a +:+ rest) = stripLegacyFrom 0 rest.
Proof.
  induction a as [|x a IH]; [reflexivity|].
  rewrite append_cons. exact IH.
Qed.

Lemma strip_tag (attrs body rest : string) :
  existsChar (fun c => Ascii.eqb c ">"%char) attrs = false ->
  forallChar Re.isDot body = true ->
  existsChar (fun c => Ascii.eqb c "<"%char) body = false ->
  stripLegacyFrom 0 (legacyTag attrs body +:+ rest) = stripLegacyFrom 0 rest.
Proof.
  intros Ha Hdot Hlt.
  pose proof (matchLegacy_tag attrs body rest Ha Hdot Hlt) as Hm.
  remember (legacyTag attrs body) as tag eqn:Et.
  assert (exists c tail, tag = String c tail) as (c & tail & ->).
  { subst tag. unfold legacyTag, legacyOpen. eexists. eexists. reflexivity. }
  rewrite append_cons in *. cbn [stripLegacyFrom]. rewrite Hm.
  simpl String.length. rewrite Nat.sub_1_r. simpl Nat.pred.
  apply stripLegacyFrom_skip.
Qed.

Lemma strip_plain (plain rest : string) :
  existsChar (fun c => Ascii.eqb c "<"%char) plain = false ->
  stripLegacyFrom 0 (plain +:+ rest) = plain +:+ stripLegacyFrom 0 rest.
Proof.
  induction plain as [|c plain IH]; intros H; [reflexivity|].
  cbn [existsChar] in H. apply orb_false_elim in H as [Hc Hp].
  rewrite !append_cons. cbn [stripLegacyFrom].
  assert (matchLegacy (String c (plain +:+ rest)) = None) as ->.
  { unfold matchLegacy, legacyOpen.
    now rewrite (startsWith_other_char _ _ _ _ Hc). }
  now rewrite (IH Hp).
Qed.

(** A legacy variable tag in the plain text of a layer without an inline
    template is removed with its attributes and its body: for a text that is
    text without [<], then a tag whose attributes have no [>] and whose body
    has no [<] and no line break, then anything, [getText] returns the text
    before the tag followed by the rest with its tags removed, and by the rest
    itself when the rest has no [<]. *)
Theorem getText_strips_legacy_tag
  (prototypeText : string -> string)
  (collectionFields : CollectionFields) (layer : Layer)
  (collectionItemData : option ItemData) (collectionId : option string)
  (plain attrs body rest : string) :
  (variables layer = None \/ variables layer = Some {| lvText := None |}) ->
  textOrContent layer = TextString (plain +:+ legacyTag attrs body +:+ rest) ->
  existsChar (fun c => Ascii.eqb c "<"%char) plain = false ->
  existsChar (fun c => Ascii.eqb c ">"%char) attrs = false ->
  forallChar Re.isDot body = true ->
  existsChar (fun c => Ascii.eqb c "<"%char) body = false ->
  getText prototypeText collectionFields layer collectionItemData collectionId
  = Returns (TextString (plain +:+ stripLegacyFrom 0 rest))
  /\ (existsChar (fun c => Ascii.eqb c "<"%char) rest = false ->
      getText prototypeText collectionFields layer collectionItemData
        collectionId
      = Returns (TextString (plain +:+ rest))).
Proof.
  intros Hvars Htext Hplain Ha Hdot Hlt.
  assert (getText prototypeText collectionFields layer collectionItemData
            collectionId
          = Returns (TextString (plain +:+ stripLegacyFrom 0 rest))) as Hget.
  { unfold getText. rewrite Htext.
    assert (includes legacyOpen (plain +:+ legacyTag attrs body +:+ rest)
            = true) as Hinc.
    { unfold legacyTag. rewrite !append_assoc. apply includes_app. }
    rewrite Hinc, (strip_plain _ _ Hplain), (strip_tag _ _ _ Ha Hdot Hlt).
    now destruct Hvars as [-> | ->]. }
  split; [exact Hget|].
  intros Hrest. rewrite Hget. do 3 f_equal.
  pose proof (strip_plain rest EmptyString Hrest) as H.
  rewrite append_nil_r in H. rewrite H. apply append_nil_r.
Qed.

Lemma getText_strips_legacy_tag_witness :
  getText (fun key => key) ∅
    {| text := Some (TextString
                       ("Hi " +:+ legacyTag " id=1" "name" +:+ "!"));
       content := None; variables := None |}
    None None
  = Returns (TextString "Hi !").
Proof.
  apply (getText_strips_legacy_tag (fun key => key) ∅
           {| text := Some (TextString
                              ("Hi " +:+ legacyTag " id=1" "name" +:+ "!"));
              content := None; variables := None |}
           None None "Hi " " id=1" "name" "!");
    first [left; reflexivity | reflexivity].
Defined.

(** ** The properties above at concrete inputs *)

Lemma breakpoint_filter_cascade_witness :
  words (filterClassesByBreakpoint "p-4 md:p-2 lg:p-1" "wide")
  = words (filterClassesByBreakpoint "p-4 md:p-2 lg:p-1" "mobile").
Proof.
  apply (proj2 (proj2 (breakpoint_filter_cascade "p-4 md:p-2 lg:p-1")));
    discriminate.
Defined.

Lemma removeConflictingClasses_only_removes_witness :
  (exists kept,
     removeConflictingClasses ["flex"; "w-full"] "width" = Returns kept
     /\ sublist kept ["flex"; "w-full"])
  /\ removeConflictingClasses ["flex"; "w-full"] "constructor" = Throws.
Proof.
  split.
  - destruct (proj1 (removeConflictingClasses_only_removes
                       ["flex"; "w-full"] "width") eq_refl)
      as (kept & Hkept & Hsub & _).
    exists kept. now split.
  - apply (proj2 (removeConflictingClasses_only_removes
                    ["flex"; "w-full"] "constructor") eq_refl).
Defined.

Lemma removeConflictingClasses_commute_witness :
  (kept ← removeConflictingClasses ["w-full"; "h-full"; "flex"] "width";
   removeConflictingClasses kept "height")
  = (kept ← removeConflictingClasses ["w-full"; "h-full"; "flex"] "height";
     removeConflictingClasses kept "width").
Proof.
  apply (removeConflictingClasses_commute ["w-full"; "h-full"; "flex"]
           "width" "height"); reflexivity.
Defined.

Lemma parseFullClass_agrees_with_parseBreakpointClass_witness :
  fcBaseClass (parseFullClass "max-lg:w-full")
  = bcBaseClass (parseBreakpointClass "max-lg:w-full").
Proof.
  apply (proj2 (parseFullClass_agrees_with_parseBreakpointClass
                  "max-lg:w-full")).
  reflexivity.
Defined.

Lemma getInheritedValue_from_the_list_witness :
  In tablet (inheritanceChain tablet)
  /\ (exists pattern,
        getConflictingClassPattern "width" = Some (RegExp pattern)
        /\ Re.test pattern "w-[50px]" = true)
  /\ (In (getBreakpointPrefix tablet +:+ "w-[50px]") ["w-full"; "md:w-[50px]"]
      \/ In (getBreakpointPrefix tablet +:+ getUIStatePrefix neutral
             +:+ "w-[50px]") ["w-full"; "md:w-[50px]"]).
Proof.
  refine (proj2 (proj2 (proj2 (getInheritedValue_from_the_list
                                 ["w-full"; "md:w-[50px]"] "width" tablet
                                 neutral))
                   {| value := Some "w-[50px]"; source := Some tablet |} _)
            "w-[50px]" tablet _ _);
    vm_compute; reflexivity.
Defined.

(** ** Round trips through [propertyToClass] and [classesToDesign] *)



Lemma startsWith_app_r (p v tail : string) :
  startsWith p v = true -> startsWith p (v +:+ tail) = true.
Proof.
  unfold startsWith. revert v. induction p as [|a p IH]; intros v H.
  - apply prefix_nil.
  - destruct v as [|c v]; [discriminate|].
    rewrite append_cons. cbn [String.prefix] in *.
    destruct (ascii_dec a c); [now apply IH | discriminate].
Qed.






































(** ** Text resolution: placeholders of fields that are gone *)

(** C9 as stated fails, in three ways.  When [layer.text] is itself bound
    to a field, [getText] returns the value of that field and never reads
    the template.  When the collection id is the name of a member of
    [Object.prototype] and no key of [collectionFields], the field list is
    that member, and the call throws at the first marker of a field
    variable.  And where a marker of the stale variable stands inside the
    text of another marker, removing it joins the text around it to a raw
    marker of the variable, which is the output. *)
Lemma getText_stale_counterexamples :
  let stale :=
    {| fvType := "field"; fvData := Some {| field_id := "gone" |} |} in
  let template :=
    {| ivcData := "Hi " +:+ markerOf "v1";
       ivcVariables := Some {[ "v1" := stale ]} |} in
  let nested :=
    {| ivcData := markerOpen +:+ "v1" +:+ markerOf "v1" +:+ markerClose;
       ivcVariables := Some {[ "v1" := stale ]} |} in
  let bound :=
    {| text := Some (TextField {| fvType := "field";
                                  fvData := Some {| field_id := "f1" |} |});
       content := None;
       variables := Some {| lvText := Some template |} |} in
  let plain (t : InlineVariableContent) :=
    {| text := None; content := None;
       variables := Some {| lvText := Some t |} |} in
  let data : ItemData := {[ "f1" := Some "X" ]} in
  let fields : CollectionFields := {[ "blog" := [] ]} in
  scanMarkers (ivcData template) = [Lit "H"; Lit "i"; Lit " "; Marker "v1"]
  /\ getText (fun key => key) fields bound (Some data) (Some "blog")
     = Returns (TextString "X")
  /\ getText (fun key => key) fields (plain template) (Some data)
       (Some "constructor")
     = Throws
  /\ In (Marker "v1") (scanMarkers (ivcData nested))
  /\ getText (fun key => key) fields (plain nested) (Some data) (Some "blog")
     = Returns (TextString (markerOf "v1")).
Proof.
  repeat split; try (vm_compute; reflexivity).
  vm_compute. tauto.
Qed.

(** C9, amended.  Take a layer whose own text is not a field reference, a
    field list of the collection that is an array, as it is for a collection
    id that is a key of [collectionFields] or no name of a member of
    [Object.prototype], and in the inline template a variable [id] bound to
    a field that is not in that list.  The variable resolves to the empty
    string.  Wherever the marker pattern finds a marker of [id] in the
    template, [getText] returns, and it returns the rendering of the segments
    before the marker followed by that of the segments after it, literal
    text kept and the other markers resolved, with nothing for the marker
    itself.  In particular, for a template that is plain text without [<],
    then the marker of [id], then anything, the result is the plain text
    followed by the resolved rest; and when that rest has no [<] either, the
    result is the plain text followed by the rest, and no marker starts
    anywhere in it. *)
Theorem getText_stale_placeholder
  (prototypeText : string -> string)
  (collectionFields : CollectionFields) (layer : Layer)
  (collectionItemData : option ItemData) (collectionId : option string)
  (inlineContent : InlineVariableContent) (vars : gmap string FieldVariable)
  (fields : list CollectionField)
  (id fieldId : string) (variable : FieldVariable) :
  isFieldReference (textOrContent layer) = false ->
  variables layer = Some {| lvText := Some inlineContent |} ->
  ivcVariables inlineContent = Some vars ->
  vars !! id = Some variable ->
  fieldIdOf variable = Some fieldId ->
  fieldsFor collectionFields collectionId = FieldArray fields ->
  ~ In fieldId (map cfId fields) ->
  let replacer :=
    placeholderValue prototypeText vars collectionItemData fields in
  replacer id = EmptyString
  /\ (forall before after,
        scanMarkers (ivcData inlineContent) = before ++ Marker id :: after ->
        getText prototypeText collectionFields layer collectionItemData
          collectionId
        = Returns
            (TextString
               (rendered replacer before +:+ rendered replacer after)))
  /\ (forall plain rest,
        ivcData inlineContent = plain +:+ markerOf id +:+ rest ->
        existsChar (fun c => Ascii.eqb c "<"%char) plain = false ->
        validId id = true ->
        getText prototypeText collectionFields layer collectionItemData
          collectionId
        = Returns
            (TextString (plain +:+ rendered replacer (scanMarkers rest))))
  /\ (forall plain rest,
        ivcData inlineContent = plain +:+ markerOf id +:+ rest ->
        existsChar (fun c => Ascii.eqb c "<"%char) plain = false ->
        existsChar (fun c => Ascii.eqb c "<"%char) rest = false ->
        validId id = true ->
        getText prototypeText collectionFields layer collectionItemData
          collectionId
        = Returns (TextString (plain +:+ rest))
        /\ includes markerOpen (plain +:+ rest) = false).
Proof.
  intros Hnf Hvars Hiv Hv Hf Hfields Hnot replacer.
  assert (replacer id = EmptyString) as Hid
    by (eapply stale_variable_empty; eassumption).
  split; [exact Hid|].
  assert (forall before after,
            scanMarkers (ivcData inlineContent) = before ++ Marker id :: after ->
            getText prototypeText collectionFields layer collectionItemData
              collectionId
            = Returns
                (TextString
                   (rendered replacer before +:+ rendered replacer after)))
    as Hsegments.
  { intros before after Hscan.
    rewrite (getText_inline _ _ _ _ _ _ _ _ Hnf Hvars Hiv Hfields).
    rewrite Hscan, rendered_app. fold replacer.
    cbn [rendered]. now rewrite Hid. }
  split; [exact Hsegments|].
  assert (forall plain rest,
            ivcData inlineContent = plain +:+ markerOf id +:+ rest ->
            existsChar (fun c => Ascii.eqb c "<"%char) plain = false ->
            validId id = true ->
            getText prototypeText collectionFields layer collectionItemData
              collectionId
            = Returns
                (TextString (plain +:+ rendered replacer (scanMarkers rest))))
    as Htext.
  { intros plain rest Hdata Hplain Hvalid.
    rewrite (Hsegments (map Lit (list_ascii_of_string plain))
               (scanMarkers rest)).
    - now rewrite rendered_literal.
    - now rewrite Hdata, (scan_plain _ _ Hplain), (scan_marker _ _ Hvalid). }
  split; [exact Htext|].
  intros plain rest Hdata Hplain Hrest Hvalid. split.
  - rewrite (Htext plain rest Hdata Hplain Hvalid).
    now rewrite (scan_all_plain _ Hrest), rendered_literal.
  - unfold markerOpen. cbn [String.append].
    apply includes_needs_first. now rewrite existsChar_app, Hplain, Hrest.
Qed.

Lemma getText_stale_placeholder_witness :
  let author := {| fvType := "field";
                   fvData := Some {| field_id := "author" |} |} in
  let title := {| fvType := "field";
                  fvData := Some {| field_id := "title" |} |} in
  let template :=
    {| ivcData := "By " +:+ markerOf "v1" +:+ ": " +:+ markerOf "v2" +:+ "!";
       ivcVariables := Some {[ "v1" := author; "v2" := title ]} |} in
  let layer :=
    {| text := Some (TextString "fallback"); content := None;
       variables := Some {| lvText := Some template |} |} in
  let fields : CollectionFields :=
    {[ "blog" := [ {| cfId := "title"; cfName := "Title" |} ] ]} in
  let data : ItemData := {[ "author" := Some "Ann"; "title" := Some "News" ]} in
  getText (fun key => key) fields layer (Some data) (Some "blog")
  = Returns (TextString "By : News!").
Proof.
  intros author title template layer fields data.
  assert (isFieldReference (textOrContent layer) = false) as H1
    by reflexivity.
  assert (variables layer = Some {| lvText := Some template |}) as H2
    by reflexivity.
  assert (ivcVariables template
          = Some {[ "v1" := author; "v2" := title ]}) as H3
    by reflexivity.
  assert (({[ "v1" := author; "v2" := title ]} : gmap string FieldVariable)
            !! "v1" = Some author) as H4
    by (vm_compute; reflexivity).
  assert (fieldIdOf author = Some "author") as H5 by reflexivity.
  assert (fieldsFor fields (Some "blog")
          = FieldArray [ {| cfId := "title"; cfName := "Title" |} ]) as H6
    by (vm_compute; reflexivity).
  assert (~ In "author"
            (map cfId [ {| cfId := "title"; cfName := "Title" |} ])) as H7
    by (intros [H | []]; discriminate).
  destruct (getText_stale_placeholder (fun key => key) fields layer
              (Some data) (Some "blog")
              template _ _ "v1" "author" author H1 H2 H3 H4 H5 H6 H7)
    as (_ & Hsegments & Htext & _).
  rewrite (Htext "By " (": " +:+ markerOf "v2" +:+ "!"));
    vm_compute; reflexivity.
Defined.
